(** * navigator_flex: tariff applicability, penalty/exclusion resolution
      and duty aggregation

    A shallow embedding of [src/tariff_processor.py], [src/report_builder.py]
    and the calculation part of [src/route.py].

    Conventions of the embedding.
    - A tariff record is the JSON object returned by the remote API.  It is
      modelled as a record whose fields are [option]s: [None] is an absent
      key.  A key that is present carries a value of the type the code uses
      it at (a string for a date field, a list for [countriesOfOrigin], ...).
      The applicability check is also given on JSON values as they come
      ([RawJson]), where a key may hold a value of any type, a JSON null
      among them; the two agree on typed records ([typed_records_agree]).
    - Python exceptions are the [Raise] case of [result]; [try]/[except]
      blocks are pattern matches on it.
    - [print] diagnostics are returned as a list of [diag] values next to the
      result of the function that prints.
    - A Python float is an IEEE 754 binary64 number: a [spec_float] of the
      Standard Library, with its operations at precision 53 (rounding to
      nearest, ties to even; overflow gives an infinity).  The [penaltyRate]
      of a record, which is only compared with 0, is the rational it denotes.
    - Strings are sequences of ASCII characters: [\d], [lower] and [upper]
      are those of ASCII.  A statement that depends on it says so
      ([ascii_only]).
    - [datetime.fromisoformat(...).date()] is a parameter of the development:
      every statement holds for each parser of ISO strings.
    - The report handed to the aggregation step is a tree of Python dicts and
      lists; it is kept as such ([jval]) because the aggregation reads it by
      key. *)

From Stdlib Require Import ZArith QArith String Ascii List Bool Lia Sorted SpecFloat.
From stdpp Require Import base gmap sets list strings pretty.

#[local] Set Warnings "-clear-no-such-hyp".
Import ListNotations.

Open Scope string_scope.
Open Scope list_scope.

(** ** Exceptions *)

Inductive exn : Type :=
| KeyError (key : string)
| ValueError
| TypeError
| AttributeError
| IndexError.

Inductive result (A : Type) : Type :=
| Ok (a : A)
| Raise (e : exn).

Arguments Ok {A} a.
Arguments Raise {A} e.

#[global] Instance result_ret : MRet result := @Ok.

#[global] Instance result_bind : MBind result :=
  λ A B f m, match m with Ok a => f a | Raise e => Raise e end.

(** [d[key]] on a dict whose key may be absent. *)
Definition getitem {A : Type} (key : string) (field : option A) : result A :=
  match field with
  | Some a => Ok a
  | None => Raise (KeyError key)
  end.

(** [any(f(x) for x in l)]: stops at the first [True], and at the first
    exception. *)
Fixpoint any_result {A : Type} (f : A → result bool) (l : list A) : result bool :=
  match l with
  | [] => Ok false
  | x :: rest =>
      b ← f x;
      if b : bool then Ok true else any_result f rest
  end.

(** [[f(x) for x in l]] with a fallible [f]. *)
Fixpoint map_result {A B : Type} (f : A → result B) (l : list A) : result (list B) :=
  match l with
  | [] => Ok []
  | x :: rest =>
      y ← f x;
      ys ← map_result f rest;
      Ok (y :: ys)
  end.

(** [[x for x in l if p(x)]] with a fallible [p]. *)
Fixpoint filter_result {A : Type} (p : A → result bool) (l : list A) : result (list A) :=
  match l with
  | [] => Ok []
  | x :: rest =>
      b ← p x;
      xs ← filter_result p rest;
      Ok (if b : bool then x :: xs else xs)
  end.

(** ** Strings *)

Definition is_digit (c : ascii) : bool :=
  let n := nat_of_ascii c in (48 <=? n)%nat && (n <=? 57)%nat.

Definition lower_char (c : ascii) : ascii :=
  let n := nat_of_ascii c in
  if (65 <=? n)%nat && (n <=? 90)%nat then ascii_of_nat (n + 32) else c.

Definition upper_char (c : ascii) : ascii :=
  let n := nat_of_ascii c in
  if (97 <=? n)%nat && (n <=? 122)%nat then ascii_of_nat (n - 32) else c.

(** [s.lower()] and [s.upper()], on ASCII. *)
Fixpoint lower (s : string) : string :=
  match s with
  | EmptyString => EmptyString
  | String c rest => String (lower_char c) (lower rest)
  end.

Fixpoint upper (s : string) : string :=
  match s with
  | EmptyString => EmptyString
  | String c rest => String (upper_char c) (upper rest)
  end.

(** [s.replace(c, by)] for a one-character pattern. *)
Fixpoint replace (c : ascii) (by_ : string) (s : string) : string :=
  match s with
  | EmptyString => EmptyString
  | String a rest =>
      if Ascii.eqb a c then by_ +:+ replace c by_ rest
      else String a (replace c by_ rest)
  end.

Definition snoc (s : string) (c : ascii) : string := s +:+ String c EmptyString.

(** ** Dates *)

(** A [datetime.date]: compared as the triple (year, month, day). *)
Record date : Type := mkdate { year : Z; month : Z; day : Z }.

Definition date_compare (a b : date) : comparison :=
  match (year a ?= year b)%Z with
  | Eq => match (month a ?= month b)%Z with
          | Eq => (day a ?= day b)%Z
          | c => c
          end
  | c => c
  end.

Definition date_ltb (a b : date) : bool :=
  match date_compare a b with Lt => true | _ => false end.

Definition date_leb (a b : date) : bool :=
  match date_compare a b with Gt => false | _ => true end.

(** A parser for the plain form [YYYY-MM-DD...]: four digits, a dash, two
    digits, a dash, two digits, month and day in range; what follows the day
    is not looked at.  It instantiates the parameter [fromisoformat] in the
    examples. *)
Definition digit_val (c : ascii) : Z := Z.of_nat (nat_of_ascii c) - 48.

Definition iso_prefix_date (s : string) : option date :=
  match s with
  | String y1 (String y2 (String y3 (String y4 (String d1
      (String m1 (String m2 (String d2 (String a1 (String a2 _))))))))) =>
      if forallb is_digit [y1; y2; y3; y4; m1; m2; a1; a2]
         && Ascii.eqb d1 "-" && Ascii.eqb d2 "-"
      then
        let y := (((digit_val y1 * 10 + digit_val y2) * 10 + digit_val y3) * 10
                  + digit_val y4)%Z in
        let m := (digit_val m1 * 10 + digit_val m2)%Z in
        let d := (digit_val a1 * 10 + digit_val a2)%Z in
        if ((1 <=? m) && (m <=? 12) && (1 <=? d) && (d <=? 31))%Z
        then Some (mkdate y m d) else None
      else None
  | _ => None
  end.

(** ** Numeric tokens of a rate description ([src/route.py]) *)

(** [re.findall(r"\d+\.?\d*%?", s)].  Every part of the pattern after the
    first digit is optional and greedy, so a match never backtracks: the
    scanner below reads the string once, left to right.  [Idle] is outside a
    match, [InInt] inside [\d+], [InFrac] after the dot, inside [\d*]. *)
Inductive scan_state : Type :=
| Idle
| InInt (tok : string)
| InFrac (tok : string).

Fixpoint findall_from (st : scan_state) (s : string) : list string :=
  match s with
  | EmptyString =>
      match st with
      | Idle => []
      | InInt tok | InFrac tok => [tok]
      end
  | String c rest =>
      match st with
      | Idle =>
          if is_digit c then findall_from (InInt (String c EmptyString)) rest
          else findall_from Idle rest
      | InInt tok =>
          if is_digit c then findall_from (InInt (snoc tok c)) rest
          else if Ascii.eqb c "." then findall_from (InFrac (snoc tok c)) rest
          else if Ascii.eqb c "%" then snoc tok c :: findall_from Idle rest
          else tok :: findall_from Idle rest
      | InFrac tok =>
          if is_digit c then findall_from (InFrac (snoc tok c)) rest
          else if Ascii.eqb c "%" then snoc tok c :: findall_from Idle rest
          else tok :: findall_from Idle rest
      end
  end.

Definition extract_values (input_string : string) : list string :=
  findall_from Idle input_string.

(** ** Python floats *)

Definition double : Type := spec_float.

Definition fadd : double → double → double := SFadd 53 1024.
Definition fmul : double → double → double := SFmul 53 1024.
Definition fdiv : double → double → double := SFdiv 53 1024.

(** [0.0] *)
Definition fzero : double := S754_zero false.

(** The double of an integer. *)
Definition double_of_Z (n : Z) : double := binary_normalize 53 1024 n 0 false.

(** The double nearest to [n / scale], for [n] not negative: the quotient of
    the two integers, rounded once. *)
Definition decimal (n : Z) (scale : positive) : double :=
  match n with
  | Z.pos m => fdiv (S754_finite false m 0) (S754_finite false scale 0)
  | _ => fzero
  end.

(** [math.isfinite(x)] *)
Definition is_finite (x : double) : bool :=
  match x with
  | S754_zero _ | S754_finite _ _ _ => true
  | S754_infinity _ | S754_nan => false
  end.

(** [x < 0] *)
Definition below_zero (x : double) : bool := SFltb x fzero.

(** [float(s)] on the strings this program passes to it: a run of digits,
    then optionally a dot and a run of digits; the result is the double
    nearest to the decimal number read.  Any other string is [ValueError]
    here.  [acc] is the integer read so far, [scale] the power of ten it is
    to be divided by. *)
Fixpoint float_frac (acc : Z) (scale : positive) (s : string) : option double :=
  match s with
  | EmptyString => Some (decimal acc scale)
  | String c rest =>
      if is_digit c
      then float_frac (acc * 10 + digit_val c) (scale * 10) rest
      else None
  end.

Fixpoint float_int (seen : bool) (acc : Z) (s : string) : option double :=
  match s with
  | EmptyString => if seen then Some (decimal acc 1) else None
  | String c rest =>
      if is_digit c then float_int true (acc * 10 + digit_val c) rest
      else if Ascii.eqb c "." && seen then float_frac acc 1 rest
      else None
  end.

Definition float (s : string) : result double :=
  match float_int false 0 s with
  | Some x => Ok x
  | None => Raise ValueError
  end.

(** The value of the finite double of mantissa [m] and exponent [e]. *)
Definition exact_value (m : positive) (e : Z) : Q :=
  match e with
  | Z0 => Z.pos m # 1
  | Z.pos p => Z.pos (m * 2 ^ p) # 1
  | Z.neg p => Z.pos m # 2 ^ p
  end.

(** [x] rounded to hundredths, ties to even. *)
Definition round_hundredths (x : Q) : Z :=
  let n := (Qnum x * 100)%Z in
  let d := Z.pos (Qden x) in
  let fl := (n / d)%Z in
  match (2 * (n mod d) ?= d)%Z with
  | Lt => fl
  | Gt => (fl + 1)%Z
  | Eq => if Z.even fl then fl else (fl + 1)%Z
  end.

Definition two_digits (n : Z) : string :=
  (if (n <? 10)%Z then "0" else "") +:+ pretty n.

(** [f"{x:.2f}"]: the value of the double, rounded to two decimals. *)
Definition format_2f (x : double) : string :=
  match x with
  | S754_nan => "nan"
  | S754_infinity s => if s then "-inf" else "inf"
  | S754_zero s => if s then "-0.00" else "0.00"
  | S754_finite s m e =>
      let h := round_hundredths (exact_value m e) in
      (if s then "-" else "")
        +:+ pretty (h / 100)%Z +:+ "." +:+ two_digits (h mod 100)%Z
  end.

(** ** Tariff records *)

(** An entry of [countriesOfOrigin]. *)
Record country_ref : Type := { usCustomsCountryCode : option string }.

(** [codeVariant], and an entry of [excludedByCodes]: an object with a
    [code] key. *)
Record code_ref : Type := { code : option string }.

(** An entry of [applicabilityConditions]. *)
Record condition : Type := {
  fieldKey : option string;
  __typename : option string;
  fieldShouldEqual : option string;
  threshold : option string;
  lowerBound : option string;
  upperBound : option string
}.

(** [rateInfo].  [penaltyRate] is the number the field denotes; [None] when
    the key is absent or its value is empty, the cases [... or 0] covers. *)
Record rate_info : Type := { penaltyRate : option Q }.

Module ImportProgram.
Record t : Type := {
  programName : option string;
  countriesOfOrigin : option (list country_ref)
}.
End ImportProgram.

(** An entry of the primary record's [specialRates]. *)
Module SpecialRate.
Record t : Type := {
  spi : option string;
  rateDescription : option string;
  importProgram : option ImportProgram.t
}.
End SpecialRate.

Record tariff_code : Type := {
  type_ : option string;
  codeVariant : option code_ref;
  label : option string;
  fullDescription : option string;
  rateDescription : option string;
  rateInfo : option rate_info;
  effectiveFrom : option string;
  effectiveTo : option string;
  countriesOfOrigin : option (list country_ref);
  applicabilityConditions : option (list condition);
  excludedByCodes : option (list code_ref);
  priority : option Z;
  requiresUserChoice : option bool;
  specialRates : option (list SpecialRate.t)
}.

(** ** Python dicts with string keys, in insertion order *)

Module PyDict.

Definition t (V : Type) : Type := list (string * V).

Fixpoint get {V : Type} (k : string) (d : t V) : option V :=
  match d with
  | [] => None
  | (k', v) :: rest => if String.eqb k' k then Some v else get k rest
  end.

(** [d[k] = v]: an existing key keeps its place and takes the new value, a
    new key goes last. *)
Fixpoint set {V : Type} (k : string) (v : V) (d : t V) : t V :=
  match d with
  | [] => [(k, v)]
  | (k', v') :: rest =>
      if String.eqb k' k then (k, v) :: rest else (k', v') :: set k v rest
  end.

Definition items {V : Type} (d : t V) : list (string * V) := d.

Definition values {V : Type} (d : t V) : list V := map snd d.

End PyDict.

(** ** Diagnostics printed by the processor *)

Inductive diag : Type :=
| WarnDateCondition (c : condition)
    (* "Warning: Could not parse date condition: {condition}" *)
| WarnApplicability (code_ : option string) (e : exn).
    (* "Warning: Could not parse applicability for code {code}. Error: {e}" *)

(** ** [TariffProcessor] ([src/tariff_processor.py]) *)

(** The value stored under a penalty code in [excluded_penalties]. *)
Record excluded_entry : Type := {
  penalty : tariff_code;
  exclusions : list tariff_code
}.

(** The dict returned by [_process_other_tariffs]. *)
Record processed : Type := {
  applicable_penalties : list tariff_code;
  excluded_penalties : PyDict.t excluded_entry;
  neutral_exclusions : list tariff_code
}.

(** The dict returned by [analyze_tariffs] when there is a primary record:
    [primary], [special_programs] and the three keys of
    [_process_other_tariffs]. *)
Record analysis_ok : Type := {
  primary : tariff_code;
  special_programs : list SpecialRate.t;
  processed_tariffs : processed
}.

Inductive analysis : Type :=
| AnalysisError (error : string)
| Analysis (a : analysis_ok).

Module TariffProcessor.

Section WithParser.

(** [fromisoformat s] is [datetime.fromisoformat(s).date()]; [None] is
    [ValueError]. *)
Variable fromisoformat : string → option date.

(** [datetime.fromisoformat(d[key].replace('Z', '+00:00')).date()] *)
Definition parse_date (key : string) (field : option string) : result date :=
  s ← getitem key field;
  match fromisoformat (replace "Z" "+00:00" s) with
  | Some d => Ok d
  | None => Raise ValueError
  end.

(** The body of the [try] block of [_check_conditions] for one
    [DATE_OF_LOADING] condition: [Ok false] is [return False], [Ok true]
    falls through to the next condition. *)
Definition loading_date_holds (c : condition) (loading_date : date) : result bool :=
  if bool_decide (__typename c = Some "CustomsTariffLess") then
    t ← parse_date "threshold" (threshold c);
    Ok (date_ltb loading_date t)
  else if bool_decide (__typename c = Some "CustomsTariffGreater") then
    t ← parse_date "threshold" (threshold c);
    Ok (date_ltb t loading_date)
  else if bool_decide (__typename c = Some "CustomsTariffBetween") then
    lo ← parse_date "lowerBound" (lowerBound c);
    up ← parse_date "upperBound" (upperBound c);
    Ok (date_leb lo loading_date && date_ltb loading_date up)
  else Ok true.

(** The [for] loop of [_check_conditions].  [except (KeyError, ValueError)]
    prints a warning and returns [False]; another exception goes on to the
    caller. *)
Fixpoint check_each (conditions : list condition) (transport : string)
    (loading_date : option date) : result (bool * list diag) :=
  match conditions with
  | [] => Ok (true, [])
  | c :: rest =>
      if bool_decide (fieldKey c = Some "MODE_OF_TRANSPORT")
         && negb (String.eqb transport "ANY")
      then
        if bool_decide (fieldShouldEqual c = Some transport)
        then check_each rest transport loading_date
        else Ok (false, [])
      else if bool_decide (fieldKey c = Some "DATE_OF_LOADING") then
        match loading_date with
        | None => Ok (false, [])
        | Some ld =>
            match loading_date_holds c ld with
            | Ok true => check_each rest transport loading_date
            | Ok false => Ok (false, [])
            | Raise (KeyError _) | Raise ValueError =>
                Ok (false, [WarnDateCondition c])
            | Raise e => Raise e
            end
        end
      else check_each rest transport loading_date
  end.

Definition _check_conditions (conditions : list condition) (transport : string)
    (loading_date : option date) : result (bool * list diag) :=
  check_each conditions transport loading_date.

(** Steps 2 and 3 of [_is_code_applicable]: country of origin, then the
    applicability conditions. *)
Definition country_and_conditions (c : tariff_code) (country transport : string)
    (loading_date : option date) : result (bool * list diag) :=
  let countries := default [] (countriesOfOrigin c) in
  country_ok ←
    match countries with
    | [] => Ok true
    | _ :: _ =>
        any_result
          (λ x, cc ← getitem "usCustomsCountryCode" (usCustomsCountryCode x);
                Ok (String.eqb cc country))
          countries
    end;
  if negb country_ok
  then Ok (false, [])
  else
    let conditions := default [] (applicabilityConditions c) in
    _check_conditions conditions transport loading_date.

(** The [try] block of [_is_code_applicable]: step 1, the entry date, then
    the two other steps. *)
Definition applicable_body (c : tariff_code) (country transport : string)
    (entry_date : date) (loading_date : option date) : result (bool * list diag) :=
  from_date ← parse_date "effectiveFrom" (effectiveFrom c);
  to_date ← parse_date "effectiveTo" (effectiveTo c);
  if negb (date_leb from_date entry_date && date_leb entry_date to_date)
  then Ok (false, [])
  else country_and_conditions c country transport loading_date.

(** [except (KeyError, ValueError)] around the body. *)
Definition catch_applicability (c : tariff_code)
    (body : result (bool * list diag)) : result (bool * list diag) :=
  match body with
  | Ok r => Ok r
  | Raise (KeyError _ as e) | Raise (ValueError as e) =>
      Ok (false, [WarnApplicability (cv ← codeVariant c; code cv) e])
  | Raise e => Raise e
  end.

Definition _is_code_applicable (c : tariff_code) (country transport : string)
    (entry_date : date) (loading_date : option date) : result (bool * list diag) :=
  catch_applicability c
    (applicable_body c country transport entry_date loading_date).

End WithParser.

(** [float(c['rateInfo'].get('penaltyRate') or 0)] *)
Definition penalty_rate (c : tariff_code) : result Q :=
  ri ← getitem "rateInfo" (rateInfo c);
  Ok (default 0%Q (penaltyRate ri)).

(** [c['codeVariant']['code']] *)
Definition code_of (c : tariff_code) : result string :=
  cv ← getitem "codeVariant" (codeVariant c);
  getitem "code" (code cv).

Definition is_penalty (c : tariff_code) : result bool :=
  r ← penalty_rate c; Ok (negb (Qle_bool r 0)).

Definition is_exclusion (c : tariff_code) : result bool :=
  r ← penalty_rate c; Ok (Qeq_bool r 0).

Definition has_code (k : string) (e : tariff_code) : result bool :=
  c ← code_of e; Ok (String.eqb c k).

(** State of the loop over one penalty's [excludedByCodes]:
    [is_excluded], [matching_exclusions], [used_exclusion_codes]. *)
Definition match_state : Type := bool * list tariff_code * gset string.

Fixpoint match_exclusions (exclusion_code_set : gset string)
    (exclusions : list tariff_code) (excluded_bys : list code_ref)
    (st : match_state) : result match_state :=
  match excluded_bys with
  | [] => Ok st
  | excluded_by :: rest =>
      let '(is_excluded, matching_exclusions, used) := st in
      match code excluded_by with
      | Some ex_code =>
          if bool_decide (ex_code ∈ exclusion_code_set) then
            found ← filter_result (has_code ex_code) exclusions;
            match_exclusions exclusion_code_set exclusions rest
              (true, matching_exclusions ++ found, used ∪ {[ex_code]})
          else match_exclusions exclusion_code_set exclusions rest st
      | None => match_exclusions exclusion_code_set exclusions rest st
      end
  end.

(** State of the loop over the penalties: [final_penalties],
    [excluded_penalties], [used_exclusion_codes]. *)
Definition resolve_state : Type :=
  list tariff_code * PyDict.t excluded_entry * gset string.

Fixpoint resolve_penalties (exclusion_code_set : gset string)
    (exclusions : list tariff_code) (penalties : list tariff_code)
    (st : resolve_state) : result resolve_state :=
  match penalties with
  | [] => Ok st
  | p :: rest =>
      let '(final_penalties, excluded, used) := st in
      penalty_code ← code_of p;
      r ← match_exclusions exclusion_code_set exclusions
            (default [] (excludedByCodes p)) (false, [], used);
      let '(is_excluded, matching_exclusions, used') := r in
      if is_excluded : bool then
        resolve_penalties exclusion_code_set exclusions rest
          (final_penalties,
           PyDict.set penalty_code
             {| penalty := p; exclusions := matching_exclusions |} excluded,
           used')
      else
        resolve_penalties exclusion_code_set exclusions rest
          (final_penalties ++ [p], excluded, used')
  end.

Definition _process_other_tariffs (tariffs : list tariff_code) : result processed :=
  penalties ← filter_result is_penalty tariffs;
  exclusions ← filter_result is_exclusion tariffs;
  exclusion_codes ← map_result code_of exclusions;
  let exclusion_code_set : gset string := list_to_set exclusion_codes in
  r ← resolve_penalties exclusion_code_set exclusions penalties ([], [], ∅);
  let '(final_penalties, excluded, used_exclusion_codes) := r in
  neutral ← filter_result
    (λ e, c ← code_of e; Ok (negb (bool_decide (c ∈ used_exclusion_codes))))
    exclusions;
  Ok {| applicable_penalties := final_penalties;
        excluded_penalties := excluded;
        neutral_exclusions := neutral |}.

(** [list.sort(key=lambda x: x.get('priority', 99))]: a stable sort. *)
Definition priority_key (c : tariff_code) : Z := default 99%Z (priority c).

Fixpoint insert_sorted (x : tariff_code) (l : list tariff_code) : list tariff_code :=
  match l with
  | [] => [x]
  | y :: rest =>
      if (priority_key x <=? priority_key y)%Z then x :: y :: rest
      else y :: insert_sorted x rest
  end.

Definition sort_by_priority (l : list tariff_code) : list tariff_code :=
  foldr insert_sorted [] l.

Definition is_commodity_code (c : tariff_code) : bool :=
  bool_decide (type_ c = Some "COMMODITY_CODE").

(** The special programs of the primary record open to [country]. *)
Definition program_applies (country : string) (rate : SpecialRate.t) : result bool :=
  ip ← getitem "importProgram" (SpecialRate.importProgram rate);
  cs ← getitem "countriesOfOrigin" (ImportProgram.countriesOfOrigin ip);
  any_result
    (λ x, cc ← getitem "usCustomsCountryCode" (usCustomsCountryCode x);
          Ok (String.eqb cc country))
    cs.

Section WithParser.

Variable fromisoformat : string → option date.

(** The comprehension building [other_tariffs], with what it prints. *)
Fixpoint applicable_others (raw_data : list tariff_code) (country transport : string)
    (entry_date : date) (loading_date : option date)
    : result (list tariff_code) * list diag :=
  match raw_data with
  | [] => (Ok [], [])
  | c :: rest =>
      if is_commodity_code c
      then applicable_others rest country transport entry_date loading_date
      else
        match _is_code_applicable fromisoformat c country transport
                entry_date loading_date with
        | Raise e => (Raise e, [])
        | Ok (ok, out) =>
            let '(kept, out_rest) :=
              applicable_others rest country transport entry_date loading_date in
            (kept ← kept; Ok (if ok : bool then c :: kept else kept),
             out ++ out_rest)
        end
  end.

(** [analyze_tariffs]: the value returned or the exception raised, and the
    diagnostics printed on the way. *)
Definition analyze_tariffs (raw_data : list tariff_code) (country transport : string)
    (entry_date : date) (loading_date : option date) : result analysis * list diag :=
  match List.find is_commodity_code raw_data with
  | None => (Ok (AnalysisError "No primary COMMODITY_CODE found."), [])
  | Some primary_code =>
      match filter_result (program_applies country)
              (default [] (specialRates primary_code)) with
      | Raise e => (Raise e, [])
      | Ok programs =>
          let '(other_tariffs, out) :=
            applicable_others raw_data country transport entry_date loading_date in
          (other_tariffs ← other_tariffs;
           processed_ ← _process_other_tariffs (sort_by_priority other_tariffs);
           Ok (Analysis {| primary := primary_code;
                           special_programs := programs;
                           processed_tariffs := processed_ |}),
           out)
      end
  end.

End WithParser.

End TariffProcessor.

(** ** The report: Python dicts, lists, strings and booleans *)

#[local] Unset Elimination Schemes.

Inductive jval : Type :=
| JNone
| JBool (b : bool)
| JStr (s : string)
| JList (l : list jval)
| JDict (d : list (string * jval)).

#[local] Set Elimination Schemes.

(** [bool(v)] *)
Definition truthy (v : jval) : bool :=
  match v with
  | JNone => false
  | JBool b => b
  | JStr s => negb (String.eqb s "")
  | JList l => match l with [] => false | _ => true end
  | JDict d => match d with [] => false | _ => true end
  end.

(** [v.get(k, dflt)]; only a dict has [get]. *)
Definition dict_get (k : string) (dflt : jval) (v : jval) : result jval :=
  match v with
  | JDict d => Ok (default dflt (PyDict.get k d))
  | _ => Raise AttributeError
  end.

(** [v[k]] on a dict. *)
Definition dict_item (k : string) (v : jval) : result jval :=
  match v with
  | JDict d => getitem k (PyDict.get k d)
  | _ => Raise TypeError
  end.

(** [v.values()] *)
Definition dict_values (v : jval) : result (list jval) :=
  match v with
  | JDict d => Ok (PyDict.values d)
  | _ => Raise AttributeError
  end.

Fixpoint chars (s : string) : list jval :=
  match s with
  | EmptyString => []
  | String c rest => JStr (String c EmptyString) :: chars rest
  end.

(** The values [for x in v] runs over: the elements of a list, the keys of a
    dict, the characters of a string. *)
Definition iterate (v : jval) : result (list jval) :=
  match v with
  | JList l => Ok l
  | JDict d => Ok (map (λ kv, JStr kv.1) d)
  | JStr s => Ok (chars s)
  | JNone | JBool _ => Raise TypeError
  end.

(** [v[0]] *)
Definition first_item (v : jval) : result jval :=
  match v with
  | JList (x :: _) => Ok x
  | JList [] => Raise IndexError
  | JStr (String c _) => Ok (JStr (String c EmptyString))
  | JStr EmptyString => Raise IndexError
  | JDict _ => Raise (KeyError "0")
  | JNone | JBool _ => Raise TypeError
  end.

(** [extract_values(v)]: [re.findall] takes a string. *)
Definition extract_values_of (v : jval) : result (list string) :=
  match v with
  | JStr s => Ok (extract_values s)
  | _ => Raise TypeError
  end.

(** ** The applicability check on records as the loader returns them

    [TariffProcessor] above reads records whose present fields have the
    types the code uses them at.  The records the loader returns are JSON
    values, and nothing checks them before [_is_code_applicable] runs.
    [RawJson] is the same check on JSON values: a key may hold a value of
    any type ([None] for a JSON null).  [reads_as], further down, relates a
    JSON record to the typed record it denotes, and
    [typed_records_agree] shows that the two checks agree on them. *)

Module RawJson.

Inductive diag : Type :=
| WarnDateCondition (condition : jval)
    (* "Warning: Could not parse date condition: {condition}" *)
| WarnApplicability (code_ : jval) (e : exn).
    (* "Warning: Could not parse applicability for code {code}. Error: {e}" *)

(** [v == s] for a string [s]: a value of another type is not equal to it. *)
Definition is_str (v : jval) (s : string) : bool :=
  match v with
  | JStr s' => String.eqb s' s
  | _ => false
  end.

Section WithParser.

Variable fromisoformat : string → option date.

(** [datetime.fromisoformat(d[key].replace('Z', '+00:00')).date()]:
    [replace] is a method of strings only. *)
Definition parse_date (key : string) (d : jval) : result date :=
  v ← dict_item key d;
  match v with
  | JStr s =>
      match fromisoformat (replace "Z" "+00:00" s) with
      | Some x => Ok x
      | None => Raise ValueError
      end
  | _ => Raise AttributeError
  end.

(** The body of the [try] block of [_check_conditions] for one
    [DATE_OF_LOADING] condition: [Ok false] is [return False], [Ok true]
    falls through to the next condition. *)
Definition loading_date_holds (condition cond_type : jval) (loading_date : date)
    : result bool :=
  if is_str cond_type "CustomsTariffLess" then
    t ← parse_date "threshold" condition;
    Ok (date_ltb loading_date t)
  else if is_str cond_type "CustomsTariffGreater" then
    t ← parse_date "threshold" condition;
    Ok (date_ltb t loading_date)
  else if is_str cond_type "CustomsTariffBetween" then
    lo ← parse_date "lowerBound" condition;
    up ← parse_date "upperBound" condition;
    Ok (date_leb lo loading_date && date_ltb loading_date up)
  else Ok true.

(** The [for] loop of [_check_conditions]. *)
Fixpoint check_each (conditions : list jval) (transport : string)
    (loading_date : option date) : result (bool * list diag) :=
  match conditions with
  | [] => Ok (true, [])
  | condition :: rest =>
      field_key ← dict_get "fieldKey" JNone condition;
      cond_type ← dict_get "__typename" JNone condition;
      if is_str field_key "MODE_OF_TRANSPORT" && negb (String.eqb transport "ANY")
      then
        should_equal ← dict_get "fieldShouldEqual" JNone condition;
        if negb (is_str should_equal transport)
        then Ok (false, [])
        else check_each rest transport loading_date
      else if is_str field_key "DATE_OF_LOADING" then
        match loading_date with
        | None => Ok (false, [])
        | Some ld =>
            match loading_date_holds condition cond_type ld with
            | Ok true => check_each rest transport loading_date
            | Ok false => Ok (false, [])
            | Raise (KeyError _) | Raise ValueError =>
                Ok (false, [WarnDateCondition condition])
            | Raise e => Raise e
            end
        end
      else check_each rest transport loading_date
  end.

Definition _check_conditions (conditions : jval) (transport : string)
    (loading_date : option date) : result (bool * list diag) :=
  if negb (truthy conditions) then Ok (true, [])
  else
    conditions ← iterate conditions;
    check_each conditions transport loading_date.

(** The [try] block of [_is_code_applicable]. *)
Definition applicable_body (code_ : jval) (country transport : string)
    (entry_date : date) (loading_date : option date) : result (bool * list diag) :=
  from_date ← parse_date "effectiveFrom" code_;
  to_date ← parse_date "effectiveTo" code_;
  if negb (date_leb from_date entry_date && date_leb entry_date to_date)
  then Ok (false, [])
  else
    countries ← dict_get "countriesOfOrigin" (JList []) code_;
    country_ok ←
      (if truthy countries then
         countries ← iterate countries;
         any_result (λ c, v ← dict_item "usCustomsCountryCode" c;
                          Ok (is_str v country))
           countries
       else Ok true);
    if negb country_ok
    then Ok (false, [])
    else
      conditions ← dict_get "applicabilityConditions" (JList []) code_;
      _check_conditions conditions transport loading_date.

(** [except (KeyError, ValueError)] around the body; the handler reads
    [code.get('codeVariant', {}).get('code')] for its message. *)
Definition _is_code_applicable (code_ : jval) (country transport : string)
    (entry_date : date) (loading_date : option date) : result (bool * list diag) :=
  match applicable_body code_ country transport entry_date loading_date with
  | Ok r => Ok r
  | Raise (KeyError _ as e) | Raise (ValueError as e) =>
      variant ← dict_get "codeVariant" (JDict []) code_;
      k ← dict_get "code" JNone variant;
      Ok (false, [WarnApplicability k e])
  | Raise e => Raise e
  end.

(** The comprehension of [analyze_tariffs] that keeps the applicable
    records: the list built or the exception raised, and the diagnostics
    printed on the way. *)
Fixpoint other_tariffs (raw_data : list jval) (country transport : string)
    (entry_date : date) (loading_date : option date)
    : result (list jval) * list diag :=
  match raw_data with
  | [] => (Ok [], [])
  | code_ :: rest =>
      match dict_get "type" JNone code_ with
      | Raise e => (Raise e, [])
      | Ok kind =>
          if is_str kind "COMMODITY_CODE"
          then other_tariffs rest country transport entry_date loading_date
          else
            match _is_code_applicable code_ country transport entry_date
                    loading_date with
            | Raise e => (Raise e, [])
            | Ok (ok, out) =>
                let '(kept, out_rest) :=
                  other_tariffs rest country transport entry_date loading_date in
                (kept ← kept; Ok (if ok : bool then code_ :: kept else kept),
                 out ++ out_rest)
            end
      end
  end.

End WithParser.

End RawJson.

(** ** [ReportBuilder] ([src/report_builder.py]) *)

Module ReportBuilder.

Definition present {A : Type} (o : option A) : bool :=
  match o with Some _ => true | None => false end.

(** [bool(record)]: a dict is true when it has a key. *)
Definition record_truthy (c : tariff_code) : bool :=
  present (type_ c) || present (codeVariant c) || present (label c)
  || present (fullDescription c) || present (rateDescription c)
  || present (rateInfo c) || present (effectiveFrom c) || present (effectiveTo c)
  || present (countriesOfOrigin c) || present (applicabilityConditions c)
  || present (excludedByCodes c) || present (priority c)
  || present (requiresUserChoice c) || present (specialRates c).

(** [record.get('codeVariant', {}).get('code', 'N/A')] *)
Definition code_or_na (c : tariff_code) : string :=
  default "N/A" (cv ← codeVariant c; code cv).

Definition _build_primary_info (primary_ : tariff_code) : jval :=
  if negb (record_truthy primary_) then
    JDict [("error", JStr "No primary commodity code found.")]
  else
    JDict [
      ("hts_code", JStr (code_or_na primary_));
      ("description", JStr (default "N/A" (fullDescription primary_)));
      ("column_1_rate", JStr (default "N/A" (rateDescription primary_)));
      ("column_2_rate", JStr "15% (Rate applies to Cuba & North Korea)");
      ("column_2_note",
       JStr "Column 2 rate is not in the Flexport API file, it was retrieved from USITC data.")
    ].

Definition program_entry (prog : SpecialRate.t) : jval :=
  JDict [
    ("program_name",
     JStr (default "N/A"
             (ip ← SpecialRate.importProgram prog; ImportProgram.programName ip)));
    ("spi", JStr (default "N/A" (SpecialRate.spi prog)));
    ("rate", JStr (default "N/A" (SpecialRate.rateDescription prog)))
  ].

Definition _build_special_programs (programs : list SpecialRate.t) (country : string) : jval :=
  match programs with
  | [] =>
      JDict [
        ("country", JStr country);
        ("message",
         JStr "No special trade programs (e.g., GSP, FTAs) found for this country.");
        ("applicable_programs", JList [])
      ]
  | _ :: _ =>
      JDict [
        ("country", JStr country);
        ("applicable_programs", JList (map program_entry programs))
      ]
  end.

Definition penalty_entry (c : tariff_code) : jval :=
  JDict [
    ("label", JStr (default "N/A" (label c)));
    ("code", JStr (code_or_na c));
    ("rate", JStr (default "N/A" (rateDescription c)))
  ].

Definition exclusion_entry (c : tariff_code) : jval :=
  JDict [
    ("label", JStr (default "N/A" (label c)));
    ("code", JStr (code_or_na c));
    ("rate", JStr (default "N/A" (rateDescription c)));
    ("requires_choice", JBool (default false (requiresUserChoice c)))
  ].

Definition excluded_penalty_entry (item : string * excluded_entry) : jval :=
  let '(penalty_code, data) := item in
  JDict [
    ("penalty_label", JStr (default "N/A" (label (penalty data))));
    ("penalty_code", JStr penalty_code);
    ("penalty_rate", JStr (default "N/A" (rateDescription (penalty data))));
    ("potential_exclusions", JList (map exclusion_entry (exclusions data)))
  ].

Definition _build_other_tariffs (penalties : list tariff_code)
    (excluded : PyDict.t excluded_entry) (neutral : list tariff_code) : jval :=
  match penalties, excluded, neutral with
  | [], [], [] =>
      JDict [
        ("active_penalties", JList []);
        ("excluded_penalties", JList []);
        ("neutral_exclusions", JList []);
        ("message",
         JList [JStr "No other tariffs (e.g., Section 301, IEEPA) found matching your criteria."])
      ]
  | _, _, _ =>
      JDict [
        ("active_penalties", JList (map penalty_entry penalties));
        ("excluded_penalties",
         JList (map excluded_penalty_entry (PyDict.items excluded)));
        ("neutral_exclusions", JList (map exclusion_entry neutral))
      ]
  end.

Definition generate_report_data (a : analysis_ok) (country : string) : jval :=
  JDict [
    ("primary_info", _build_primary_info (primary a));
    ("special_programs", _build_special_programs (special_programs a) country);
    ("other_tariffs",
     _build_other_tariffs
       (applicable_penalties (processed_tariffs a))
       (excluded_penalties (processed_tariffs a))
       (neutral_exclusions (processed_tariffs a)))
  ].

End ReportBuilder.

(** ** The calculation of [calculate_tariff_route] ([src/route.py]) *)

Module Route.

(** An entry of [penalties], [excluded_penalties] or
    [potential_exclusions] in the dict [get_data] returns. *)
Record rated : Type := {
  rated_label : jval;
  rated_code : jval;
  rate_values : list string
}.

(** The dict returned by [get_data]. *)
Record tariff_data : Type := {
  basic_rate : jval;
  penalties : list rated;
  excluded_penalties : list rated;
  potential_exclusions : list rated;
  neutral_exclusions : list string
}.

(** The body of the loop over [active_penalties]. *)
Definition active_entry (penalty_ : jval) : result (list rated) :=
  match penalty_ with
  | JDict _ =>
      penalty_label ← dict_get "label" (JStr "") penalty_;
      penalty_code ← dict_get "code" (JStr "") penalty_;
      penalty_rate ← dict_get "rate" (JStr "") penalty_;
      values ← extract_values_of penalty_rate;
      Ok [{| rated_label := penalty_label; rated_code := penalty_code;
             rate_values := values |}]
  | _ => Ok []
  end.

(** The body of the loop over [potential_exclusions]. *)
Definition potential_entry (potential : jval) : result rated :=
  rate ← dict_get "rate" (JStr "") potential;
  code_ ← dict_get "code" (JStr "") potential;
  label_ ← dict_get "label" (JStr "") potential;
  values ← extract_values_of rate;
  Ok {| rated_label := label_; rated_code := code_; rate_values := values |}.

(** The loop over [neutral.values()]. *)
Fixpoint neutral_values (values : list jval) : list string :=
  match values with
  | [] => []
  | JStr s :: rest => extract_values s ++ neutral_values rest
  | _ :: rest => neutral_values rest
  end.

Definition neutral_entry (neutral : jval) : result (list string) :=
  values ← dict_values neutral;
  Ok (neutral_values values).

(** The body of the loop over [excluded_penalties]: the entry appended to
    [excluded_penalties], those appended to [potential_exclusions], and the
    tokens appended to [neutral_exclusions]. *)
Definition excluded_entry_data (penalty_ : jval)
    : result (rated * list rated * list string) :=
  penalty_label ← dict_get "penalty_label" (JStr "") penalty_;
  penalty_code ← dict_get "penalty_code" (JStr "") penalty_;
  penalty_rate ← dict_get "penalty_rate" (JStr "") penalty_;
  values ← extract_values_of penalty_rate;
  potentials ← dict_get "potential_exclusions" (JList []) penalty_;
  potentials ← iterate potentials;
  potentials ← map_result potential_entry potentials;
  neutrals ← dict_get "neutral_exclusions" (JList []) penalty_;
  neutrals ← iterate neutrals;
  neutrals ← map_result neutral_entry neutrals;
  Ok ({| rated_label := penalty_label; rated_code := penalty_code;
         rate_values := values |},
      potentials, concat neutrals).

Definition get_data (report_results : jval) : result tariff_data :=
  primary_info ← dict_get "primary_info" (JDict []) report_results;
  special_programs_ ← dict_get "special_programs" (JDict []) report_results;
  other_tariffs ← dict_get "other_tariffs" (JDict []) report_results;
  (* read here, and replaced by the empty list before it is used *)
  _ ← dict_get "neutral_exclusions" (JList []) other_tariffs;
  programs ← dict_get "applicable_programs" JNone special_programs_;
  basic_rate_ ←
    (if truthy programs then
       programs ← dict_item "applicable_programs" special_programs_;
       first ← first_item programs;
       dict_get "rate" (JStr "0%") first
     else dict_get "column_1_rate" (JStr "0%") primary_info);
  active ← dict_get "active_penalties" JNone other_tariffs;
  penalties_ ←
    (if truthy active then
       active ← dict_item "active_penalties" other_tariffs;
       active ← iterate active;
       entries ← map_result active_entry active;
       Ok (concat entries)
     else Ok []);
  excluded ← dict_get "excluded_penalties" JNone other_tariffs;
  entries ←
    (if truthy excluded then
       excluded ← dict_item "excluded_penalties" other_tariffs;
       excluded ← iterate excluded;
       map_result excluded_entry_data excluded
     else Ok []);
  Ok {| basic_rate := basic_rate_;
        penalties := penalties_;
        excluded_penalties := map (λ e, e.1.1) entries;
        potential_exclusions := concat (map (λ e, e.1.2) entries);
        neutral_exclusions := concat (map (λ e, e.2) entries) |}.

(** [acc += float(v.replace('%', ''))] for each [v], a [ValueError] being
    passed over. *)
Definition add_rate (acc : double) (v : string) : double :=
  match float (replace "%" "" v) with
  | Ok x => fadd acc x
  | Raise _ => acc
  end.

Definition add_rates (acc : double) (values : list string) : double :=
  foldl add_rate acc values.

(** The three accumulators of [calculate_total_tariff] before they are
    summed. *)
Record accumulators : Type := {
  total_rate : double;
  active_total_rate : double;
  excluded_total_rate : double
}.

Definition basic_rate_value (basic_rate_str : jval) : result double :=
  if match basic_rate_str with
     | JStr s => String.eqb (lower s) "free"
     | _ => false
     end
  then Ok fzero
  else
    values ← extract_values_of basic_rate_str;
    match values with
    | v :: _ => float (replace "%" "" v)
    | [] => Ok fzero
    end.

Definition accumulate (td : tariff_data) : result accumulators :=
  basic ← basic_rate_value (basic_rate td);
  let total_rate_ := fadd fzero basic in
  let active := foldl (λ acc p, add_rates acc (rate_values p)) fzero (penalties td) in
  let excluded :=
    foldl (λ acc p, add_rates acc (rate_values p)) fzero (excluded_penalties td) in
  let total_rate_ := add_rates total_rate_ (neutral_exclusions td) in
  Ok {| total_rate := total_rate_;
        active_total_rate := active;
        excluded_total_rate := excluded |}.

Definition duty_rate_of (a : accumulators) : double :=
  fadd (fadd (total_rate a) (active_total_rate a)) (excluded_total_rate a).

(** The dict returned by [calculate_total_tariff]. *)
Record total_rate_result : Type := {
  duty_rate : string;
  total_duties : double;
  total_cost : double
}.

(** [request_base_cost] is [request.base_cost], which the function reads from
    the enclosing route. *)
Definition calculate_total_tariff (td : tariff_data) (base_cost : double)
    (request_base_cost : double) : result total_rate_result :=
  a ← accumulate td;
  let duty_rate_ := duty_rate_of a in
  let total_cost_ := fmul base_cost (fdiv duty_rate_ (double_of_Z 100)) in
  Ok {| duty_rate := format_2f duty_rate_ +:+ "%";
        total_duties := total_cost_;
        total_cost := fadd total_cost_ request_base_cost |}.

(** The request body. *)
Record TariffRequest : Type := {
  hts_code : string;
  country : list string;
  entry_date : date;
  loading_date : option date;
  mode_of_transport : list string;
  base_cost : double
}.

Inductive http_detail : Type :=
| InvalidModeOfTransport
| NoDataFound (hts : string)
| AnalysisFailed (error : string)
| UnexpectedError (e : exn).

Inductive response : Type :=
| HTTPException (status_code : Z) (detail : http_detail)
| JSONResponse (data : jval) (total_tariff : tariff_data)
    (total_rate_ : total_rate_result).

Definition valid_modes : list string := ["ANY"; "OCEAN"; "AIR"; "TRUCK"; "RAIL"].

(** [JSONResponse(content=...)] serialises its content when it is built, with
    [allow_nan=False]: a float of the content that is infinite or not a
    number is a [ValueError].  The floats of the content are [total_duties]
    and [total_cost]. *)
Definition json_response (data : jval) (total_tariff : tariff_data)
    (total_rate_ : total_rate_result) : result response :=
  if is_finite (total_duties total_rate_) && is_finite (total_cost total_rate_)
  then Ok (JSONResponse data total_tariff total_rate_)
  else Raise ValueError.

(** [l[0]] *)
Definition first_of {A : Type} (l : list A) : result A :=
  match l with
  | x :: _ => Ok x
  | [] => Raise IndexError
  end.

Section WithCollaborators.

Variable fromisoformat : string → option date.

(** [TariffLoader().fetch]: the records of an HTS code, or [None]. *)
Variable fetch : string → option (list tariff_code).

(** The [try] block of the route: [Ok] is the response sent or the
    [HTTPException] raised, [Raise] any other exception. *)
Definition route_body (request : TariffRequest) : result response :=
  mode ← first_of (mode_of_transport request);
  if negb (bool_decide (upper mode ∈ valid_modes)) then
    Ok (HTTPException 400 InvalidModeOfTransport)
  else
    match fetch (hts_code request) with
    | None | Some [] => Ok (HTTPException 404 (NoDataFound (hts_code request)))
    | Some raw_data =>
        country_ ← first_of (country request);
        analysis_ ← (TariffProcessor.analyze_tariffs fromisoformat raw_data country_
                       (upper mode) (entry_date request) (loading_date request)).1;
        match analysis_ with
        | AnalysisError error => Ok (HTTPException 400 (AnalysisFailed error))
        | Analysis a =>
            let report_results := ReportBuilder.generate_report_data a country_ in
            total_tariff ← get_data report_results;
            total_rate_ ← calculate_total_tariff total_tariff (base_cost request)
                            (base_cost request);
            json_response report_results total_tariff total_rate_
        end
    end.

Definition calculate_tariff_route (request : TariffRequest) : response :=
  match route_body request with
  | Ok r => r
  | Raise e => HTTPException 500 (UnexpectedError e)
  end.

End WithCollaborators.

End Route.

(** ** Vocabulary of the properties *)

(** The record [c] with its [applicabilityConditions] replaced. *)
Definition with_conditions (c : tariff_code) (conds : option (list condition))
    : tariff_code :=
  {| type_ := type_ c; codeVariant := codeVariant c; label := label c;
     fullDescription := fullDescription c; rateDescription := rateDescription c;
     rateInfo := rateInfo c; effectiveFrom := effectiveFrom c;
     effectiveTo := effectiveTo c; countriesOfOrigin := countriesOfOrigin c;
     applicabilityConditions := conds;
     excludedByCodes := excludedByCodes c; priority := priority c;
     requiresUserChoice := requiresUserChoice c; specialRates := specialRates c |}.

(** The condition [c] with its [fieldShouldEqual] replaced ([None] removes
    the key). *)
Definition with_fieldShouldEqual (v : option string) (c : condition) : condition :=
  {| fieldKey := fieldKey c; __typename := __typename c; fieldShouldEqual := v;
     threshold := threshold c; lowerBound := lowerBound c;
     upperBound := upperBound c |}.

(** [c'] is [c], or [c] is a [MODE_OF_TRANSPORT] condition and [c'] is [c]
    with another [fieldShouldEqual]. *)
Definition same_but_transport_value (c c' : condition) : Prop :=
  c' = c ∨
  (fieldKey c = Some "MODE_OF_TRANSPORT" ∧ ∃ v, c' = with_fieldShouldEqual v c).

(** A date field that is absent, or that [fromisoformat] rejects. *)
Definition missing_or_unparsable (fromisoformat : string → option date)
    (field : option string) : Prop :=
  match field with
  | None => True
  | Some s => fromisoformat (replace "Z" "+00:00" s) = None
  end.

(** Membership of a record in the three buckets of [_process_other_tariffs]:
    the active penalties, the entries of [excluded_penalties] (the penalty of
    an entry and the exclusions grouped under it), the neutral exclusions. *)
Definition in_active (out : processed) (r : tariff_code) : Prop :=
  r ∈ applicable_penalties out.

Definition in_excluded (out : processed) (r : tariff_code) : Prop :=
  ∃ k entry, (k, entry) ∈ excluded_penalties out ∧
             (r = penalty entry ∨ r ∈ exclusions entry).

Definition in_neutral (out : processed) (r : tariff_code) : Prop :=
  r ∈ neutral_exclusions out.

(** [k] is the code of an exclusion record of [tariffs]. *)
Definition exclusion_code (tariffs : list tariff_code) (k : string) : Prop :=
  ∃ e, e ∈ tariffs ∧ TariffProcessor.is_exclusion e = Ok true
       ∧ TariffProcessor.code_of e = Ok k.

(** [p] lists in [excludedByCodes] the code [k]. *)
Definition excluded_by (p : tariff_code) (k : string) : Prop :=
  ∃ eb, eb ∈ default [] (excludedByCodes p) ∧ code eb = Some k.

(** The loop of [_process_other_tariffs] sets [is_excluded] for [p]: one of
    the codes [p] is excluded by is the code of an exclusion record. *)
Definition marked_excluded (tariffs : list tariff_code) (p : tariff_code) : Prop :=
  ∃ k, excluded_by p k ∧ exclusion_code tariffs k.

(** The exceptions of the date parser are the two the handlers name. *)
Definition handled (e : exn) : Prop := (∃ key, e = KeyError key) ∨ e = ValueError.

(** Among [excluded_bys], an entry has the code [k], and [k] is in the set
    [codes] of exclusion codes: the test of the inner loop of
    [_process_other_tariffs] succeeds for [k]. *)
Definition hits_in (codes : gset string) (excluded_bys : list code_ref) (k : string)
    : Prop :=
  k ∈ codes ∧ ∃ eb, eb ∈ excluded_bys ∧ code eb = Some k.

Definition hits (codes : gset string) (p : tariff_code) (k : string) : Prop :=
  hits_in codes (default [] (excludedByCodes p)) k.

(** The loop sets [is_excluded] for [p]. *)
Definition matched (codes : gset string) (p : tariff_code) : Prop :=
  ∃ k, hits codes p k.

(** [entry] is what the loop stores under [key] for a penalty of [pens]: the
    penalty has the code [key] and is excluded, and the exclusions grouped
    with it are the records of [excl] whose code it hits. *)
Definition entry_ok (codes : gset string) (excl pens : list tariff_code)
    (key : string) (entry : excluded_entry) : Prop :=
  penalty entry ∈ pens
  ∧ TariffProcessor.code_of (penalty entry) = Ok key
  ∧ matched codes (penalty entry)
  ∧ ∀ e, e ∈ exclusions entry ↔
         ∃ k, hits codes (penalty entry) k ∧ e ∈ excl
              ∧ TariffProcessor.code_of e = Ok k.

(** The two shapes of a token while [findall_from] reads it: digits only,
    and digits, a dot, digits.  [seen] tells that a digit came before. *)
Fixpoint all_digits (s : string) : bool :=
  match s with
  | EmptyString => true
  | String c rest => is_digit c && all_digits rest
  end.

Fixpoint dot_shape (seen : bool) (s : string) : bool :=
  match s with
  | EmptyString => false
  | String c rest =>
      if is_digit c then dot_shape true rest
      else Ascii.eqb c "." && seen && all_digits rest
  end.

Definition state_ok (st : scan_state) : Prop :=
  match st with
  | Idle => True
  | InInt tok => all_digits tok = true ∧ tok ≠ EmptyString
  | InFrac tok => dot_shape false tok = true
  end.

(** The sign of [x] is [s], and [x] is a number. *)
Definition sign_is (s : bool) (x : double) : Prop :=
  match x with
  | S754_zero s' | S754_infinity s' | S754_finite s' _ _ => s' = s
  | S754_nan => False
  end.

(** [x] is +0, a positive number or +inf. *)
Definition not_negative (x : double) : bool :=
  match x with
  | S754_zero s | S754_infinity s | S754_finite s _ _ => negb s
  | S754_nan => false
  end.

(** The number a token stands for, its percent sign stripped; [None] for a
    string that is no number. *)
Definition number_of (tok : string) : option double :=
  match float (replace "%" "" tok) with
  | Ok x => Some x
  | Raise _ => None
  end.

(** Additive combination: the numbers of [tokens] added one after the other
    to [start], a string that is no number being skipped. *)
Definition sum_from (start : double) (tokens : list string) : double :=
  foldl fadd start (omap number_of tokens).

(** The number of a basic rate description: 0 for "free" in any letter case
    and for a description without a token, else the number of its first
    token. *)
Definition basic_number (s : string) : double :=
  if String.eqb (lower s) "free" then fzero
  else match extract_values s with
       | tok :: _ => default fzero (number_of tok)
       | [] => fzero
       end.

(** The basic-rate accumulator: 0.0, then the basic rate, then the tokens
    of the neutral exclusions. *)
Definition basic_accumulator (s : string) (neutral : list string) : double :=
  sum_from (fadd fzero (basic_number s)) neutral.

(** The total of a list of rated entries: all their tokens in order, added
    to 0.0. *)
Definition rate_total (entries : list Route.rated) : double :=
  sum_from fzero (concat (map Route.rate_values entries)).


(** The three figures [calculate_total_tariff] reports for the duty rate
    [duty]. *)
Definition figures (duty base_cost request_base_cost : double)
    : Route.total_rate_result :=
  {| Route.duty_rate := format_2f duty +:+ "%";
     Route.total_duties := fmul base_cost (fdiv duty (double_of_Z 100));
     Route.total_cost :=
       fadd (fmul base_cost (fdiv duty (double_of_Z 100))) request_base_cost |}.

(** What [get_data] keeps of a report entry with the given label, code and
    rate description. *)
Definition rated_of (label_ : option string) (code_ : string) (rate : option string)
    : Route.rated :=
  {| Route.rated_label := JStr (default "N/A" label_);
     Route.rated_code := JStr code_;
     Route.rate_values := extract_values (default "N/A" rate) |}.

(** The dict [get_data] returns on the report of [a]. *)
Definition tariff_data_of (a : analysis_ok) : Route.tariff_data :=
  {| Route.basic_rate :=
       JStr match special_programs a with
            | prog :: _ => default "N/A" (SpecialRate.rateDescription prog)
            | [] =>
                if ReportBuilder.record_truthy (primary a)
                then default "N/A" (rateDescription (primary a))
                else "0%"
            end;
     Route.penalties :=
       map (λ c, rated_of (label c) (ReportBuilder.code_or_na c) (rateDescription c))
         (applicable_penalties (processed_tariffs a));
     Route.excluded_penalties :=
       map (λ item : string * excluded_entry,
              rated_of (label (penalty item.2)) item.1
                (rateDescription (penalty item.2)))
         (excluded_penalties (processed_tariffs a));
     Route.potential_exclusions :=
       concat (map (λ item : string * excluded_entry,
                      map (λ c, rated_of (label c) (ReportBuilder.code_or_na c)
                                  (rateDescription c))
                        (exclusions item.2))
                 (excluded_penalties (processed_tariffs a)));
     Route.neutral_exclusions := [] |}.

(** ** Sample records

    Concrete records for the examples below.  [sample_record] builds a
    record in force from 2020-01-01 to 2030-12-31, for every country and
    without conditions. *)

Definition sample_record (kind code_ label_ rate : string) (penalty_rate : option Q)
    (excluded_by_ : list string) : tariff_code :=
  {| type_ := Some kind;
     codeVariant := Some {| code := Some code_ |};
     label := Some label_;
     fullDescription := None;
     rateDescription := Some rate;
     rateInfo := Some {| penaltyRate := penalty_rate |};
     effectiveFrom := Some "2020-01-01T00:00:00Z";
     effectiveTo := Some "2030-12-31T00:00:00Z";
     countriesOfOrigin := None;
     applicabilityConditions := None;
     excludedByCodes := Some (map (λ k, {| code := Some k |}) excluded_by_);
     priority := None;
     requiresUserChoice := None;
     specialRates := None |}.

Definition sample_primary : tariff_code :=
  sample_record "COMMODITY_CODE" "0101300000" "Asses" "5%" None [].

Definition sample_neutral : tariff_code :=
  sample_record "EXCLUSION" "9903.88.69" "Carve-out" "10%" None [].

(** Two penalties of the same code, both excluded by the code of
    [sample_neutral]. *)
Definition sample_penalty_first : tariff_code :=
  sample_record "TARIFF" "9903.88.01" "Section 301, first list" "25%"
    (Some 25%Q) ["9903.88.69"].

Definition sample_penalty_second : tariff_code :=
  sample_record "TARIFF" "9903.88.01" "Section 301, revised" "7.5%"
    (Some (75 # 10)%Q) ["9903.88.69"].

(** A penalty of the code of [sample_penalty_first], excluded by another
    code, and the exclusion record of that code. *)
Definition sample_penalty_third : tariff_code :=
  sample_record "TARIFF" "9903.88.01" "Section 301, third list" "15%"
    (Some 15%Q) ["9903.88.70"].

Definition sample_exclusion_other : tariff_code :=
  sample_record "EXCLUSION" "9903.88.70" "Other carve-out" "Free" None [].

(** A second exclusion record with the code of [sample_neutral]. *)
Definition sample_exclusion_twin : tariff_code :=
  sample_record "EXCLUSION" "9903.88.69" "Carve-out, second period" "Free" None [].

(** A record restricted to ocean transport and to goods loaded before
    2025-03-01. *)
Definition sample_transport_condition : condition :=
  {| fieldKey := Some "MODE_OF_TRANSPORT"; __typename := None;
     fieldShouldEqual := Some "OCEAN"; threshold := None;
     lowerBound := None; upperBound := None |}.

Definition sample_loading_condition : condition :=
  {| fieldKey := Some "DATE_OF_LOADING"; __typename := Some "CustomsTariffLess";
     fieldShouldEqual := None; threshold := Some "2025-03-01T00:00:00Z";
     lowerBound := None; upperBound := None |}.

Definition sample_conditional : tariff_code :=
  with_conditions
    (sample_record "TARIFF" "9903.01.25" "Reciprocal tariff" "10%" (Some 10%Q) [])
    (Some [sample_transport_condition; sample_loading_condition]).

(** A record without [effectiveFrom]. *)
Definition sample_undated : tariff_code :=
  {| type_ := Some "TARIFF";
     codeVariant := Some {| code := Some "9903.99.99" |};
     label := Some "Undated";
     fullDescription := None;
     rateDescription := Some "15%";
     rateInfo := Some {| penaltyRate := Some 15%Q |};
     effectiveFrom := None;
     effectiveTo := Some "2030-12-31T00:00:00Z";
     countriesOfOrigin := None;
     applicabilityConditions := None;
     excludedByCodes := None;
     priority := None;
     requiresUserChoice := None;
     specialRates := None |}.

Definition sample_request : Route.TariffRequest :=
  {| Route.hts_code := "0101300000";
     Route.country := ["CN"];
     Route.entry_date := mkdate 2025 6 1;
     Route.loading_date := None;
     Route.mode_of_transport := ["ANY"];
     Route.base_cost := double_of_Z 1000 |}.

(** ** Vocabulary of the further properties *)

(** Every character of [s] is an ASCII character (below 128): on such
    strings [\d] is the class 0-9 and [upper] is that of ASCII. *)
Fixpoint ascii_only (s : string) : bool :=
  match s with
  | EmptyString => true
  | String c rest => (nat_of_ascii c <? 128)%nat && ascii_only rest
  end.

(** No character of [s] is a digit. *)
Fixpoint no_digit (s : string) : bool :=
  match s with
  | EmptyString => true
  | String c rest => negb (is_digit c) && no_digit rest
  end.

(** A character that can neither start nor continue a numeric token. *)
Definition is_separator (c : ascii) : bool :=
  negb (is_digit c) && negb (Ascii.eqb c ".") && negb (Ascii.eqb c "%").

(** The shape of a numeric token: digits, or digits, a dot and digits, with
    or without a final percent sign. *)
Definition token_shape (tok : string) : Prop :=
  ∃ t, (tok = t ∨ tok = snoc t "%")
       ∧ ((all_digits t = true ∧ t ≠ EmptyString) ∨ dot_shape false t = true).

(** A condition [_check_conditions] looks at: the others (CHOSEN_SPIS, an
    unknown or absent [fieldKey]) fall through every branch of its loop. *)
Definition relevant_condition (c : condition) : bool :=
  bool_decide (fieldKey c = Some "MODE_OF_TRANSPORT")
  || bool_decide (fieldKey c = Some "DATE_OF_LOADING").

(** The country step of [_is_code_applicable] on a list whose entries all
    have a code: an empty list admits every country, another one the
    countries it lists. *)
Definition country_admitted (country : string) (countries : list country_ref) : bool :=
  match countries with
  | [] => true
  | _ :: _ =>
      existsb (λ x, bool_decide (usCustomsCountryCode x = Some country)) countries
  end.

(** Sample conditions and records for the examples. *)
Definition sample_between_condition : condition :=
  {| fieldKey := Some "DATE_OF_LOADING"; __typename := Some "CustomsTariffBetween";
     fieldShouldEqual := None; threshold := None;
     lowerBound := Some "2025-01-01T00:00:00Z";
     upperBound := Some "2025-03-01T00:00:00Z" |}.

Definition sample_malformed_condition : condition :=
  {| fieldKey := Some "DATE_OF_LOADING"; __typename := Some "CustomsTariffGreater";
     fieldShouldEqual := None; threshold := Some "soon";
     lowerBound := None; upperBound := None |}.

Definition sample_spi_condition : condition :=
  {| fieldKey := Some "CHOSEN_SPIS"; __typename := None;
     fieldShouldEqual := Some "AU"; threshold := None;
     lowerBound := None; upperBound := None |}.

(** The record [c] restricted to the countries [codes]. *)
Definition with_countries (c : tariff_code) (codes : list (option string)) : tariff_code :=
  {| type_ := type_ c; codeVariant := codeVariant c; label := label c;
     fullDescription := fullDescription c; rateDescription := rateDescription c;
     rateInfo := rateInfo c; effectiveFrom := effectiveFrom c;
     effectiveTo := effectiveTo c;
     countriesOfOrigin := Some (map (λ k, {| usCustomsCountryCode := k |}) codes);
     applicabilityConditions := applicabilityConditions c;
     excludedByCodes := excludedByCodes c; priority := priority c;
     requiresUserChoice := requiresUserChoice c; specialRates := specialRates c |}.

(** [a] does not come after [b] in priority order. *)
Definition by_priority (a b : tariff_code) : Prop :=
  (TariffProcessor.priority_key a <= TariffProcessor.priority_key b)%Z.

Definition has_priority (k : Z) (c : tariff_code) : bool :=
  (TariffProcessor.priority_key c =? k)%Z.

(** The record [c] with the priority [p]. *)
Definition with_priority (c : tariff_code) (p : Z) : tariff_code :=
  {| type_ := type_ c; codeVariant := codeVariant c; label := label c;
     fullDescription := fullDescription c; rateDescription := rateDescription c;
     rateInfo := rateInfo c; effectiveFrom := effectiveFrom c;
     effectiveTo := effectiveTo c; countriesOfOrigin := countriesOfOrigin c;
     applicabilityConditions := applicabilityConditions c;
     excludedByCodes := excludedByCodes c; priority := Some p;
     requiresUserChoice := requiresUserChoice c; specialRates := specialRates c |}.

(** A special rate open to the countries [codes]. *)
Definition sample_program (name spi_ rate : string) (codes : list string)
    : SpecialRate.t :=
  {| SpecialRate.spi := Some spi_;
     SpecialRate.rateDescription := Some rate;
     SpecialRate.importProgram :=
       Some {| ImportProgram.programName := Some name;
               ImportProgram.countriesOfOrigin :=
                 Some (map (λ k, {| usCustomsCountryCode := Some k |}) codes) |} |}.

(** The record [c] with the special rates [rates]. *)
Definition with_special_rates (c : tariff_code) (rates : list SpecialRate.t)
    : tariff_code :=
  {| type_ := type_ c; codeVariant := codeVariant c; label := label c;
     fullDescription := fullDescription c; rateDescription := rateDescription c;
     rateInfo := rateInfo c; effectiveFrom := effectiveFrom c;
     effectiveTo := effectiveTo c; countriesOfOrigin := countriesOfOrigin c;
     applicabilityConditions := applicabilityConditions c;
     excludedByCodes := excludedByCodes c; priority := priority c;
     requiresUserChoice := requiresUserChoice c; specialRates := Some rates |}.

(** A special rate without [importProgram]. *)
Definition sample_program_without_import : SpecialRate.t :=
  {| SpecialRate.spi := Some "A"; SpecialRate.rateDescription := Some "Free";
     SpecialRate.importProgram := None |}.

(** A record without [rateInfo]. *)
Definition sample_without_rate_info : tariff_code :=
  {| type_ := Some "TARIFF";
     codeVariant := Some {| code := Some "9903.77.01" |};
     label := Some "No rate information";
     fullDescription := None;
     rateDescription := Some "12%";
     rateInfo := None;
     effectiveFrom := Some "2020-01-01T00:00:00Z";
     effectiveTo := Some "2030-12-31T00:00:00Z";
     countriesOfOrigin := None;
     applicabilityConditions := None;
     excludedByCodes := None;
     priority := None;
     requiresUserChoice := None;
     specialRates := None |}.

(** Sample snapshots and analyses for the examples. *)

(** A primary record with two special rates, the second open to Australia. *)
Definition sample_primary_with_programs : tariff_code :=
  with_special_rates sample_primary
    [sample_program "Generalized System of Preferences" "A" "Free" ["IN"; "BR"];
     sample_program "Australia FTA" "AU" "1.2%" ["AU"]].

(** The analysis of [sample_primary; sample_penalty_first; sample_neutral]:
    the penalty is excluded by the code of [sample_neutral]. *)
Definition sample_analysis : analysis_ok :=
  {| primary := sample_primary;
     special_programs := [];
     processed_tariffs :=
       {| applicable_penalties := [];
          excluded_penalties :=
            [("9903.88.01",
              {| penalty := sample_penalty_first; exclusions := [sample_neutral] |})];
          neutral_exclusions := [] |} |}.

(** The same with [sample_exclusion_twin] in the snapshot. *)
Definition sample_analysis_twin : analysis_ok :=
  {| primary := sample_primary;
     special_programs := [];
     processed_tariffs :=
       {| applicable_penalties := [];
          excluded_penalties :=
            [("9903.88.01",
              {| penalty := sample_penalty_first;
                 exclusions := [sample_neutral; sample_exclusion_twin] |})];
          neutral_exclusions := [] |} |}.

(** The analysis of [sample_primary_with_programs; sample_penalty_second]
    for Australia. *)
Definition sample_analysis_australia : analysis_ok :=
  {| primary := sample_primary_with_programs;
     special_programs := [sample_program "Australia FTA" "AU" "1.2%" ["AU"]];
     processed_tariffs :=
       {| applicable_penalties := [sample_penalty_second];
          excluded_penalties := [];
          neutral_exclusions := [] |} |}.

(** ** Typed records as JSON values *)

(** [o] is absent when the typed field is, and holds the string otherwise. *)
Definition string_field (o : option jval) (field : option string) : Prop :=
  o = JStr <$> field.

(** The JSON value [j] is an object, and its key [usCustomsCountryCode] is
    absent or holds the string the typed entry has; its other keys are
    free. *)
Definition country_reads (j : jval) (x : country_ref) : Prop :=
  ∃ d, j = JDict d
       ∧ string_field (PyDict.get "usCustomsCountryCode" d) (usCustomsCountryCode x).

Definition code_reads (j : jval) (x : code_ref) : Prop :=
  ∃ d, j = JDict d ∧ string_field (PyDict.get "code" d) (code x).

Definition condition_reads (j : jval) (c : condition) : Prop :=
  ∃ d, j = JDict d
       ∧ string_field (PyDict.get "fieldKey" d) (fieldKey c)
       ∧ string_field (PyDict.get "__typename" d) (__typename c)
       ∧ string_field (PyDict.get "fieldShouldEqual" d) (fieldShouldEqual c)
       ∧ string_field (PyDict.get "threshold" d) (threshold c)
       ∧ string_field (PyDict.get "lowerBound" d) (lowerBound c)
       ∧ string_field (PyDict.get "upperBound" d) (upperBound c).

(** [o] is absent when the typed field is; otherwise it holds a value
    related to the typed one by [reads]. *)
Definition field_reads {A : Type} (reads : jval → A → Prop) (o : option jval)
    (field : option A) : Prop :=
  match field with
  | None => o = None
  | Some a => ∃ j, o = Some j ∧ reads j a
  end.

(** [j] is a list whose elements read as those of [l]. *)
Definition list_reads {A : Type} (reads : jval → A → Prop) (j : jval) (l : list A)
    : Prop :=
  ∃ js, j = JList js ∧ Forall2 reads js l.

(** The JSON record [j] is an object, and the six keys the applicability
    check reads are absent from it or hold a value of the expected type,
    the one the typed record [c] has; its other keys, and the other keys of
    the objects inside it, are free. *)
Definition reads_as (j : jval) (c : tariff_code) : Prop :=
  ∃ d, j = JDict d
       ∧ string_field (PyDict.get "type" d) (type_ c)
       ∧ field_reads code_reads (PyDict.get "codeVariant" d) (codeVariant c)
       ∧ string_field (PyDict.get "effectiveFrom" d) (effectiveFrom c)
       ∧ string_field (PyDict.get "effectiveTo" d) (effectiveTo c)
       ∧ field_reads (list_reads country_reads) (PyDict.get "countriesOfOrigin" d)
           (countriesOfOrigin c)
       ∧ field_reads (list_reads condition_reads)
           (PyDict.get "applicabilityConditions" d) (applicabilityConditions c).

(** A diagnostic of the check on JSON values reads as a typed one. *)
Definition diag_reads (jd : RawJson.diag) (d : diag) : Prop :=
  match jd, d with
  | RawJson.WarnDateCondition j, WarnDateCondition c => condition_reads j c
  | RawJson.WarnApplicability j e, WarnApplicability code_ e' =>
      j = default JNone (JStr <$> code_) ∧ e = e'
  | _, _ => False
  end.

(** The two checks end alike: with the same boolean and diagnostics that
    read as one another, or with the same exception. *)
Definition outcome_reads (jr : result (bool * list RawJson.diag))
    (r : result (bool * list diag)) : Prop :=
  match jr, r with
  | Ok (ok, jout), Ok (ok', out) => ok = ok' ∧ Forall2 diag_reads jout out
  | Raise e, Raise e' => e = e'
  | _, _ => False
  end.

(** The JSON object with those of the keys that are present. *)
Definition object (fields : list (string * option jval)) : jval :=
  JDict (omap (λ kv, v ← kv.2; Some (kv.1, v)) fields).

Definition country_json (x : country_ref) : jval :=
  object [("usCustomsCountryCode", JStr <$> usCustomsCountryCode x)].

Definition code_json (x : code_ref) : jval :=
  object [("code", JStr <$> code x)].

Definition condition_json (c : condition) : jval :=
  object [("fieldKey", JStr <$> fieldKey c);
          ("__typename", JStr <$> __typename c);
          ("fieldShouldEqual", JStr <$> fieldShouldEqual c);
          ("threshold", JStr <$> threshold c);
          ("lowerBound", JStr <$> lowerBound c);
          ("upperBound", JStr <$> upperBound c)].

(** A JSON record that reads as [c], with the keys the applicability check
    and the report read. *)
Definition record_json (c : tariff_code) : jval :=
  object [("type", JStr <$> type_ c);
          ("codeVariant", code_json <$> codeVariant c);
          ("label", JStr <$> label c);
          ("rateDescription", JStr <$> rateDescription c);
          ("effectiveFrom", JStr <$> effectiveFrom c);
          ("effectiveTo", JStr <$> effectiveTo c);
          ("countriesOfOrigin",
           (λ l, JList (map country_json l)) <$> countriesOfOrigin c);
          ("applicabilityConditions",
           (λ l, JList (map condition_json l)) <$> applicabilityConditions c)].

(** [v] is not a string: a JSON null, a boolean, a list or an object. *)
Definition not_a_string (v : jval) : Prop := ∀ s, v ≠ JStr s.

(** A record in force from 2025-04-05 with no end date: [effectiveTo] is a
    JSON null. *)
Definition sample_open_ended : jval :=
  JDict [("type", JStr "TARIFF");
         ("codeVariant", JDict [("code", JStr "9903.01.25")]);
         ("label", JStr "Reciprocal tariff");
         ("rateDescription", JStr "10%");
         ("effectiveFrom", JStr "2025-04-05T00:00:00Z");
         ("effectiveTo", JNone)].

(** A loading-date condition whose threshold is a JSON null. *)
Definition sample_null_threshold : jval :=
  JDict [("fieldKey", JStr "DATE_OF_LOADING");
         ("__typename", JStr "CustomsTariffLess");
         ("threshold", JNone)].

(** A record as the API sends it, with keys the check does not read, and
    the typed record it reads as. *)
Definition sample_received : jval :=
  JDict [("id", JStr "tc_01");
         ("type", JStr "TARIFF");
         ("codeVariant", JDict [("code", JStr "9903.88.15"); ("format", JStr "HTS")]);
         ("label", JStr "Section 301, list 4A");
         ("rateDescription", JStr "7.5%");
         ("effectiveFrom", JStr "2020-02-14T00:00:00Z");
         ("effectiveTo", JStr "2030-12-31T00:00:00Z");
         ("countriesOfOrigin",
          JList [JDict [("name", JStr "China"); ("usCustomsCountryCode", JStr "CN")]]);
         ("applicabilityConditions",
          JList [JDict [("__typename", JStr "CustomsTariffEquals");
                        ("fieldKey", JStr "MODE_OF_TRANSPORT");
                        ("fieldShouldEqual", JStr "OCEAN");
                        ("note", JNone)]])].

Definition sample_received_typed : tariff_code :=
  {| type_ := Some "TARIFF";
     codeVariant := Some {| code := Some "9903.88.15" |};
     label := Some "Section 301, list 4A";
     fullDescription := None;
     rateDescription := Some "7.5%";
     rateInfo := None;
     effectiveFrom := Some "2020-02-14T00:00:00Z";
     effectiveTo := Some "2030-12-31T00:00:00Z";
     countriesOfOrigin := Some [{| usCustomsCountryCode := Some "CN" |}];
     applicabilityConditions :=
       Some [{| fieldKey := Some "MODE_OF_TRANSPORT";
                __typename := Some "CustomsTariffEquals";
                fieldShouldEqual := Some "OCEAN"; threshold := None;
                lowerBound := None; upperBound := None |}];
     excludedByCodes := None;
     priority := None;
     requiresUserChoice := None;
     specialRates := None |}.

(** * Properties *)

(** ** The error monad *)

Ltac unfold_bind := unfold mbind, result_bind, mret, result_ret in *.

Lemma bind_Ok_inv {A B : Type} (m : result A) (f : A → result B) (b : B) :
  (x ← m; f x) = Ok b → ∃ a, m = Ok a ∧ f a = Ok b.
Proof. destruct m as [a|e]; unfold_bind; [eauto | discriminate]. Qed.

Lemma getitem_raise {A : Type} key (field : option A) e :
  getitem key field = Raise e → e = KeyError key.
Proof. destruct field; simpl; congruence. Qed.

(** ** Numeric tokens

    Every token [extract_values] returns is a number for [float] once its
    percent sign is removed: the [except ValueError] branches of
    [calculate_total_tariff] are never taken. *)

Lemma is_digit_not_special (c : ascii) :
  is_digit c = true → Ascii.eqb c "%" = false ∧ Ascii.eqb c "." = false.
Proof.
  destruct c as [[] [] [] [] [] [] [] []]; try discriminate; by split.
Qed.

Lemma all_digits_snoc tok c :
  all_digits (snoc tok c) = all_digits tok && is_digit c.
Proof.
  induction tok as [|a rest IH]; simpl.
  - by rewrite andb_true_r.
  - unfold snoc in IH. rewrite IH. by rewrite andb_assoc.
Qed.

Lemma dot_shape_snoc_dot seen tok :
  all_digits tok = true → seen = true ∨ tok ≠ EmptyString →
  dot_shape seen (snoc tok ".") = true.
Proof.
  revert seen. induction tok as [|a rest IH]; intros seen Hd Hs; simpl in *.
  - destruct Hs as [-> | ?]; done.
  - apply andb_true_iff in Hd as [-> Hd]. unfold snoc in IH. apply IH; auto.
Qed.

Lemma dot_shape_snoc_digit seen tok c :
  dot_shape seen tok = true → is_digit c = true →
  dot_shape seen (snoc tok c) = true.
Proof.
  revert seen. induction tok as [|a rest IH]; intros seen Hs Hc; simpl in *.
  - discriminate.
  - destruct (is_digit a).
    + unfold snoc in IH. by apply IH.
    + apply andb_true_iff in Hs as [-> Hd]. simpl.
      pose proof (all_digits_snoc rest c) as Hsnoc. unfold snoc in Hsnoc.
      by rewrite Hsnoc, Hd, Hc.
Qed.

Lemma float_frac_digits acc scale s :
  all_digits s = true → ∃ q, float_frac acc scale s = Some q.
Proof.
  revert acc scale. induction s as [|a rest IH]; intros acc scale Hd; simpl in *.
  - eauto.
  - apply andb_true_iff in Hd as [-> Hd]. by apply IH.
Qed.

Lemma float_int_digits seen acc s :
  all_digits s = true → seen = true ∨ s ≠ EmptyString →
  ∃ q, float_int seen acc s = Some q.
Proof.
  revert seen acc. induction s as [|a rest IH]; intros seen acc Hd Hs; simpl in *.
  - destruct Hs as [-> | ?]; [eauto | done].
  - apply andb_true_iff in Hd as [-> Hd]. apply IH; auto.
Qed.

Lemma float_int_dot_shape seen acc s :
  dot_shape seen s = true → ∃ q, float_int seen acc s = Some q.
Proof.
  revert seen acc. induction s as [|a rest IH]; intros seen acc Hs; simpl in *.
  - discriminate.
  - destruct (is_digit a); [by apply IH|].
    apply andb_true_iff in Hs as [[-> ->]%andb_true_iff Hd]. simpl.
    by apply float_frac_digits.
Qed.

Lemma replace_percent_digits s :
  all_digits s = true → replace "%" "" s = s.
Proof.
  induction s as [|a rest IH]; simpl; [done|].
  intros [Ha Hd]%andb_true_iff.
  destruct (is_digit_not_special a Ha) as [-> _]. by rewrite IH.
Qed.

Lemma replace_percent_dot_shape seen s :
  dot_shape seen s = true → replace "%" "" s = s.
Proof.
  revert seen. induction s as [|a rest IH]; intros seen; simpl; [done|].
  destruct (is_digit a) eqn:Ha.
  - destruct (is_digit_not_special a Ha) as [-> _]. intros Hs. by erewrite IH.
  - intros [[Hdot _]%andb_true_iff Hd]%andb_true_iff.
    apply Ascii.eqb_eq in Hdot as ->. simpl. by rewrite replace_percent_digits.
Qed.

Lemma replace_percent_snoc s :
  replace "%" "" (snoc s "%") = replace "%" "" s.
Proof.
  induction s as [|a rest IH]; simpl; [done|].
  unfold snoc in IH. rewrite IH. reflexivity.
Qed.

Lemma token_is_number (st : scan_state) (tok : string) :
  state_ok st →
  match st with Idle => False | InInt t | InFrac t => tok = t ∨ tok = snoc t "%" end →
  ∃ q, float (replace "%" "" tok) = Ok q.
Proof.
  unfold float. destruct st as [|t|t]; simpl; [done | |].
  - intros [Hd Hne] [-> | ->]; rewrite ?replace_percent_snoc,
      replace_percent_digits by done;
      (destruct (float_int_digits false 0 t Hd (or_intror Hne)) as [q ->]; eauto).
  - intros Hs [-> | ->]; rewrite ?replace_percent_snoc,
      (replace_percent_dot_shape false) by done;
      (destruct (float_int_dot_shape false 0 t Hs) as [q ->]; eauto).
Qed.

Lemma findall_from_numbers (s : string) (st : scan_state) :
  state_ok st →
  ∀ tok, tok ∈ findall_from st s → ∃ q, float (replace "%" "" tok) = Ok q.
Proof.
  revert st. induction s as [|c rest IH]; intros st Hst tok Hin; simpl in Hin.
  - destruct st as [|t|t]; [by apply elem_of_nil in Hin | |];
      apply list_elem_of_singleton in Hin as ->;
      (eapply token_is_number; [exact Hst | by left]).
  - destruct st as [|t|t].
    + destruct (is_digit c) eqn:Hc; (eapply IH; [|exact Hin]); simpl; [|done].
      by rewrite Hc.
    + destruct Hst as [Hd Hne]. destruct (is_digit c) eqn:Hc.
      { eapply IH; [|exact Hin]. simpl. rewrite all_digits_snoc, Hd, Hc.
        split; [done|]. by destruct t. }
      destruct (Ascii.eqb c ".") eqn:Hdot.
      { apply Ascii.eqb_eq in Hdot as ->. eapply IH; [|exact Hin]. simpl.
        apply dot_shape_snoc_dot; auto. }
      destruct (Ascii.eqb c "%") eqn:Hpc.
      { apply Ascii.eqb_eq in Hpc as ->.
        apply elem_of_cons in Hin as [-> | Hin]; [|by eapply IH; [|exact Hin]].
        apply (token_is_number (InInt t)); [by split | by right]. }
      apply elem_of_cons in Hin as [-> | Hin]; [|by eapply IH; [|exact Hin]].
      apply (token_is_number (InInt t)); [by split | by left].
    + simpl in Hst. destruct (is_digit c) eqn:Hc.
      { eapply IH; [|exact Hin]. simpl. by apply dot_shape_snoc_digit. }
      destruct (Ascii.eqb c "%") eqn:Hpc.
      { apply Ascii.eqb_eq in Hpc as ->.
        apply elem_of_cons in Hin as [-> | Hin]; [|by eapply IH; [|exact Hin]].
        apply (token_is_number (InFrac t)); [done | by right]. }
      apply elem_of_cons in Hin as [-> | Hin]; [|by eapply IH; [|exact Hin]].
      apply (token_is_number (InFrac t)); [done | by left].
Qed.

Lemma extract_values_numbers (s tok : string) :
  tok ∈ extract_values s → ∃ q, float (replace "%" "" tok) = Ok q.
Proof. apply findall_from_numbers. exact I. Qed.

(** ** Dates *)

Lemma date_compare_antisym a b : date_compare b a = CompOpp (date_compare a b).
Proof.
  unfold date_compare.
  rewrite (Z.compare_antisym (year a) (year b)),
          (Z.compare_antisym (month a) (month b)),
          (Z.compare_antisym (day a) (day b)).
  destruct (year a ?= year b)%Z, (month a ?= month b)%Z, (day a ?= day b)%Z;
    reflexivity.
Qed.

Lemma date_leb_ltb a b : date_leb a b = negb (date_ltb b a).
Proof.
  unfold date_leb, date_ltb. rewrite (date_compare_antisym a b).
  destruct (date_compare a b); reflexivity.
Qed.

Lemma date_compare_refl a : date_compare a a = Eq.
Proof. unfold date_compare. rewrite !Z.compare_refl. reflexivity. Qed.

Lemma date_leb_refl a : date_leb a a = true.
Proof. unfold date_leb. rewrite date_compare_refl. reflexivity. Qed.

(** ** Applicability *)

Section Applicability.

Variable fromisoformat : string → option date.

Abbreviation parse_date := (TariffProcessor.parse_date fromisoformat).
Abbreviation check_each := (TariffProcessor.check_each fromisoformat).
Abbreviation _check_conditions := (TariffProcessor._check_conditions fromisoformat).
Abbreviation country_and_conditions :=
  (TariffProcessor.country_and_conditions fromisoformat).
Abbreviation applicable_body := (TariffProcessor.applicable_body fromisoformat).
Abbreviation _is_code_applicable := (TariffProcessor._is_code_applicable fromisoformat).
Abbreviation applicable_others := (TariffProcessor.applicable_others fromisoformat).
Abbreviation analyze_tariffs := (TariffProcessor.analyze_tariffs fromisoformat).

Lemma parse_date_raise key field e : parse_date key field = Raise e → handled e.
Proof.
  unfold TariffProcessor.parse_date, handled. destruct field as [s|]; simpl.
  - unfold_bind. destruct (fromisoformat _); [discriminate|].
    intros [= <-]. by right.
  - intros [= <-]. left. eauto.
Qed.

Lemma parse_date_unusable key field :
  missing_or_unparsable fromisoformat field →
  ∃ e, parse_date key field = Raise e ∧ handled e.
Proof.
  unfold missing_or_unparsable, TariffProcessor.parse_date, handled.
  destruct field as [s|]; simpl; unfold_bind.
  - intros ->. eauto.
  - intros _. eauto.
Qed.

Lemma catch_handled c e :
  handled e →
  TariffProcessor.catch_applicability c (Raise e)
  = Ok (false, [WarnApplicability (cv ← codeVariant c; code cv) e]).
Proof. intros [[key ->] | ->]; reflexivity. Qed.

Lemma loading_date_holds_raise c ld e :
  TariffProcessor.loading_date_holds fromisoformat c ld = Raise e → handled e.
Proof.
  unfold TariffProcessor.loading_date_holds.
  repeat case_bool_decide; try discriminate.
  - destruct (parse_date "threshold" (threshold c)) eqn:E; unfold_bind; [discriminate|].
    intros [= <-]. eauto using parse_date_raise.
  - destruct (parse_date "threshold" (threshold c)) eqn:E; unfold_bind; [discriminate|].
    intros [= <-]. eauto using parse_date_raise.
  - destruct (parse_date "lowerBound" (lowerBound c)) eqn:E; unfold_bind.
    + destruct (parse_date "upperBound" (upperBound c)) eqn:E'; [discriminate|].
      intros [= <-]. eauto using parse_date_raise.
    + intros [= <-]. eauto using parse_date_raise.
Qed.

(** [_check_conditions] returns: its handler takes every exception of its
    [try] block. *)
Lemma check_each_total conds transport loading_date :
  ∃ r, check_each conds transport loading_date = Ok r.
Proof.
  induction conds as [|c rest IH]; simpl; [eauto|].
  destruct (_ && _).
  { case_bool_decide; eauto. }
  case_bool_decide; [|done].
  destruct loading_date as [ld|]; [|eauto].
  destruct (TariffProcessor.loading_date_holds fromisoformat c ld) as [[]|e] eqn:E;
    [done | eauto |].
  apply loading_date_holds_raise in E as [[key ->] | ->]; eauto.
Qed.

Lemma country_match_raise country (countries : list country_ref) e :
  any_result
    (λ x, cc ← getitem "usCustomsCountryCode" (usCustomsCountryCode x);
          Ok (String.eqb cc country)) countries = Raise e →
  handled e.
Proof.
  induction countries as [|x rest IH]; simpl; [discriminate|].
  destruct (usCustomsCountryCode x) as [cc|]; simpl; unfold_bind; simpl.
  - destruct (String.eqb cc country); [discriminate | exact IH].
  - intros [= <-]. left; eauto.
Qed.

Lemma country_and_conditions_raise c country transport loading_date e :
  country_and_conditions c country transport loading_date = Raise e → handled e.
Proof.
  unfold TariffProcessor.country_and_conditions, TariffProcessor._check_conditions.
  set (countries := default [] (countriesOfOrigin c)).
  destruct countries as [|x rest] eqn:Ec; unfold_bind.
  - simpl. destruct (check_each_total (default [] (applicabilityConditions c))
                transport loading_date) as [r ->]. discriminate.
  - destruct (any_result _ (x :: rest)) as [[]|e'] eqn:E; simpl.
    + destruct (check_each_total (default [] (applicabilityConditions c))
                  transport loading_date) as [r ->]. discriminate.
    + discriminate.
    + intros [= <-]. exact (country_match_raise _ _ _ E).
Qed.

Lemma applicable_body_raise c country transport entry_date loading_date e :
  applicable_body c country transport entry_date loading_date = Raise e → handled e.
Proof.
  unfold TariffProcessor.applicable_body.
  destruct (parse_date "effectiveFrom" (effectiveFrom c)) as [f|e1] eqn:E1; unfold_bind;
    [|intros [= <-]; eauto using parse_date_raise].
  destruct (parse_date "effectiveTo" (effectiveTo c)) as [t|e2] eqn:E2;
    [|intros [= <-]; eauto using parse_date_raise].
  destruct (negb _); [discriminate|]. apply country_and_conditions_raise.
Qed.

(** [_is_code_applicable] returns: no exception leaves it. *)
Lemma _is_code_applicable_total c country transport entry_date loading_date :
  ∃ r, _is_code_applicable c country transport entry_date loading_date = Ok r.
Proof.
  unfold TariffProcessor._is_code_applicable.
  destruct (applicable_body c country transport entry_date loading_date)
    as [r|e] eqn:E; [simpl; eauto|].
  apply applicable_body_raise in E. rewrite catch_handled by done. eauto.
Qed.

Lemma check_each_no_loading_date conds cond transport :
  cond ∈ conds → fieldKey cond = Some "DATE_OF_LOADING" →
  ∃ out, check_each conds transport None = Ok (false, out).
Proof.
  intros Hin Hkey. induction conds as [|c rest IH]; [by apply elem_of_nil in Hin|].
  simpl. apply elem_of_cons in Hin as [<-|Hin].
  - rewrite Hkey. simpl. eauto.
  - destruct (_ && _).
    + case_bool_decide; eauto.
    + case_bool_decide; eauto.
Qed.

(** C9: a record carrying a DATE_OF_LOADING condition is inapplicable when
    the shipment has no loading date, whatever the kind of the condition
    ([__typename] is not constrained). *)
Theorem loading_date_required (c : tariff_code) (cond : condition)
    (country transport : string) (entry_date : date) :
  cond ∈ default [] (applicabilityConditions c) →
  fieldKey cond = Some "DATE_OF_LOADING" →
  ∃ out, _is_code_applicable c country transport entry_date None = Ok (false, out).
Proof.
  intros Hin Hkey. unfold TariffProcessor._is_code_applicable.
  destruct (applicable_body c country transport entry_date None) as [[b out]|e] eqn:E.
  - simpl. exists out. f_equal. f_equal.
    revert E. unfold TariffProcessor.applicable_body.
    destruct (parse_date "effectiveFrom" (effectiveFrom c)); unfold_bind; [|discriminate].
    destruct (parse_date "effectiveTo" (effectiveTo c)); [|discriminate].
    destruct (negb _); [congruence|].
    unfold TariffProcessor.country_and_conditions, TariffProcessor._check_conditions.
    destruct (check_each_no_loading_date _ _ transport Hin Hkey) as [out' ->].
    destruct (default [] (countriesOfOrigin c)) as [|x rest].
    + simpl. congruence.
    + destruct (any_result _ (x :: rest)) as [[]|e']; simpl; congruence.
  - apply applicable_body_raise in E. rewrite catch_handled by done. eauto.
Qed.

(** C5: the check returns [False] when the entry date is strictly before
    [effectiveFrom] or strictly after [effectiveTo]; both ends of the window
    are inclusive: with [effectiveFrom <= entry_date <= effectiveTo], and so
    with the entry date equal to either bound, the date step passes and the
    outcome is that of the country and condition steps. *)
Theorem effective_window_inclusive (c : tariff_code) (country transport : string)
    (entry_date : date) (loading_date : option date) :
  (∀ f, parse_date "effectiveFrom" (effectiveFrom c) = Ok f →
        date_ltb entry_date f = true →
        ∃ out, _is_code_applicable c country transport entry_date loading_date
               = Ok (false, out))
  ∧ (∀ t, parse_date "effectiveTo" (effectiveTo c) = Ok t →
          date_ltb t entry_date = true →
          ∃ out, _is_code_applicable c country transport entry_date loading_date
                 = Ok (false, out))
  ∧ (∀ f t, parse_date "effectiveFrom" (effectiveFrom c) = Ok f →
            parse_date "effectiveTo" (effectiveTo c) = Ok t →
            date_leb f entry_date = true → date_leb entry_date t = true →
            _is_code_applicable c country transport entry_date loading_date
            = TariffProcessor.catch_applicability c
                (country_and_conditions c country transport loading_date))
  ∧ (∀ f t, parse_date "effectiveFrom" (effectiveFrom c) = Ok f →
            parse_date "effectiveTo" (effectiveTo c) = Ok t →
            date_leb f t = true → entry_date = f ∨ entry_date = t →
            _is_code_applicable c country transport entry_date loading_date
            = TariffProcessor.catch_applicability c
                (country_and_conditions c country transport loading_date)).
Proof.
  assert (Hin : ∀ f t, parse_date "effectiveFrom" (effectiveFrom c) = Ok f →
            parse_date "effectiveTo" (effectiveTo c) = Ok t →
            date_leb f entry_date = true → date_leb entry_date t = true →
            _is_code_applicable c country transport entry_date loading_date
            = TariffProcessor.catch_applicability c
                (country_and_conditions c country transport loading_date)).
  { intros f t Hf Ht Hlo Hhi.
    unfold TariffProcessor._is_code_applicable, TariffProcessor.applicable_body.
    rewrite Hf, Ht. unfold_bind. rewrite Hlo, Hhi. reflexivity. }
  repeat split.
  - intros f Hf Hlt.
    unfold TariffProcessor._is_code_applicable, TariffProcessor.applicable_body.
    rewrite Hf. unfold_bind.
    destruct (parse_date "effectiveTo" (effectiveTo c)) as [t|e] eqn:Ht.
    + rewrite date_leb_ltb, Hlt. simpl. eauto.
    + apply parse_date_raise in Ht. rewrite catch_handled by done. eauto.
  - intros t Ht Hlt.
    unfold TariffProcessor._is_code_applicable, TariffProcessor.applicable_body.
    destruct (parse_date "effectiveFrom" (effectiveFrom c)) as [f|e] eqn:Hf; unfold_bind.
    + rewrite Ht. rewrite (date_leb_ltb entry_date t), Hlt.
      rewrite andb_false_r. simpl. eauto.
    + apply parse_date_raise in Hf. rewrite catch_handled by done. eauto.
  - exact Hin.
  - intros f t Hf Ht Hft [-> | ->].
    + apply (Hin f t); auto using date_leb_refl.
    + apply (Hin f t); auto using date_leb_refl.
Qed.

Lemma check_each_ANY conds conds' loading_date :
  Forall2 same_but_transport_value conds conds' →
  check_each conds' "ANY" loading_date = check_each conds "ANY" loading_date.
Proof.
  induction 1 as [|c c' rest rest' Hc _ IH]; [reflexivity|].
  destruct Hc as [-> | [Hkey [v ->]]].
  - simpl. rewrite IH. reflexivity.
  - simpl. rewrite Hkey, IH. reflexivity.
Qed.

(** C8: with transport [ANY], replacing the [fieldShouldEqual] of any of the
    record's [MODE_OF_TRANSPORT] conditions, by any value or by none, changes
    neither the result of the applicability check nor what it prints. *)
Theorem transport_value_ignored_for_ANY (c : tariff_code) (conds' : list condition)
    (country : string) (entry_date : date) (loading_date : option date) :
  Forall2 same_but_transport_value (default [] (applicabilityConditions c)) conds' →
  _is_code_applicable (with_conditions c (Some conds')) country "ANY"
    entry_date loading_date
  = _is_code_applicable c country "ANY" entry_date loading_date.
Proof.
  intros H.
  unfold TariffProcessor._is_code_applicable, TariffProcessor.applicable_body,
    TariffProcessor.country_and_conditions, TariffProcessor._check_conditions.
  simpl. rewrite (check_each_ANY _ _ loading_date H). reflexivity.
Qed.

Lemma bad_dates_not_applicable c country transport entry_date loading_date :
  missing_or_unparsable fromisoformat (effectiveFrom c)
  ∨ missing_or_unparsable fromisoformat (effectiveTo c) →
  ∃ e, _is_code_applicable c country transport entry_date loading_date
       = Ok (false, [WarnApplicability (cv ← codeVariant c; code cv) e]).
Proof.
  intros H.
  unfold TariffProcessor._is_code_applicable, TariffProcessor.applicable_body.
  destruct (parse_date "effectiveFrom" (effectiveFrom c)) as [f|e] eqn:Hf; unfold_bind.
  - destruct H as [H|H].
    + apply (parse_date_unusable "effectiveFrom") in H as (e & He & _). congruence.
    + apply (parse_date_unusable "effectiveTo") in H as (e & -> & He).
      rewrite catch_handled by done. eauto.
  - apply parse_date_raise in Hf. rewrite catch_handled by done. eauto.
Qed.

Lemma applicable_others_total raw_data country transport entry_date loading_date :
  ∃ kept out,
    applicable_others raw_data country transport entry_date loading_date
    = (Ok kept, out).
Proof.
  induction raw_data as [|c rest (kept & out & IH)]; simpl; [eauto|].
  destruct (TariffProcessor.is_commodity_code c); [eauto|].
  destruct (_is_code_applicable_total c country transport entry_date loading_date)
    as [[ok o] ->].
  rewrite IH. simpl. eauto.
Qed.

Lemma applicable_others_app l1 l2 country transport entry_date loading_date k1 o1 k2 o2 :
  applicable_others l1 country transport entry_date loading_date = (Ok k1, o1) →
  applicable_others l2 country transport entry_date loading_date = (Ok k2, o2) →
  applicable_others (l1 ++ l2) country transport entry_date loading_date
  = (Ok (k1 ++ k2), o1 ++ o2).
Proof.
  revert k1 o1. induction l1 as [|c rest IH]; intros k1 o1 H1 H2; simpl in *.
  - injection H1 as <- <-. exact H2.
  - destruct (TariffProcessor.is_commodity_code c); [eauto|].
    destruct (_is_code_applicable c country transport entry_date loading_date)
      as [[ok o]|e]; [|discriminate].
    destruct (applicable_others_total rest country transport entry_date loading_date)
      as (k & o' & Hrest).
    rewrite Hrest in H1. simpl in H1. injection H1 as <- <-.
    rewrite (IH _ _ Hrest H2). simpl. destruct ok; simpl; by rewrite <- ?app_assoc.
Qed.

Lemma find_commodity_skip (c : tariff_code) l1 l2 :
  type_ c ≠ Some "COMMODITY_CODE" →
  List.find TariffProcessor.is_commodity_code (l1 ++ c :: l2)
  = List.find TariffProcessor.is_commodity_code (l1 ++ l2).
Proof.
  intros Hc. induction l1 as [|x rest IH]; simpl.
  - unfold TariffProcessor.is_commodity_code at 1.
    by rewrite bool_decide_eq_false_2.
  - destruct (TariffProcessor.is_commodity_code x); [reflexivity | exact IH].
Qed.

(** X31: a record whose [effectiveFrom] or [effectiveTo] key is absent, or
    holds a string that the date parser rejects, makes the check return
    [False] together with one warning.  The other records of the snapshot
    are evaluated as if the record were not there: the list of applicable
    records, and the whole analysis when the record is not the commodity
    code, are those of the snapshot without it, and the warning is among the
    diagnostics printed. *)
Theorem bad_dates_fail_closed (c : tariff_code) (country transport : string)
    (entry_date : date) (loading_date : option date) :
  missing_or_unparsable fromisoformat (effectiveFrom c)
  ∨ missing_or_unparsable fromisoformat (effectiveTo c) →
  ∃ e,
    _is_code_applicable c country transport entry_date loading_date
    = Ok (false, [WarnApplicability (cv ← codeVariant c; code cv) e])
    ∧ ∀ l1 l2,
        (applicable_others (l1 ++ c :: l2) country transport entry_date loading_date).1
        = (applicable_others (l1 ++ l2) country transport entry_date loading_date).1
        ∧ (type_ c ≠ Some "COMMODITY_CODE" →
           (analyze_tariffs (l1 ++ c :: l2) country transport entry_date loading_date).1
           = (analyze_tariffs (l1 ++ l2) country transport entry_date loading_date).1
           ∧ WarnApplicability (cv ← codeVariant c; code cv) e
             ∈ (applicable_others (l1 ++ c :: l2) country transport
                  entry_date loading_date).2).
Proof.
  intros H.
  destruct (bad_dates_not_applicable c country transport entry_date loading_date H)
    as [e He].
  exists e. split; [exact He|]. intros l1 l2.
  destruct (applicable_others_total l1 country transport entry_date loading_date)
    as (k1 & o1 & H1).
  destruct (applicable_others_total l2 country transport entry_date loading_date)
    as (k2 & o2 & H2).
  assert (Hc : ∃ o, applicable_others (c :: l2) country transport entry_date loading_date
                    = (Ok k2, o)
                    ∧ (type_ c ≠ Some "COMMODITY_CODE" →
                       WarnApplicability (cv ← codeVariant c; code cv) e ∈ o)).
  { simpl. unfold TariffProcessor.is_commodity_code. case_bool_decide as Hty.
    - exists o2. split; [exact H2 | done].
    - rewrite He, H2. simpl. eexists. split; [reflexivity|]. intros _. by left. }
  destruct Hc as (o & Hc & Hw).
  rewrite (applicable_others_app _ _ _ _ _ _ _ _ _ _ H1 Hc).
  rewrite (applicable_others_app _ _ _ _ _ _ _ _ _ _ H1 H2).
  split; [reflexivity|]. intros Hty. split.
  - unfold TariffProcessor.analyze_tariffs.
    rewrite (find_commodity_skip c l1 l2 Hty).
    destruct (List.find _ _) as [primary_code|]; [|reflexivity].
    destruct (filter_result _ _); [|reflexivity].
    rewrite (applicable_others_app _ _ _ _ _ _ _ _ _ _ H1 Hc).
    rewrite (applicable_others_app _ _ _ _ _ _ _ _ _ _ H1 H2).
    reflexivity.
  - simpl. apply elem_of_app. right. auto.
Qed.

End Applicability.

(** ** Missing primary record *)

Lemma find_commodity_none (raw_data : list tariff_code) :
  Forall (λ c, type_ c ≠ Some "COMMODITY_CODE") raw_data →
  List.find TariffProcessor.is_commodity_code raw_data = None.
Proof.
  induction 1 as [|c rest Hc _ IH]; simpl; [reflexivity|].
  unfold TariffProcessor.is_commodity_code at 1.
  by rewrite bool_decide_eq_false_2.
Qed.

(** C7: on a snapshot without a record of type COMMODITY_CODE,
    [analyze_tariffs] returns the value [{"error": ...}]: it returns, it does
    not raise, and prints nothing.  The error ends the evaluation: the route
    answers the request, otherwise well formed, with status 400 and the
    reason; no report is built and no duty computed. *)
Theorem missing_primary_is_structured_error (fromisoformat : string → option date)
    (raw_data : list tariff_code) (country transport : string)
    (entry_date : date) (loading_date : option date) :
  Forall (λ c, type_ c ≠ Some "COMMODITY_CODE") raw_data →
  TariffProcessor.analyze_tariffs fromisoformat raw_data country transport
    entry_date loading_date
  = (Ok (AnalysisError "No primary COMMODITY_CODE found."), [])
  ∧ ∀ fetch request mode modes countries,
      fetch (Route.hts_code request) = Some raw_data → raw_data ≠ [] →
      Route.mode_of_transport request = mode :: modes →
      upper mode ∈ Route.valid_modes →
      Route.country request = country :: countries →
      Route.calculate_tariff_route fromisoformat fetch request
      = Route.HTTPException 400
          (Route.AnalysisFailed "No primary COMMODITY_CODE found.").
Proof.
  intros Hnone.
  assert (Ha : ∀ country transport entry_date loading_date,
    TariffProcessor.analyze_tariffs fromisoformat raw_data country transport
      entry_date loading_date
    = (Ok (AnalysisError "No primary COMMODITY_CODE found."), [])).
  { intros. unfold TariffProcessor.analyze_tariffs.
    by rewrite (find_commodity_none raw_data Hnone). }
  split; [apply Ha|].
  intros fetch request mode modes countries Hfetch Hne Hmode Hvalid Hcountry.
  unfold Route.calculate_tariff_route, Route.route_body.
  rewrite Hmode, Hfetch, Hcountry. simpl. unfold_bind.
  rewrite bool_decide_eq_true_2 by exact Hvalid. simpl.
  destruct raw_data as [|c rest]; [done|].
  rewrite Ha. reflexivity.
Qed.

(** ** The report and the aggregation *)

Lemma map_result_map {A B C : Type} (f : B → result C) (g : A → B) (l : list A) :
  map_result f (map g l) = map_result (f ∘ g) l.
Proof. induction l as [|x rest IH]; simpl; [reflexivity | by rewrite IH]. Qed.

Lemma map_result_pure {A B : Type} (f : A → result B) (g : A → B) (l : list A) :
  (∀ x, f x = Ok (g x)) → map_result f l = Ok (map g l).
Proof.
  intros Hf. induction l as [|x rest IH]; simpl; [reflexivity|].
  rewrite Hf, IH. reflexivity.
Qed.

(** What [get_data] reads from the entries [ReportBuilder] writes. *)
Lemma potential_entry_built (c : tariff_code) :
  Route.potential_entry (ReportBuilder.exclusion_entry c)
  = Ok {| Route.rated_label := JStr (default "N/A" (label c));
          Route.rated_code := JStr (ReportBuilder.code_or_na c);
          Route.rate_values := extract_values (default "N/A" (rateDescription c)) |}.
Proof. reflexivity. Qed.

Lemma active_entry_built (c : tariff_code) :
  Route.active_entry (ReportBuilder.penalty_entry c)
  = Ok [{| Route.rated_label := JStr (default "N/A" (label c));
           Route.rated_code := JStr (ReportBuilder.code_or_na c);
           Route.rate_values := extract_values (default "N/A" (rateDescription c)) |}].
Proof. reflexivity. Qed.

(** An entry of the report's [excluded_penalties] has no key
    [neutral_exclusions]: the loop over it adds nothing. *)
Lemma excluded_entry_data_built (item : string * excluded_entry) :
  Route.excluded_entry_data (ReportBuilder.excluded_penalty_entry item)
  = Ok ({| Route.rated_label := JStr (default "N/A" (label (penalty item.2)));
           Route.rated_code := JStr item.1;
           Route.rate_values :=
             extract_values (default "N/A" (rateDescription (penalty item.2))) |},
        map (λ c, {| Route.rated_label := JStr (default "N/A" (label c));
                     Route.rated_code := JStr (ReportBuilder.code_or_na c);
                     Route.rate_values :=
                       extract_values (default "N/A" (rateDescription c)) |})
            (exclusions item.2),
        []).
Proof.
  destruct item as [k d].
  unfold Route.excluded_entry_data, ReportBuilder.excluded_penalty_entry.
  simpl. unfold_bind.
  rewrite map_result_map.
  erewrite map_result_pure; [reflexivity|].
  intros c. apply potential_entry_built.
Qed.

Lemma excluded_block_built (items : list (string * excluded_entry)) :
  map_result Route.excluded_entry_data (map ReportBuilder.excluded_penalty_entry items)
  = Ok (map (λ item : string * excluded_entry,
               (rated_of (label (penalty item.2)) item.1
                  (rateDescription (penalty item.2)),
                map (λ c, rated_of (label c) (ReportBuilder.code_or_na c)
                            (rateDescription c))
                  (exclusions item.2),
                @nil string))
          items).
Proof.
  rewrite map_result_map. apply map_result_pure.
  intros item. apply excluded_entry_data_built.
Qed.

Lemma active_block_built (l : list tariff_code) :
  map_result Route.active_entry (map ReportBuilder.penalty_entry l)
  = Ok (map (λ c, [rated_of (label c) (ReportBuilder.code_or_na c) (rateDescription c)]) l).
Proof.
  rewrite map_result_map. apply map_result_pure.
  intros c. apply active_entry_built.
Qed.

Lemma concat_map_singleton {A B : Type} (f : A → B) (l : list A) :
  concat (map (λ x, [f x]) l) = map f l.
Proof. induction l as [|x rest IH]; simpl; [reflexivity | by rewrite IH]. Qed.

Lemma concat_map_nil {A B : Type} (l : list A) :
  concat (map (λ _ : A, @nil B) l) = [].
Proof. induction l as [|x rest IH]; simpl; [reflexivity | exact IH]. Qed.

(** [get_data] returns on every report [ReportBuilder] builds, and its
    [neutral_exclusions] is then empty: the report's own
    [neutral_exclusions] list is read and dropped, and the entries of
    [excluded_penalties], where the loop looks for them, have none. *)
Lemma get_data_built (a : analysis_ok) (country : string) :
  Route.get_data (ReportBuilder.generate_report_data a country)
  = Ok (tariff_data_of a).
Proof.
  destruct a as [prim progs [pens excl neut]].
  unfold Route.get_data, ReportBuilder.generate_report_data, tariff_data_of,
    ReportBuilder._build_primary_info, ReportBuilder._build_special_programs,
    ReportBuilder._build_other_tariffs.
  cbn [primary special_programs processed_tariffs applicable_penalties
       excluded_penalties neutral_exclusions].
  destruct (ReportBuilder.record_truthy prim), progs as [|prog progs],
    pens as [|p pens], excl as [|x excl], neut as [|n neut];
    simpl; unfold_bind;
    rewrite ?active_block_built, ?excluded_block_built,
      ?excluded_entry_data_built; simpl;
    rewrite ?map_map; simpl; rewrite ?concat_map_singleton, ?concat_map_nil;
    reflexivity.
Qed.

Lemma add_rates_sum (values : list string) (acc : double) :
  Route.add_rates acc values = sum_from acc values.
Proof.
  unfold Route.add_rates, sum_from. revert acc.
  induction values as [|v rest IH]; intros acc; [done|].
  simpl. unfold Route.add_rate at 2, number_of at 1.
  destruct (float (replace "%" "" v)); simpl; apply IH.
Qed.

Lemma rated_sum (entries : list Route.rated) (acc : double) :
  foldl (λ acc p, Route.add_rates acc (Route.rate_values p)) acc entries
  = sum_from acc (concat (map Route.rate_values entries)).
Proof.
  revert acc. induction entries as [|e rest IH]; intros acc; [done|].
  simpl. rewrite IH, add_rates_sum. unfold sum_from.
  by rewrite omap_app, foldl_app.
Qed.

Lemma basic_rate_value_number (s : string) :
  Route.basic_rate_value (JStr s) = Ok (basic_number s).
Proof.
  unfold Route.basic_rate_value, basic_number.
  destruct (String.eqb (lower s) "free"); [done|]. simpl.
  destruct (extract_values s) as [|tok rest] eqn:E; [done|].
  destruct (extract_values_numbers s tok) as [x Hx].
  { rewrite E. by left. }
  unfold number_of. by rewrite Hx.
Qed.

Lemma accumulate_formula (td : Route.tariff_data) (s : string) :
  Route.basic_rate td = JStr s →
  Route.accumulate td
  = Ok {| Route.total_rate := basic_accumulator s (Route.neutral_exclusions td);
          Route.active_total_rate := rate_total (Route.penalties td);
          Route.excluded_total_rate := rate_total (Route.excluded_penalties td) |}.
Proof.
  intros Hs. unfold Route.accumulate.
  rewrite Hs, basic_rate_value_number. simpl.
  by rewrite !rated_sum, add_rates_sum.
Qed.

Lemma calculate_total_tariff_formula (td : Route.tariff_data) (s : string)
    (base_cost request_base_cost : double) :
  Route.basic_rate td = JStr s →
  Route.calculate_total_tariff td base_cost request_base_cost
  = Ok (figures
          (fadd (fadd (basic_accumulator s (Route.neutral_exclusions td))
                   (rate_total (Route.penalties td)))
             (rate_total (Route.excluded_penalties td)))
          base_cost request_base_cost).
Proof.
  intros Hs. unfold Route.calculate_total_tariff.
  by rewrite (accumulate_formula td s Hs).
Qed.



(** C1 (the code departs from it): the snapshot holds a primary record of
    rate "5%" and one record without penalty rate, of rate "10%", that no
    penalty refers to.  The report lists that record under
    [neutral_exclusions], yet the list [neutral_exclusions] that [get_data]
    hands to the calculation is empty and the duty rate is "5.00%": the 10
    is not added to the accumulator. *)
Theorem neutral_exclusion_rate_not_added :
  ∃ data td r,
    Route.calculate_tariff_route iso_prefix_date
      (λ _, Some [sample_primary; sample_neutral]) sample_request
    = Route.JSONResponse data td r
    ∧ (other ← dict_item "other_tariffs" data; dict_item "neutral_exclusions" other)
      = Ok (JList [JDict [("label", JStr "Carve-out"); ("code", JStr "9903.88.69");
                          ("rate", JStr "10%"); ("requires_choice", JBool false)]])
    ∧ Route.neutral_exclusions td = []
    ∧ Route.duty_rate r = "5.00%"
    ∧ Route.total_cost r = double_of_Z 1050.
Proof.
  eexists _, _, _. split; [vm_compute; reflexivity|].
  repeat split; vm_compute; reflexivity.
Qed.

(** ** Comprehensions *)

Lemma filter_result_elem {A : Type} (p : A → result bool) (l xs : list A) :
  filter_result p l = Ok xs → ∀ x, x ∈ xs ↔ x ∈ l ∧ p x = Ok true.
Proof.
  revert xs. induction l as [|a rest IH]; intros xs H x; simpl in H.
  - injection H as <-. split; [by intros ?%elem_of_nil | by intros [?%elem_of_nil _]].
  - apply bind_Ok_inv in H as (b & Hb & H).
    apply bind_Ok_inv in H as (ys & Hys & H). injection H as <-.
    specialize (IH ys Hys x). rewrite elem_of_cons.
    destruct b.
    + rewrite elem_of_cons, IH. split.
      * intros [-> | [? ?]]; [by split; [left|] | by split; [right|]].
      * intros [[-> | ?] ?]; [by left | by right].
    + rewrite IH. split.
      * intros [? ?]. by split; [right|].
      * intros [[-> | ?] Hp]; [congruence | done].
Qed.

Lemma filter_result_total {A : Type} (p : A → result bool) (l xs : list A) :
  filter_result p l = Ok xs → ∀ x, x ∈ l → ∃ b, p x = Ok b.
Proof.
  revert xs. induction l as [|a rest IH]; intros xs H x Hx; simpl in H.
  - by apply elem_of_nil in Hx.
  - apply bind_Ok_inv in H as (b & Hb & H).
    apply bind_Ok_inv in H as (ys & Hys & _).
    apply elem_of_cons in Hx as [-> | Hx]; eauto.
Qed.

Lemma filter_result_app {A : Type} (p : A → result bool) (l1 l2 xs : list A) :
  filter_result p (l1 ++ l2) = Ok xs →
  ∃ xs1 xs2, filter_result p l1 = Ok xs1 ∧ filter_result p l2 = Ok xs2
             ∧ xs = xs1 ++ xs2.
Proof.
  revert xs. induction l1 as [|a rest IH]; intros xs H; simpl in H.
  - exists [], xs. auto.
  - apply bind_Ok_inv in H as (b & Hb & H).
    apply bind_Ok_inv in H as (ys & Hys & H). injection H as <-.
    destruct (IH ys Hys) as (xs1 & xs2 & H1 & H2 & ->).
    exists (if b then a :: xs1 else xs1), xs2. simpl. rewrite Hb, H1. simpl.
    repeat split; [exact H2|]. by destruct b.
Qed.

Lemma map_result_elem {A B : Type} (f : A → result B) (l : list A) (ys : list B) :
  map_result f l = Ok ys →
  (∀ x, x ∈ l → ∃ y, f x = Ok y) ∧ (∀ y, y ∈ ys ↔ ∃ x, x ∈ l ∧ f x = Ok y).
Proof.
  revert ys. induction l as [|a rest IH]; intros ys H; simpl in H.
  - injection H as <-. split; [by intros ? ?%elem_of_nil|].
    intros y. split; [by intros ?%elem_of_nil | by intros (? & ?%elem_of_nil & _)].
  - apply bind_Ok_inv in H as (b & Hb & H).
    apply bind_Ok_inv in H as (zs & Hzs & H). injection H as <-.
    destruct (IH zs Hzs) as [IH1 IH2]. split.
    + intros x [-> | Hx]%elem_of_cons; eauto.
    + intros y. rewrite elem_of_cons, IH2. split.
      * intros [-> | (x & Hx & Hy)]; [exists a | exists x];
          (split; [rewrite elem_of_cons; auto | done]).
      * intros (x & [-> | Hx]%elem_of_cons & Hy); [left; congruence | right; eauto].
Qed.

(** ** Dicts *)

Lemma PyDict_get_set_eq {V : Type} (k : string) (v : V) (d : PyDict.t V) :
  PyDict.get k (PyDict.set k v d) = Some v.
Proof.
  induction d as [|[k' v'] rest IH]; simpl.
  - by rewrite String.eqb_refl.
  - destruct (String.eqb k' k) eqn:E; simpl.
    + by rewrite String.eqb_refl.
    + by rewrite E.
Qed.

Lemma PyDict_get_set_ne {V : Type} (k k' : string) (v : V) (d : PyDict.t V) :
  k ≠ k' → PyDict.get k' (PyDict.set k v d) = PyDict.get k' d.
Proof.
  intros Hne. induction d as [|[k0 v0] rest IH]; simpl.
  - by apply String.eqb_neq in Hne as ->.
  - destruct (String.eqb k0 k) eqn:E; simpl.
    + apply String.eqb_eq in E as ->. by apply String.eqb_neq in Hne as ->.
    + by rewrite IH.
Qed.

Lemma PyDict_elem_of_set {V : Type} (k k' : string) (v v' : V) (d : PyDict.t V) :
  (k', v') ∈ PyDict.set k v d → (k' = k ∧ v' = v) ∨ (k', v') ∈ d.
Proof.
  induction d as [|[k0 v0] rest IH]; simpl.
  - intros [= -> ->]%list_elem_of_singleton. by left.
  - destruct (String.eqb k0 k).
    + intros [[= -> ->] | H]%elem_of_cons; [by left | right; by right].
    + intros [[= -> ->] | H]%elem_of_cons; [right; by left|].
      destruct (IH H) as [? | ?]; [by left | right; by right].
Qed.

Lemma PyDict_get_elem_of {V : Type} (k : string) (v : V) (d : PyDict.t V) :
  PyDict.get k d = Some v → (k, v) ∈ d.
Proof.
  induction d as [|[k0 v0] rest IH]; simpl; [discriminate|].
  destruct (String.eqb k0 k) eqn:E.
  - apply String.eqb_eq in E as ->. intros [= ->]. by left.
  - intros H. right. auto.
Qed.

Lemma PyDict_keys_set {V : Type} (k : string) (v : V) (d : PyDict.t V) :
  ∀ k', k' ∈ (PyDict.set k v d).*1 ↔ k' = k ∨ k' ∈ d.*1.
Proof.
  induction d as [|[k0 v0] rest IH]; intros k'; simpl.
  - rewrite list_elem_of_singleton, elem_of_nil. tauto.
  - destruct (String.eqb k0 k) eqn:E; simpl.
    + apply String.eqb_eq in E as ->. rewrite !elem_of_cons. tauto.
    + rewrite !elem_of_cons, IH. tauto.
Qed.

Lemma PyDict_NoDup_set {V : Type} (k : string) (v : V) (d : PyDict.t V) :
  NoDup d.*1 → NoDup (PyDict.set k v d).*1.
Proof.
  induction d as [|[k0 v0] rest IH]; simpl; intros Hnd.
  - apply NoDup_singleton.
  - apply NoDup_cons in Hnd as [Hk0 Hnd].
    destruct (String.eqb k0 k) eqn:E; simpl.
    + apply String.eqb_eq in E as ->. by apply NoDup_cons.
    + apply NoDup_cons. split; [|auto].
      rewrite PyDict_keys_set. intros [-> | ?]; [|done].
      by rewrite String.eqb_refl in E.
Qed.

Lemma PyDict_elem_of_get {V : Type} (k : string) (v : V) (d : PyDict.t V) :
  NoDup d.*1 → (k, v) ∈ d → PyDict.get k d = Some v.
Proof.
  induction d as [|[k0 v0] rest IH]; simpl; intros Hnd Hin.
  - by apply elem_of_nil in Hin.
  - apply NoDup_cons in Hnd as [Hk0 Hnd].
    apply elem_of_cons in Hin as [[= -> ->] | Hin].
    + by rewrite String.eqb_refl.
    + destruct (String.eqb k0 k) eqn:E; [|auto].
      apply String.eqb_eq in E as ->. exfalso. apply Hk0.
      apply list_elem_of_fmap. by exists (k, v).
Qed.

(** ** The resolver *)

Lemma penalty_not_exclusion (c : tariff_code) :
  TariffProcessor.is_penalty c = Ok true →
  TariffProcessor.is_exclusion c = Ok true → False.
Proof.
  unfold TariffProcessor.is_penalty, TariffProcessor.is_exclusion.
  destruct (TariffProcessor.penalty_rate c) as [q|e]; unfold_bind; [|discriminate].
  intros [= Hp] [= He]. apply negb_true_iff in Hp.
  apply Qeq_bool_iff in He. rewrite <- not_true_iff_false in Hp. apply Hp.
  apply Qle_bool_iff. rewrite He. apply Qle_refl.
Qed.

Lemma has_code_true (k : string) (e : tariff_code) :
  TariffProcessor.has_code k e = Ok true ↔ TariffProcessor.code_of e = Ok k.
Proof.
  unfold TariffProcessor.has_code.
  destruct (TariffProcessor.code_of e) as [c|x]; unfold_bind.
  - split.
    + intros [= H]. apply String.eqb_eq in H. by subst.
    + intros [= ->]. by rewrite String.eqb_refl.
  - split; discriminate.
Qed.

Section Resolver.

Variable codes : gset string.
Variable excl : list tariff_code.

Lemma hits_in_nil k : ¬ hits_in codes [] k.
Proof. intros [_ (eb & Hin & _)]. by apply elem_of_nil in Hin. Qed.

Lemma hits_in_cons eb rest k :
  hits_in codes (eb :: rest) k ↔
  (code eb = Some k ∧ k ∈ codes) ∨ hits_in codes rest k.
Proof.
  unfold hits_in. split.
  - intros [Hk (x & [-> | Hx]%elem_of_cons & Hc)]; [by left | right; eauto].
  - intros [[Hc Hk] | [Hk (x & Hx & Hc)]].
    + split; [done|]. exists eb. split; [by left | done].
    + split; [done|]. exists x. split; [by right | done].
Qed.

Lemma match_exclusions_spec ebs b m u b' m' u' :
  TariffProcessor.match_exclusions codes excl ebs (b, m, u) = Ok (b', m', u') →
  (b' = true ↔ b = true ∨ ∃ k, hits_in codes ebs k)
  ∧ (∀ e, e ∈ m' ↔
          e ∈ m ∨ ∃ k, hits_in codes ebs k ∧ e ∈ excl
                       ∧ TariffProcessor.code_of e = Ok k)
  ∧ (∀ k, k ∈ u' ↔ k ∈ u ∨ hits_in codes ebs k).
Proof.
  revert b m u. induction ebs as [|eb rest IH]; intros b m u H; simpl in H.
  - injection H as <- <- <-.
    pose proof hits_in_nil. naive_solver.
  - destruct (code eb) as [k0|] eqn:Hc.
    + case_bool_decide as Hk0.
      * apply bind_Ok_inv in H as (found & Hfound & H).
        pose proof (filter_result_elem _ _ _ Hfound) as Hf.
        destruct (IH _ _ _ H) as (Hb & Hm & Hu). clear IH H.
        assert (Hhit : hits_in codes (eb :: rest) k0).
        { apply hits_in_cons. by left. }
        split; [|split].
        -- split; [eauto|]. intros _. apply Hb. by left.
        -- intros e. rewrite Hm, elem_of_app, Hf, has_code_true.
           setoid_rewrite hits_in_cons. naive_solver.
        -- intros k. rewrite Hu, elem_of_union, elem_of_singleton, hits_in_cons.
           naive_solver.
      * destruct (IH _ _ _ H) as (Hb & Hm & Hu). clear IH H.
        split; [|split].
        -- rewrite Hb. setoid_rewrite hits_in_cons. naive_solver.
        -- intros e. rewrite Hm. setoid_rewrite hits_in_cons. naive_solver.
        -- intros k. rewrite Hu, hits_in_cons. naive_solver.
    + destruct (IH _ _ _ H) as (Hb & Hm & Hu). clear IH H.
      split; [|split].
      -- rewrite Hb. setoid_rewrite hits_in_cons. naive_solver.
      -- intros e. rewrite Hm. setoid_rewrite hits_in_cons. naive_solver.
      -- intros k. rewrite Hu, hits_in_cons. naive_solver.
Qed.

Lemma entry_ok_mono pens pens' key entry :
  (∀ p, p ∈ pens → p ∈ pens') →
  entry_ok codes excl pens key entry → entry_ok codes excl pens' key entry.
Proof. unfold entry_ok. naive_solver. Qed.

(** One turn of the loop over the penalties. *)
Lemma resolve_penalties_step p rest fin d u st' :
  TariffProcessor.resolve_penalties codes excl (p :: rest) (fin, d, u) = Ok st' →
  ∃ key m u1,
    TariffProcessor.code_of p = Ok key
    ∧ (∀ e, e ∈ m ↔ ∃ k, hits codes p k ∧ e ∈ excl
                         ∧ TariffProcessor.code_of e = Ok k)
    ∧ (∀ k, k ∈ u1 ↔ k ∈ u ∨ hits codes p k)
    ∧ ((matched codes p
        ∧ TariffProcessor.resolve_penalties codes excl rest
            (fin, PyDict.set key {| penalty := p; exclusions := m |} d, u1) = Ok st')
       ∨ (¬ matched codes p
          ∧ TariffProcessor.resolve_penalties codes excl rest
              (fin ++ [p], d, u1) = Ok st')).
Proof.
  simpl. intros H.
  apply bind_Ok_inv in H as (key & Hkey & H).
  apply bind_Ok_inv in H as ([[b m] u1] & Hm & H).
  apply match_exclusions_spec in Hm as (Hb & Hm & Hu).
  exists key, m, u1. split; [done|].
  assert (Hb' : b = true ↔ matched codes p).
  { rewrite Hb. unfold matched, hits. naive_solver. }
  split; [|split].
  - intros e. rewrite Hm, elem_of_nil. unfold hits. naive_solver.
  - exact Hu.
  - destruct b.
    + left. split; [by apply Hb' | done].
    + right. split; [|done]. intros Hp. apply Hb' in Hp. discriminate.
Qed.

Lemma resolve_penalties_spec pens fin d u fin' d' u' :
  TariffProcessor.resolve_penalties codes excl pens (fin, d, u) = Ok (fin', d', u') →
  (∀ p, p ∈ fin' ↔ p ∈ fin ∨ (p ∈ pens ∧ ¬ matched codes p))
  ∧ (∀ k, k ∈ u' ↔ k ∈ u ∨ ∃ p, p ∈ pens ∧ hits codes p k)
  ∧ (∀ key entry, (key, entry) ∈ d' →
       (key, entry) ∈ d ∨ entry_ok codes excl pens key entry)
  ∧ (NoDup d.*1 → NoDup d'.*1).
Proof.
  revert fin d u. induction pens as [|p0 rest IH]; intros fin d u H.
  - simpl in H. injection H as <- <- <-.
    split; [|split; [|split]]; [| |auto..].
    + intros p. rewrite elem_of_nil. tauto.
    + intros k. split; [auto|]. by intros [? | (p & Hp%elem_of_nil & _)].
  - apply resolve_penalties_step in H
      as (key & m & u1 & Hkey & Hm & Hu1 & [[Hp0 H] | [Hp0 H]]);
      apply IH in H as (Hfin & Hu & Hd & Hnd); clear IH.
    + split; [|split; [|split]].
      * intros p. rewrite Hfin, elem_of_cons. naive_solver.
      * intros k. rewrite Hu, Hu1. setoid_rewrite elem_of_cons. naive_solver.
      * intros k entry Hin. apply Hd in Hin as [Hin | Hin].
        -- apply PyDict_elem_of_set in Hin as [[-> ->] | Hin]; [|by left].
           right. unfold entry_ok. simpl.
           split; [by left | done].
        -- right. revert Hin. apply entry_ok_mono. intros ? ?. by right.
      * intros Hnd0. by apply Hnd, PyDict_NoDup_set.
    + split; [|split; [|split]].
      * intros p. rewrite Hfin, elem_of_app, list_elem_of_singleton, elem_of_cons.
        naive_solver.
      * intros k. rewrite Hu, Hu1. setoid_rewrite elem_of_cons. naive_solver.
      * intros k entry Hin. apply Hd in Hin as [Hin | Hin]; [by left|].
        right. revert Hin. apply entry_ok_mono. intros ? ?. by right.
      * exact Hnd.
Qed.

Lemma resolve_penalties_app l1 l2 st st' :
  TariffProcessor.resolve_penalties codes excl (l1 ++ l2) st = Ok st' →
  ∃ st1, TariffProcessor.resolve_penalties codes excl l1 st = Ok st1
         ∧ TariffProcessor.resolve_penalties codes excl l2 st1 = Ok st'.
Proof.
  revert st. induction l1 as [|p rest IH]; intros [[fin d] u] H.
  - exists (fin, d, u). auto.
  - rewrite <- app_comm_cons in H. simpl in H |- *.
    destruct (TariffProcessor.code_of p) as [key|]; [|discriminate].
    unfold_bind.
    destruct (TariffProcessor.match_exclusions _ _ _ _) as [[[b m] u1]|];
      [|discriminate].
    destruct b; apply IH in H; exact H.
Qed.

(** Once the entry under [k] holds the penalty [p], it keeps holding it
    through the rest of the loop if [p] is the one excluded penalty of code
    [k] there. *)
Lemma resolve_penalties_keeps (k : string) (p : tariff_code) pens fin d u fin' d' u' :
  TariffProcessor.resolve_penalties codes excl pens (fin, d, u) = Ok (fin', d', u') →
  (∀ q, q ∈ pens → matched codes q → TariffProcessor.code_of q = Ok k → q = p) →
  (∃ entry, PyDict.get k d = Some entry ∧ penalty entry = p) →
  ∃ entry, PyDict.get k d' = Some entry ∧ penalty entry = p.
Proof.
  revert fin d u. induction pens as [|q0 rest IH]; intros fin d u H Honly Hd.
  - simpl in H. by injection H as <- <- <-.
  - apply resolve_penalties_step in H
      as (key & m & u1 & Hkey & _ & _ & [[Hq0 H] | [Hq0 H]]).
    + apply IH in H; [done | intros; apply Honly; [by right | done..] |].
      destruct (decide (key = k)) as [-> | Hne].
      * rewrite PyDict_get_set_eq. eexists. split; [done|]. simpl.
        apply Honly; [by left | done..].
      * by rewrite PyDict_get_set_ne.
    + apply IH in H; [done | intros; apply Honly; [by right | done..] | done].
Qed.

(** The entry under the code of an excluded penalty holds that penalty when
    no other excluded penalty of the same code comes after it. *)
Lemma resolve_penalties_writes (k : string) l1 p l3 st fin' d' u' :
  TariffProcessor.resolve_penalties codes excl (l1 ++ p :: l3) st = Ok (fin', d', u') →
  TariffProcessor.code_of p = Ok k → matched codes p →
  (∀ q, q ∈ l3 → matched codes q → TariffProcessor.code_of q = Ok k → q = p) →
  ∃ entry, PyDict.get k d' = Some entry ∧ penalty entry = p.
Proof.
  intros H Hk Hp Honly.
  apply resolve_penalties_app in H as ([[fin1 d1] u1] & _ & H).
  apply resolve_penalties_step in H
    as (key & m & u2 & Hkey & _ & _ & [[_ H] | [Hnp _]]); [|done].
  assert (key = k) as -> by congruence.
  eapply resolve_penalties_keeps; [exact H | exact Honly |].
  rewrite PyDict_get_set_eq. eauto.
Qed.

Lemma hits_in_dec ebs : (∃ k, hits_in codes ebs k) ∨ ¬ (∃ k, hits_in codes ebs k).
Proof.
  induction ebs as [|eb rest IH].
  - right. intros [k Hk]. by apply hits_in_nil in Hk.
  - destruct IH as [[k Hk] | Hno].
    { left. exists k. apply hits_in_cons. by right. }
    destruct (code eb) as [k0|] eqn:Hc.
    + destruct (decide (k0 ∈ codes)) as [Hin | Hnin].
      * left. exists k0. apply hits_in_cons. by left.
      * right. intros [k [[Hk ?] | Hk]%hits_in_cons]; [|eauto].
        rewrite Hc in Hk. by injection Hk as ->.
    + right. intros [k [[Hk ?] | Hk]%hits_in_cons]; [|eauto].
      by rewrite Hc in Hk.
Qed.

Lemma matched_dec p : matched codes p ∨ ¬ matched codes p.
Proof. apply hits_in_dec. Qed.

Lemma resolve_penalties_codes pens st st' :
  TariffProcessor.resolve_penalties codes excl pens st = Ok st' →
  ∀ p, p ∈ pens → ∃ k, TariffProcessor.code_of p = Ok k.
Proof.
  revert st. induction pens as [|p0 rest IH]; intros [[fin d] u] H p Hp.
  - by apply elem_of_nil in Hp.
  - apply resolve_penalties_step in H
      as (key & m & u1 & Hkey & _ & _ & [[_ H] | [_ H]]);
      (apply elem_of_cons in Hp as [-> | Hp]; [eauto | by eapply IH]).
Qed.

End Resolver.

(** What [_process_other_tariffs] computes, stage by stage. *)
Lemma process_inv (tariffs : list tariff_code) (out : processed) :
  TariffProcessor._process_other_tariffs tariffs = Ok out →
  ∃ pens excl code_list used,
    filter_result TariffProcessor.is_penalty tariffs = Ok pens
    ∧ filter_result TariffProcessor.is_exclusion tariffs = Ok excl
    ∧ map_result TariffProcessor.code_of excl = Ok code_list
    ∧ TariffProcessor.resolve_penalties (list_to_set code_list) excl pens ([], [], ∅)
      = Ok (applicable_penalties out, excluded_penalties out, used)
    ∧ (∀ e, e ∈ neutral_exclusions out ↔
            e ∈ excl ∧ ∃ c, TariffProcessor.code_of e = Ok c ∧ c ∉ used).
Proof.
  unfold TariffProcessor._process_other_tariffs. intros H.
  apply bind_Ok_inv in H as (pens & Hpens & H).
  apply bind_Ok_inv in H as (excl & Hexcl & H).
  apply bind_Ok_inv in H as (code_list & Hcodes & H).
  apply bind_Ok_inv in H as ([[fin d] used] & Hres & H).
  apply bind_Ok_inv in H as (neutral & Hneutral & H).
  injection H as <-. simpl.
  exists pens, excl, code_list, used. repeat (split; [done|]).
  intros e. rewrite (filter_result_elem _ _ _ Hneutral).
  destruct (TariffProcessor.code_of e) as [c|x]; unfold_bind.
  - split.
    + intros [He [= Hc]]. split; [done|]. exists c. split; [done|].
      apply negb_true_iff, bool_decide_eq_false in Hc. exact Hc.
    + intros [He (c' & [= <-] & Hc)]. split; [done|].
      by rewrite bool_decide_eq_false_2.
  - split; [by intros [_ ?] | by intros [_ (c & ? & _)]].
Qed.

Lemma process_codes (tariffs excl : list tariff_code) (code_list : list string) :
  filter_result TariffProcessor.is_exclusion tariffs = Ok excl →
  map_result TariffProcessor.code_of excl = Ok code_list →
  ∀ k, k ∈ (list_to_set code_list : gset string) ↔ exclusion_code tariffs k.
Proof.
  intros Hexcl Hcodes k. rewrite elem_of_list_to_set.
  destruct (map_result_elem _ _ _ Hcodes) as [_ ->].
  unfold exclusion_code. setoid_rewrite (filter_result_elem _ _ _ Hexcl).
  naive_solver.
Qed.

(** The outcome of [_process_other_tariffs] in terms of its input: which
    records are active penalties, which neutral exclusions, what each entry
    of [excluded_penalties] holds. *)
Lemma process_summary (tariffs : list tariff_code) (out : processed) :
  TariffProcessor._process_other_tariffs tariffs = Ok out →
  (∀ p, in_active out p ↔
        p ∈ tariffs ∧ TariffProcessor.is_penalty p = Ok true
        ∧ ¬ marked_excluded tariffs p)
  ∧ (∀ e, in_neutral out e ↔
          e ∈ tariffs ∧ TariffProcessor.is_exclusion e = Ok true
          ∧ ∃ c, TariffProcessor.code_of e = Ok c
                 ∧ ¬ ∃ p, p ∈ tariffs ∧ TariffProcessor.is_penalty p = Ok true
                          ∧ excluded_by p c)
  ∧ (∀ key entry, (key, entry) ∈ excluded_penalties out →
       penalty entry ∈ tariffs
       ∧ TariffProcessor.is_penalty (penalty entry) = Ok true
       ∧ TariffProcessor.code_of (penalty entry) = Ok key
       ∧ marked_excluded tariffs (penalty entry)
       ∧ ∀ e, e ∈ exclusions entry ↔
              e ∈ tariffs ∧ TariffProcessor.is_exclusion e = Ok true
              ∧ ∃ k, excluded_by (penalty entry) k
                     ∧ TariffProcessor.code_of e = Ok k)
  ∧ NoDup (excluded_penalties out).*1.
Proof.
  intros H.
  apply process_inv in H as (pens & excl & code_list & used
                             & Hpens & Hexcl & Hcodes & Hres & Hneutral).
  pose proof (filter_result_elem _ _ _ Hpens) as Hp.
  pose proof (filter_result_elem _ _ _ Hexcl) as He.
  pose proof (process_codes _ _ _ Hexcl Hcodes) as Hc.
  apply resolve_penalties_spec in Hres as (Hfin & Hused & Hd & Hnd).
  assert (Hhits : ∀ p k, hits (list_to_set code_list) p k ↔
                         excluded_by p k ∧ exclusion_code tariffs k).
  { intros p k. unfold hits, hits_in, excluded_by. rewrite Hc. tauto. }
  assert (Hmatched : ∀ p, matched (list_to_set code_list) p ↔ marked_excluded tariffs p).
  { intros p. unfold matched, marked_excluded. by setoid_rewrite Hhits. }
  split; [|split; [|split]].
  - intros p. unfold in_active. rewrite Hfin, elem_of_nil, Hp, Hmatched. tauto.
  - intros e. unfold in_neutral. rewrite Hneutral, He. split.
    + intros [[Hin Hex] (c & Hcode & Hnot)]. repeat (split; [done|]).
      exists c. split; [done|]. intros (p & Hpin & Hpen & Hby).
      apply Hnot, Hused. right. exists p. split; [by apply Hp|].
      apply Hhits. split; [done|]. by exists e.
    + intros (Hin & Hex & c & Hcode & Hnot). split; [done|].
      exists c. split; [done|].
      intros [[]%elem_of_empty | (p & [Hpin Hpen]%Hp & [Hby _]%Hhits)]%Hused.
      apply Hnot. eauto.
  - intros key entry Hin.
    apply Hd in Hin as [[]%elem_of_nil | (Hpen & Hcode & Hm & Hex)].
    apply Hp in Hpen as [Hpin Hpen]. repeat (split; [done|]).
    split; [by apply Hmatched|].
    intros e. rewrite Hex. setoid_rewrite Hhits. setoid_rewrite He. split.
    + intros (k & [Hby _] & [? ?] & ?). eauto.
    + intros (? & ? & k & Hby & ?). exists k.
      repeat split; try done. by exists e.
  - apply Hnd. simpl. apply NoDup_nil_2.
Qed.

Lemma process_matched (tariffs excl : list tariff_code) (code_list : list string) :
  filter_result TariffProcessor.is_exclusion tariffs = Ok excl →
  map_result TariffProcessor.code_of excl = Ok code_list →
  ∀ p, matched (list_to_set code_list) p ↔ marked_excluded tariffs p.
Proof.
  intros Hexcl Hcodes p.
  pose proof (process_codes _ _ _ Hexcl Hcodes) as Hc.
  unfold matched, marked_excluded, hits, hits_in, excluded_by.
  setoid_rewrite Hc. naive_solver.
Qed.

(** The calls that [_process_other_tariffs] needs to succeed did succeed. *)
Lemma process_total (tariffs : list tariff_code) (out : processed) :
  TariffProcessor._process_other_tariffs tariffs = Ok out →
  (∀ r, r ∈ tariffs → ∃ x, TariffProcessor.penalty_rate r = Ok x)
  ∧ (∀ r, r ∈ tariffs →
       TariffProcessor.is_penalty r = Ok true
       ∨ TariffProcessor.is_exclusion r = Ok true →
       ∃ k, TariffProcessor.code_of r = Ok k).
Proof.
  intros H.
  apply process_inv in H as (pens & excl & code_list & used
                             & Hpens & Hexcl & Hcodes & Hres & Hneutral).
  split.
  - intros r Hr.
    destruct (filter_result_total _ _ _ Hpens r Hr) as [b Hb].
    unfold TariffProcessor.is_penalty in Hb.
    destruct (TariffProcessor.penalty_rate r) as [x|e]; [eauto | discriminate].
  - intros r Hr [Hpen | Hex].
    + eapply resolve_penalties_codes; [exact Hres|].
      by apply (filter_result_elem _ _ _ Hpens).
    + destruct (map_result_elem _ _ _ Hcodes) as [Hall _]. apply Hall.
      by apply (filter_result_elem _ _ _ Hexcl).
Qed.

(** The last excluded penalty of a code is the one kept under that code. *)
Lemma process_writes (l1 : list tariff_code) (p : tariff_code) (l3 : list tariff_code)
    (out : processed) (k : string) :
  TariffProcessor._process_other_tariffs (l1 ++ p :: l3) = Ok out →
  TariffProcessor.is_penalty p = Ok true →
  TariffProcessor.code_of p = Ok k →
  marked_excluded (l1 ++ p :: l3) p →
  (∀ q, q ∈ l3 → TariffProcessor.is_penalty q = Ok true →
        marked_excluded (l1 ++ p :: l3) q →
        TariffProcessor.code_of q = Ok k → q = p) →
  ∃ entry, PyDict.get k (excluded_penalties out) = Some entry ∧ penalty entry = p.
Proof.
  intros H Hpen Hk Hmarked Honly.
  apply process_inv in H as (pens & excl & code_list & used
                             & Hpens & Hexcl & Hcodes & Hres & Hneutral).
  pose proof (process_matched _ _ _ Hexcl Hcodes) as Hm.
  apply filter_result_app in Hpens as (xs1 & xs2 & _ & H2 & ->).
  simpl in H2. rewrite Hpen in H2. unfold_bind.
  destruct (filter_result TariffProcessor.is_penalty l3) as [xs3|] eqn:H3;
    [|discriminate].
  injection H2 as <-.
  eapply resolve_penalties_writes; [exact Hres | exact Hk | by apply Hm |].
  intros q [Hq Hqpen]%(filter_result_elem _ _ _ H3) Hqm%Hm Hqk. by apply Honly.
Qed.

Lemma process_cover (tariffs : list tariff_code) (out : processed) (p : tariff_code) :
  TariffProcessor._process_other_tariffs tariffs = Ok out →
  p ∈ tariffs → TariffProcessor.is_penalty p = Ok true →
  marked_excluded tariffs p →
  (∀ q, q ∈ tariffs → TariffProcessor.is_penalty q = Ok true →
        marked_excluded tariffs q →
        TariffProcessor.code_of q = TariffProcessor.code_of p → q = p) →
  ∃ key entry, (key, entry) ∈ excluded_penalties out ∧ penalty entry = p.
Proof.
  intros H Hin Hpen Hmarked Honly.
  destruct (process_total _ _ H) as [_ Hcode].
  destruct (Hcode p Hin (or_introl Hpen)) as [k Hk].
  apply list_elem_of_split in Hin as (l1 & l3 & ->).
  destruct (process_writes l1 p l3 out k H Hpen Hk Hmarked) as (entry & Hget & Hp).
  - intros q Hq Hqpen Hqm Hqk. apply Honly; try done; [|congruence].
    apply elem_of_app. right. by right.
  - exists k, entry. split; [by apply PyDict_get_elem_of | done].
Qed.

(** An exclusion record is neutral, or an input penalty lists its code. *)
Lemma process_exclusion_cases (tariffs : list tariff_code) (out : processed)
    (e : tariff_code) (c : string) :
  TariffProcessor._process_other_tariffs tariffs = Ok out →
  e ∈ tariffs → TariffProcessor.is_exclusion e = Ok true →
  TariffProcessor.code_of e = Ok c →
  in_neutral out e
  ∨ ∃ p, p ∈ tariffs ∧ TariffProcessor.is_penalty p = Ok true ∧ excluded_by p c.
Proof.
  intros H Hin Hex Hc.
  apply process_inv in H as (pens & excl & code_list & used
                             & Hpens & Hexcl & Hcodes & Hres & Hneutral).
  apply resolve_penalties_spec in Hres as (_ & Hused & _ & _).
  destruct (decide (c ∈ used)) as [Hu | Hu].
  - right. apply Hused in Hu as [[]%elem_of_empty | (p & Hp & [_ Hby])].
    apply (filter_result_elem _ _ _ Hpens) in Hp as [? ?]. exists p. eauto.
  - left. apply Hneutral. split; [by apply (filter_result_elem _ _ _ Hexcl)|].
    eauto.
Qed.

(** C2, as stated, fails: with two excluded penalties of the same code, the
    first is in none of the three buckets. *)
Lemma first_of_two_excluded_penalties_is_omitted :
  ∃ out,
    TariffProcessor._process_other_tariffs
      [sample_penalty_first; sample_penalty_second; sample_neutral] = Ok out
    ∧ ¬ (in_active out sample_penalty_first
         ∨ in_excluded out sample_penalty_first
         ∨ in_neutral out sample_penalty_first).
Proof.
  eexists. split; [vm_compute; reflexivity|].
  unfold in_active, in_excluded, in_neutral. simpl.
  intros [H | [(k & entry & Hin & H) | H]].
  - by apply elem_of_nil in H.
  - apply list_elem_of_singleton in Hin. injection Hin as -> ->. simpl in H.
    destruct H as [H | H]; [discriminate|].
    apply list_elem_of_singleton in H. discriminate.
  - by apply elem_of_nil in H.
Qed.

(** C2, amended: the records in the three buckets are input records; no
    record is in two buckets; and every input record whose penalty rate is
    not negative is in a bucket, provided no two distinct penalty records
    that are both excluded have the same code. *)
Theorem buckets_disjoint_and_cover (tariffs : list tariff_code) (out : processed) :
  TariffProcessor._process_other_tariffs tariffs = Ok out →
  (∀ r, in_active out r ∨ in_excluded out r ∨ in_neutral out r → r ∈ tariffs)
  ∧ (∀ r, ¬ (in_active out r ∧ in_excluded out r)
          ∧ ¬ (in_active out r ∧ in_neutral out r)
          ∧ ¬ (in_excluded out r ∧ in_neutral out r))
  ∧ ((∀ p q, p ∈ tariffs → q ∈ tariffs →
             TariffProcessor.is_penalty p = Ok true →
             TariffProcessor.is_penalty q = Ok true →
             marked_excluded tariffs p → marked_excluded tariffs q →
             TariffProcessor.code_of p = TariffProcessor.code_of q → p = q) →
     ∀ r, r ∈ tariffs →
          (∀ x, TariffProcessor.penalty_rate r = Ok x → (0 <= x)%Q) →
          in_active out r ∨ in_excluded out r ∨ in_neutral out r).
Proof.
  intros H.
  destruct (process_summary _ _ H) as (Hact & Hneu & Hexc & Hnd).
  split; [|split].
  - intros r [Hr | [(k & entry & Hin & Hr) | Hr]].
    + by apply Hact in Hr as [? _].
    + destruct (Hexc _ _ Hin) as (Hp & _ & _ & _ & Hgroup).
      destruct Hr as [-> | Hr]; [done | by apply Hgroup in Hr as [? _]].
    + by apply Hneu in Hr as [? _].
  - intros r. split; [|split].
    + intros [(_ & Hpen & Hnot)%Hact (k & entry & Hin & Hr)].
      destruct (Hexc _ _ Hin) as (_ & _ & _ & Hm & Hgroup).
      destruct Hr as [-> | Hr]; [done|].
      apply Hgroup in Hr as (_ & Hex & _). eauto using penalty_not_exclusion.
    + intros [(_ & Hpen & _)%Hact (_ & Hex & _)%Hneu].
      eauto using penalty_not_exclusion.
    + intros [(k & entry & Hin & Hr) (_ & Hex & c & Hc & Hnone)%Hneu].
      destruct (Hexc _ _ Hin) as (Hp & Hpen & _ & _ & Hgroup).
      destruct Hr as [-> | Hr]; [eauto using penalty_not_exclusion|].
      apply Hgroup in Hr as (_ & _ & k' & Hby & Hk').
      apply Hnone. exists (penalty entry).
      assert (k' = c) as -> by congruence. done.
  - intros Hdistinct r Hr Hrate.
    destruct (process_total _ _ H) as [Htot Hcode].
    destruct (Htot r Hr) as [x Hx]. specialize (Hrate x Hx).
    destruct (Qle_bool x 0) eqn:Hle.
    + assert (Hex : TariffProcessor.is_exclusion r = Ok true).
      { unfold TariffProcessor.is_exclusion. rewrite Hx. unfold_bind.
        do 2 f_equal. apply Qeq_bool_iff, Qle_antisym; [|done].
        by apply Qle_bool_iff. }
      destruct (Hcode r Hr (or_intror Hex)) as [c Hc].
      destruct (process_exclusion_cases _ _ r c H Hr Hex Hc)
        as [Hn | (p & Hp & Hpen & Hby)]; [by right; right|].
      right; left.
      assert (Hm : marked_excluded tariffs p).
      { exists c. split; [done|]. by exists r. }
      destruct (process_cover _ _ p H Hp Hpen Hm) as (key & entry & Hin & <-).
      { intros q ? ? ? ?. by apply Hdistinct. }
      exists key, entry. split; [done|]. right.
      destruct (Hexc _ _ Hin) as (_ & _ & _ & _ & Hgroup).
      apply Hgroup. eauto.
    + assert (Hpen : TariffProcessor.is_penalty r = Ok true).
      { unfold TariffProcessor.is_penalty. rewrite Hx. unfold_bind.
        by rewrite Hle. }
      pose proof (process_inv _ _ H) as (pens & excl & code_list & used
                                         & _ & Hexcl & Hcodes & _ & _).
      pose proof (process_matched _ _ _ Hexcl Hcodes r) as Hm.
      destruct (matched_dec (list_to_set code_list) r) as [Hyes | Hno].
      * right; left. apply Hm in Hyes.
        destruct (process_cover _ _ r H Hr Hpen Hyes) as (key & entry & Hin & <-).
        { intros q ? ? ? ?. by apply Hdistinct. }
        exists key, entry. auto.
      * left. apply Hact. rewrite <- Hm. done.
Qed.

(** C6, as stated, fails: [sample_penalty_first] lists the code of
    [sample_neutral] and is marked excluded, yet a later excluded penalty of
    the same code takes its place in [excluded_penalties].  It has no
    exclusion group, and [sample_neutral] is in no group at all, while its
    code is recorded as used: it is not a neutral exclusion either. *)
Lemma overwritten_penalty_has_no_group :
  ∃ out,
    TariffProcessor._process_other_tariffs
      [sample_penalty_first; sample_penalty_third; sample_neutral;
       sample_exclusion_other] = Ok out
    ∧ TariffProcessor.is_penalty sample_penalty_first = Ok true
    ∧ excluded_by sample_penalty_first "9903.88.69"
    ∧ exclusion_code
        [sample_penalty_first; sample_penalty_third; sample_neutral;
         sample_exclusion_other] "9903.88.69"
    ∧ TariffProcessor.code_of sample_neutral = Ok "9903.88.69"
    ∧ (∀ key entry, (key, entry) ∈ excluded_penalties out →
         penalty entry ≠ sample_penalty_first ∧ sample_neutral ∉ exclusions entry)
    ∧ ¬ in_neutral out sample_neutral.
Proof.
  eexists. split; [vm_compute; reflexivity|].
  split; [reflexivity|]. split.
  { exists {| code := Some "9903.88.69" |}. split; [|reflexivity].
    apply elem_of_cons. by left. }
  split.
  { exists sample_neutral. split; [|split; reflexivity].
    apply elem_of_cons. right. apply elem_of_cons. right.
    apply elem_of_cons. by left. }
  split; [reflexivity|]. split.
  - simpl. intros key entry Hin.
    apply list_elem_of_singleton in Hin. injection Hin as -> ->. simpl.
    split; [discriminate|].
    intros H. apply list_elem_of_singleton in H. discriminate.
  - unfold in_neutral. simpl. intros H. by apply elem_of_nil in H.
Qed.

(** C6, amended: let [p] be a penalty record that lists in
    [excludedByCodes] a code [k] borne by an exclusion record, so that [p]
    is marked excluded.  The group stored with [p] in [excluded_penalties],
    when [p] has an entry there, contains every exclusion record of code
    [k], not only the first; no record of code [k] is among the neutral
    exclusions; and [p] has an entry when no other excluded penalty has the
    code of [p]. *)
Theorem exclusion_groups_complete (tariffs : list tariff_code) (out : processed)
    (p : tariff_code) (k : string) :
  TariffProcessor._process_other_tariffs tariffs = Ok out →
  p ∈ tariffs → TariffProcessor.is_penalty p = Ok true →
  excluded_by p k → exclusion_code tariffs k →
  (∀ key entry, (key, entry) ∈ excluded_penalties out → penalty entry = p →
     ∀ e, e ∈ tariffs → TariffProcessor.is_exclusion e = Ok true →
          TariffProcessor.code_of e = Ok k → e ∈ exclusions entry)
  ∧ (∀ e, e ∈ tariffs → TariffProcessor.code_of e = Ok k → ¬ in_neutral out e)
  ∧ ((∀ q, q ∈ tariffs → TariffProcessor.is_penalty q = Ok true →
           marked_excluded tariffs q →
           TariffProcessor.code_of q = TariffProcessor.code_of p → q = p) →
     ∃ key entry, (key, entry) ∈ excluded_penalties out ∧ penalty entry = p).
Proof.
  intros H Hp Hpen Hby Hcode.
  destruct (process_summary _ _ H) as (Hact & Hneu & Hexc & Hnd).
  split; [|split].
  - intros key entry Hin <- e He Hex Hk.
    destruct (Hexc _ _ Hin) as (_ & _ & _ & _ & Hgroup).
    apply Hgroup. eauto.
  - intros e He Hk (_ & _ & c & Hc & Hnone)%Hneu.
    apply Hnone. exists p. assert (c = k) as -> by congruence. done.
  - intros Honly. apply (process_cover _ _ p H Hp Hpen); [|exact Honly].
    by exists k.
Qed.

(** C10: [excluded_penalties] is keyed by penalty code.  When two distinct
    penalty records of the same code [k] are both marked excluded, [p1]
    before [p2] in the input and no excluded penalty of code [k] after [p2],
    the one entry under [k] is that of [p2], and [p1] is in none of the
    three buckets. *)
Theorem later_excluded_penalty_overwrites (l1 : list tariff_code) (p1 : tariff_code)
    (l2 : list tariff_code) (p2 : tariff_code) (l3 : list tariff_code)
    (out : processed) (k : string) :
  TariffProcessor._process_other_tariffs (l1 ++ p1 :: l2 ++ p2 :: l3) = Ok out →
  p1 ≠ p2 →
  TariffProcessor.is_penalty p1 = Ok true →
  TariffProcessor.is_penalty p2 = Ok true →
  TariffProcessor.code_of p1 = Ok k →
  TariffProcessor.code_of p2 = Ok k →
  marked_excluded (l1 ++ p1 :: l2 ++ p2 :: l3) p1 →
  marked_excluded (l1 ++ p1 :: l2 ++ p2 :: l3) p2 →
  (∀ q, q ∈ l3 → TariffProcessor.is_penalty q = Ok true →
        TariffProcessor.code_of q = Ok k →
        ¬ marked_excluded (l1 ++ p1 :: l2 ++ p2 :: l3) q) →
  (∃ entry, PyDict.get k (excluded_penalties out) = Some entry
            ∧ penalty entry = p2
            ∧ ∀ entry', (k, entry') ∈ excluded_penalties out → entry' = entry)
  ∧ ¬ in_active out p1 ∧ ¬ in_excluded out p1 ∧ ¬ in_neutral out p1.
Proof.
  intros H Hne Hpen1 Hpen2 Hk1 Hk2 Hm1 Hm2 Hlast.
  destruct (process_summary _ _ H) as (Hact & Hneu & Hexc & Hnd).
  assert (Hsplit : l1 ++ p1 :: l2 ++ p2 :: l3 = (l1 ++ p1 :: l2) ++ p2 :: l3).
  { by rewrite <- app_assoc. }
  assert (Hentry : ∃ entry, PyDict.get k (excluded_penalties out) = Some entry
                            ∧ penalty entry = p2).
  { rewrite Hsplit in H, Hm2, Hlast.
    apply (process_writes _ _ _ _ _ H Hpen2 Hk2 Hm2).
    intros q Hq Hqpen Hqm Hqk. by destruct (Hlast q Hq Hqpen Hqk). }
  destruct Hentry as (entry & Hget & Hp2).
  assert (Hunique : ∀ entry', (k, entry') ∈ excluded_penalties out → entry' = entry).
  { intros entry' Hin. apply (PyDict_elem_of_get _ _ _ Hnd) in Hin. congruence. }
  split; [eauto|]. split; [|split].
  - intros (_ & _ & Hnot)%Hact. done.
  - intros (key & entry' & Hin & Hr).
    destruct (Hexc _ _ Hin) as (_ & _ & Hkey & _ & Hgroup).
    destruct Hr as [-> | Hr].
    + assert (key = k) as -> by congruence.
      apply Hunique in Hin as ->. congruence.
    + apply Hgroup in Hr as (_ & Hex & _). eauto using penalty_not_exclusion.
  - intros (_ & Hex & _)%Hneu. eauto using penalty_not_exclusion.
Qed.

(** ** The theorems at concrete inputs *)

Lemma loading_date_required_witness :
  ∃ out, TariffProcessor._is_code_applicable iso_prefix_date sample_conditional
           "CN" "OCEAN" (mkdate 2025 6 1) None = Ok (false, out).
Proof.
  apply (loading_date_required iso_prefix_date sample_conditional
           sample_loading_condition).
  - apply elem_of_cons. right. apply elem_of_cons. by left.
  - reflexivity.
Defined.

Lemma effective_window_inclusive_witness :
  (∃ out, TariffProcessor._is_code_applicable iso_prefix_date sample_neutral
            "CN" "ANY" (mkdate 2019 12 31) None = Ok (false, out))
  ∧ (∃ out, TariffProcessor._is_code_applicable iso_prefix_date sample_neutral
              "CN" "ANY" (mkdate 2031 1 1) None = Ok (false, out))
  ∧ TariffProcessor._is_code_applicable iso_prefix_date sample_neutral
      "CN" "ANY" (mkdate 2030 12 31) None
    = TariffProcessor.catch_applicability sample_neutral
        (TariffProcessor.country_and_conditions iso_prefix_date sample_neutral
           "CN" "ANY" None).
Proof.
  split; [|split].
  - apply (proj1 (effective_window_inclusive iso_prefix_date sample_neutral
                    "CN" "ANY" (mkdate 2019 12 31) None) (mkdate 2020 1 1));
      reflexivity.
  - apply (proj1 (proj2 (effective_window_inclusive iso_prefix_date sample_neutral
                           "CN" "ANY" (mkdate 2031 1 1) None)) (mkdate 2030 12 31));
      reflexivity.
  - apply (proj2 (proj2 (proj2 (effective_window_inclusive iso_prefix_date
                                  sample_neutral "CN" "ANY" (mkdate 2030 12 31) None)))
             (mkdate 2020 1 1) (mkdate 2030 12 31));
      [reflexivity | reflexivity | reflexivity | right; reflexivity].
Defined.

Lemma transport_value_ignored_for_ANY_witness :
  TariffProcessor._is_code_applicable iso_prefix_date
    (with_conditions sample_conditional
       (Some [with_fieldShouldEqual (Some "AIR") sample_transport_condition;
              sample_loading_condition]))
    "CN" "ANY" (mkdate 2025 6 1) (Some (mkdate 2025 2 1))
  = TariffProcessor._is_code_applicable iso_prefix_date sample_conditional
      "CN" "ANY" (mkdate 2025 6 1) (Some (mkdate 2025 2 1)).
Proof.
  apply (transport_value_ignored_for_ANY iso_prefix_date sample_conditional).
  simpl. constructor.
  - right. split; [reflexivity | by exists (Some "AIR")].
  - constructor; [by left | constructor].
Defined.

Lemma bad_dates_fail_closed_witness :
  ∃ e, TariffProcessor._is_code_applicable iso_prefix_date sample_undated
         "CN" "ANY" (mkdate 2025 6 1) None
       = Ok (false, [WarnApplicability (Some "9903.99.99") e])
       ∧ (TariffProcessor.analyze_tariffs iso_prefix_date
            [sample_primary; sample_undated; sample_neutral]
            "CN" "ANY" (mkdate 2025 6 1) None).1
         = (TariffProcessor.analyze_tariffs iso_prefix_date
              [sample_primary; sample_neutral]
              "CN" "ANY" (mkdate 2025 6 1) None).1.
Proof.
  destruct (bad_dates_fail_closed iso_prefix_date sample_undated
              "CN" "ANY" (mkdate 2025 6 1) None) as (e & He & Hrest).
  - left. exact I.
  - exists e. split; [exact He|].
    destruct (Hrest [sample_primary] [sample_neutral]) as [_ Han].
    apply Han. discriminate.
Defined.

Lemma missing_primary_is_structured_error_witness :
  Route.calculate_tariff_route iso_prefix_date (λ _, Some [sample_neutral])
    sample_request
  = Route.HTTPException 400
      (Route.AnalysisFailed "No primary COMMODITY_CODE found.").
Proof.
  apply (proj2 (missing_primary_is_structured_error iso_prefix_date
                  [sample_neutral] "CN" "ANY" (mkdate 2025 6 1) None
                  ltac:(repeat constructor; discriminate))
           (λ _, Some [sample_neutral]) sample_request "ANY" [] []).
  - reflexivity.
  - discriminate.
  - reflexivity.
  - vm_compute. left.
  - reflexivity.
Defined.


Lemma buckets_disjoint_and_cover_witness :
  ∃ out,
    TariffProcessor._process_other_tariffs
      [sample_penalty_first; sample_neutral; sample_exclusion_twin] = Ok out
    ∧ (in_active out sample_exclusion_twin
       ∨ in_excluded out sample_exclusion_twin
       ∨ in_neutral out sample_exclusion_twin)
    ∧ ¬ (in_excluded out sample_exclusion_twin
         ∧ in_neutral out sample_exclusion_twin).
Proof.
  destruct (TariffProcessor._process_other_tariffs
              [sample_penalty_first; sample_neutral; sample_exclusion_twin])
    as [out|e] eqn:E; [|vm_compute in E; discriminate].
  exists out. split; [reflexivity|].
  destruct (buckets_disjoint_and_cover _ _ E) as (_ & Hdisjoint & Hcover).
  split.
  - apply Hcover.
    + intros p q Hp Hq Hpen Hqen _ _ _.
      apply elem_of_cons in Hp as [-> | Hp];
        [|apply elem_of_cons in Hp as [-> | Hp];
          [discriminate | apply list_elem_of_singleton in Hp as ->; discriminate]].
      apply elem_of_cons in Hq as [-> | Hq]; [reflexivity|].
      apply elem_of_cons in Hq as [-> | Hq];
        [discriminate | apply list_elem_of_singleton in Hq as ->; discriminate].
    + apply elem_of_cons. right. apply elem_of_cons. right.
      apply elem_of_cons. by left.
    + intros x [= <-]. discriminate.
  - apply Hdisjoint.
Defined.

Lemma exclusion_groups_complete_witness :
  ∃ out,
    TariffProcessor._process_other_tariffs
      [sample_penalty_first; sample_neutral; sample_exclusion_twin] = Ok out
    ∧ (∀ key entry, (key, entry) ∈ excluded_penalties out →
         penalty entry = sample_penalty_first →
         sample_neutral ∈ exclusions entry ∧ sample_exclusion_twin ∈ exclusions entry)
    ∧ ¬ in_neutral out sample_exclusion_twin
    ∧ ∃ key entry, (key, entry) ∈ excluded_penalties out
                   ∧ penalty entry = sample_penalty_first.
Proof.
  destruct (TariffProcessor._process_other_tariffs
              [sample_penalty_first; sample_neutral; sample_exclusion_twin])
    as [out|e] eqn:E; [|vm_compute in E; discriminate].
  exists out. split; [reflexivity|].
  assert (Hfirst : sample_penalty_first
                   ∈ [sample_penalty_first; sample_neutral; sample_exclusion_twin]).
  { apply elem_of_cons. by left. }
  assert (Hneutral : sample_neutral
                     ∈ [sample_penalty_first; sample_neutral; sample_exclusion_twin]).
  { apply elem_of_cons. right. apply elem_of_cons. by left. }
  assert (Htwin : sample_exclusion_twin
                  ∈ [sample_penalty_first; sample_neutral; sample_exclusion_twin]).
  { apply elem_of_cons. right. apply elem_of_cons. right. apply elem_of_cons. by left. }
  destruct (exclusion_groups_complete _ out sample_penalty_first "9903.88.69" E)
    as (Hgroup & Hnot & Hentry).
  - exact Hfirst.
  - reflexivity.
  - exists {| code := Some "9903.88.69" |}. split; [|reflexivity].
    apply elem_of_cons. by left.
  - exists sample_neutral. split; [exact Hneutral|]. split; reflexivity.
  - split; [|split].
    + intros key entry Hin Hp. split; apply (Hgroup key entry Hin Hp);
        done || reflexivity.
    + apply Hnot; [exact Htwin | reflexivity].
    + apply Hentry. intros q Hq Hpen _ _.
      apply elem_of_cons in Hq as [-> | Hq]; [reflexivity|].
      apply elem_of_cons in Hq as [-> | Hq];
        [discriminate | apply list_elem_of_singleton in Hq as ->; discriminate].
Defined.

Lemma later_excluded_penalty_overwrites_witness :
  ∃ out,
    TariffProcessor._process_other_tariffs
      [sample_penalty_first; sample_penalty_second; sample_neutral] = Ok out
    ∧ (∃ entry, PyDict.get "9903.88.01" (excluded_penalties out) = Some entry
                ∧ penalty entry = sample_penalty_second)
    ∧ ¬ in_active out sample_penalty_first
    ∧ ¬ in_excluded out sample_penalty_first
    ∧ ¬ in_neutral out sample_penalty_first.
Proof.
  destruct (TariffProcessor._process_other_tariffs
              [sample_penalty_first; sample_penalty_second; sample_neutral])
    as [out|e] eqn:E; [|vm_compute in E; discriminate].
  exists out. split; [reflexivity|].
  assert (Hmarked : ∀ p,
            excludedByCodes p = Some [{| code := Some "9903.88.69" |}] →
            marked_excluded
              ([] ++ sample_penalty_first :: [] ++ sample_penalty_second
                  :: [sample_neutral]) p).
  { intros p Hp. exists "9903.88.69". split.
    - exists {| code := Some "9903.88.69" |}. rewrite Hp. split; [|reflexivity].
      apply elem_of_cons. by left.
    - exists sample_neutral. split; [|split; reflexivity].
      apply elem_of_cons. right. apply elem_of_cons. right.
      apply elem_of_cons. by left. }
  destruct (later_excluded_penalty_overwrites [] sample_penalty_first []
              sample_penalty_second [sample_neutral] out "9903.88.01" E)
    as ((entry & Hget & Hp & _) & Hrest).
  - discriminate.
  - reflexivity.
  - reflexivity.
  - reflexivity.
  - reflexivity.
  - by apply Hmarked.
  - by apply Hmarked.
  - intros q Hq Hpen. apply list_elem_of_singleton in Hq as ->. discriminate.
  - split; [eauto | exact Hrest].
Defined.

(** ** Checks on concrete inputs *)

Example extract_values_mixed :
  extract_values "10% + $0.52/kg" = ["10%"; "0.52"].
Proof. reflexivity. Qed.

Example extract_values_percent : extract_values "25%" = ["25%"].
Proof. reflexivity. Qed.

Example extract_values_free : extract_values "Free" = [].
Proof. reflexivity. Qed.

Example extract_values_dots : extract_values "1.2.3%" = ["1.2"; "3%"].
Proof. reflexivity. Qed.

Example float_token : float (replace "%" "" "7.5%") = Ok (decimal 75 10).
Proof. reflexivity. Qed.

Example float_not_a_number : float "N/A" = Raise ValueError.
Proof. reflexivity. Qed.

(** 0.125 is a double, halfway between 0.12 and 0.13: the tie goes to the
    even digit. *)
Example format_2f_half_even : format_2f (decimal 125 1000) = "0.12".
Proof. vm_compute. reflexivity. Qed.

Example format_2f_rounds_up : format_2f (decimal 12346 1000) = "12.35".
Proof. vm_compute. reflexivity. Qed.

(** The double nearest to 2.675 is below it. *)
Example format_2f_of_the_double : format_2f (decimal 2675 1000) = "2.67".
Proof. vm_compute. reflexivity. Qed.

(** The sums are those of binary64: 0.1 + 0.2 is not the double of 0.3. *)
Example sum_of_doubles :
  sum_from fzero ["0.1%"; "0.2%"] = S754_finite false 5404319552844596 (-54)
  ∧ decimal 3 10 = S754_finite false 5404319552844595 (-54).
Proof. split; vm_compute; reflexivity. Qed.

(** 7% of 100 is 7.000000000000001: the division by 100 comes first and is
    rounded. *)
Example duty_amount_is_rounded :
  Route.total_duties (figures (decimal 7 1) (double_of_Z 100) (double_of_Z 100))
  = S754_finite false 7881299347898369 (-50)
  ∧ double_of_Z 7 = S754_finite false 7881299347898368 (-50).
Proof. split; vm_compute; reflexivity. Qed.

Example basic_rate_free_any_case :
  Route.basic_rate_value (JStr "FREE") = Ok fzero.
Proof. reflexivity. Qed.

Example replace_zulu :
  replace "Z" "+00:00" "2020-01-01T00:00:00Z" = "2020-01-01T00:00:00+00:00".
Proof. reflexivity. Qed.

(** One active penalty of rate "25%" on a primary rate "0%", base cost 100:
    duty rate "25.00%", total cost 125. *)
Example scenario_B :
  ∃ data td r,
    Route.calculate_tariff_route iso_prefix_date
      (λ _, Some [sample_record "COMMODITY_CODE" "0101300000" "Asses" "0%" None [];
                  sample_record "TARIFF" "9903.88.01" "Section 301" "25%"
                    (Some 25%Q) []])
      {| Route.hts_code := "0101300000"; Route.country := ["CN"];
         Route.entry_date := mkdate 2025 6 1; Route.loading_date := None;
         Route.mode_of_transport := ["ocean"];
         Route.base_cost := double_of_Z 100 |}
    = Route.JSONResponse data td r
    ∧ Route.duty_rate r = "25.00%" ∧ Route.total_cost r = double_of_Z 125.
Proof.
  eexists _, _, _. split; [vm_compute; reflexivity|]. split; reflexivity.
Qed.

(** A rate too large for a double is read as +inf; the duty amount is not
    finite, the response is not serialised and the route answers 500. *)
Example overflowing_rate_is_refused :
  Route.calculate_tariff_route iso_prefix_date
    (λ _, Some [sample_record "COMMODITY_CODE" "0101300000" "Asses"
                  (String.concat "" (replicate 310 "9") +:+ "%") None []])
    sample_request
  = Route.HTTPException 500 (Route.UnexpectedError ValueError).
Proof. vm_compute. reflexivity. Qed.

(** The excluded penalty's own rate is part of the duty rate: 5 + 25. *)
Example excluded_penalty_rate_is_added :
  ∃ data td r,
    Route.calculate_tariff_route iso_prefix_date
      (λ _, Some [sample_primary; sample_penalty_first; sample_neutral])
      sample_request
    = Route.JSONResponse data td r
    ∧ Route.duty_rate r = "30.00%".
Proof.
  eexists _, _, _. split; [vm_compute; reflexivity|]. reflexivity.
Qed.

Example sort_is_stable :
  map label
    (TariffProcessor.sort_by_priority
       [sample_penalty_first; sample_undated; sample_penalty_second])
  = [Some "Section 301, first list"; Some "Undated"; Some "Section 301, revised"].
Proof. reflexivity. Qed.

(** ** The functions return

    The properties above of [_process_other_tariffs] and of the calculation
    are stated on their results; these lemmas give the inputs on which there
    is a result. *)

Lemma filter_result_returns {A : Type} (p : A → result bool) (l : list A) :
  (∀ x, x ∈ l → ∃ b, p x = Ok b) → ∃ xs, filter_result p l = Ok xs.
Proof.
  induction l as [|a rest IH]; intros Hp; simpl; [eauto|].
  destruct (Hp a) as [b ->]; [by left|].
  destruct IH as [xs ->]; [intros; apply Hp; by right|].
  simpl. eauto.
Qed.

Lemma map_result_returns {A B : Type} (f : A → result B) (l : list A) :
  (∀ x, x ∈ l → ∃ y, f x = Ok y) → ∃ ys, map_result f l = Ok ys.
Proof.
  induction l as [|a rest IH]; intros Hf; simpl; [eauto|].
  destruct (Hf a) as [y ->]; [by left|].
  destruct IH as [ys ->]; [intros; apply Hf; by right|].
  simpl. eauto.
Qed.

Lemma match_exclusions_returns (codes : gset string) (excl : list tariff_code)
    (ebs : list code_ref) (st : TariffProcessor.match_state) :
  (∀ e, e ∈ excl → ∃ k, TariffProcessor.code_of e = Ok k) →
  ∃ st', TariffProcessor.match_exclusions codes excl ebs st = Ok st'.
Proof.
  intros Hexcl. revert st.
  induction ebs as [|eb rest IH]; intros [[b m] u]; simpl; [eauto|].
  destruct (code eb) as [k|]; [|apply IH].
  case_bool_decide; [|apply IH].
  destruct (filter_result_returns (TariffProcessor.has_code k) excl) as [found ->].
  { intros e He. destruct (Hexcl e He) as [c Hc].
    unfold TariffProcessor.has_code. rewrite Hc. simpl. eauto. }
  simpl. apply IH.
Qed.

Lemma resolve_penalties_returns (codes : gset string) (excl pens : list tariff_code)
    (st : TariffProcessor.resolve_state) :
  (∀ e, e ∈ excl → ∃ k, TariffProcessor.code_of e = Ok k) →
  (∀ p, p ∈ pens → ∃ k, TariffProcessor.code_of p = Ok k) →
  ∃ st', TariffProcessor.resolve_penalties codes excl pens st = Ok st'.
Proof.
  intros Hexcl. revert st.
  induction pens as [|p rest IH]; intros [[fin d] u] Hpens; simpl; [eauto|].
  destruct (Hpens p) as [k ->]; [by left|]. simpl.
  destruct (match_exclusions_returns codes excl (default [] (excludedByCodes p))
              (false, [], u) Hexcl) as [[[b m] u1] ->].
  simpl. destruct b; apply IH; intros; apply Hpens; by right.
Qed.

(** [_process_other_tariffs] returns when every record has a [rateInfo] and
    a code. *)
Lemma process_returns (tariffs : list tariff_code) :
  (∀ r, r ∈ tariffs → ∃ x, TariffProcessor.penalty_rate r = Ok x) →
  (∀ r, r ∈ tariffs → ∃ k, TariffProcessor.code_of r = Ok k) →
  ∃ out, TariffProcessor._process_other_tariffs tariffs = Ok out.
Proof.
  intros Hrate Hcode. unfold TariffProcessor._process_other_tariffs.
  destruct (filter_result_returns TariffProcessor.is_penalty tariffs) as [pens Hpens].
  { intros r Hr. destruct (Hrate r Hr) as [x Hx].
    unfold TariffProcessor.is_penalty. rewrite Hx. simpl. eauto. }
  destruct (filter_result_returns TariffProcessor.is_exclusion tariffs) as [excl Hexcl].
  { intros r Hr. destruct (Hrate r Hr) as [x Hx].
    unfold TariffProcessor.is_exclusion. rewrite Hx. simpl. eauto. }
  assert (Hec : ∀ e, e ∈ excl → ∃ k, TariffProcessor.code_of e = Ok k).
  { intros e [He _]%(filter_result_elem _ _ _ Hexcl). auto. }
  assert (Hpc : ∀ p, p ∈ pens → ∃ k, TariffProcessor.code_of p = Ok k).
  { intros p [Hp _]%(filter_result_elem _ _ _ Hpens). auto. }
  destruct (map_result_returns TariffProcessor.code_of excl Hec) as [code_list Hcl].
  rewrite Hpens, Hexcl. simpl. rewrite Hcl. simpl.
  destruct (resolve_penalties_returns (list_to_set code_list) excl pens ([], [], ∅)
              Hec Hpc) as [[[fin d] used] ->].
  simpl.
  match goal with |- context [filter_result ?f excl] =>
    destruct (filter_result_returns f excl) as [neutral ->] end.
  { intros e He. destruct (Hec e He) as [k ->]. simpl. eauto. }
  simpl. eauto.
Qed.

Lemma basic_rate_value_returns (s : string) :
  ∃ q, Route.basic_rate_value (JStr s) = Ok q.
Proof.
  unfold Route.basic_rate_value. destruct (String.eqb (lower s) "free"); [eauto|].
  simpl. destruct (extract_values s) as [|v rest] eqn:E; [eauto|].
  apply (extract_values_numbers s). rewrite E. by left.
Qed.

(** The calculation returns on the data [get_data] extracts from a report
    of [ReportBuilder]. *)
Lemma calculate_total_tariff_returns (a : analysis_ok)
    (base_cost request_base_cost : double) :
  ∃ r, Route.calculate_total_tariff (tariff_data_of a) base_cost request_base_cost
       = Ok r.
Proof.
  unfold Route.calculate_total_tariff, Route.accumulate, tariff_data_of. simpl.
  match goal with |- context [Route.basic_rate_value (JStr ?s)] =>
    destruct (basic_rate_value_returns s) as [q ->] end.
  simpl. eauto.
Qed.

(** * Further properties *)

(** ** [extract_values] *)

Lemma append_empty_r (s : string) : s +:+ EmptyString = s.
Proof.
  induction s as [|a rest IH]; [done|].
  change (String a (rest +:+ EmptyString) = String a rest). by rewrite IH.
Qed.

Lemma snoc_append (pre : string) (c : ascii) (s : string) :
  snoc pre c +:+ s = pre +:+ String c s.
Proof.
  unfold snoc. induction pre as [|a rest IH]; [done|].
  change (String a ((rest +:+ String c EmptyString) +:+ s)
          = String a (rest +:+ String c s)).
  by rewrite IH.
Qed.

Lemma findall_int_digits (d pre rest : string) :
  all_digits d = true →
  findall_from (InInt pre) (d +:+ rest) = findall_from (InInt (pre +:+ d)) rest.
Proof.
  revert pre. induction d as [|c d IH]; intros pre Hd; simpl in *.
  - by rewrite append_empty_r.
  - apply andb_true_iff in Hd as [Hc Hd]. rewrite Hc, IH by done.
    by rewrite snoc_append.
Qed.

Lemma findall_frac_digits (d pre rest : string) :
  all_digits d = true →
  findall_from (InFrac pre) (d +:+ rest) = findall_from (InFrac (pre +:+ d)) rest.
Proof.
  revert pre. induction d as [|c d IH]; intros pre Hd; simpl in *.
  - by rewrite append_empty_r.
  - apply andb_true_iff in Hd as [Hc Hd]. rewrite Hc, IH by done.
    by rewrite snoc_append.
Qed.

Lemma findall_idle_digits (d rest : string) :
  all_digits d = true → d ≠ EmptyString →
  findall_from Idle (d +:+ rest) = findall_from (InInt d) rest.
Proof.
  destruct d as [|c d]; [done|]. simpl. intros [Hc Hd]%andb_true_iff _.
  rewrite Hc. by rewrite findall_int_digits.
Qed.

Lemma dot_shape_split (seen : bool) (t : string) :
  dot_shape seen t = true →
  ∃ d1 d2, t = d1 +:+ String "." d2 ∧ all_digits d1 = true ∧ all_digits d2 = true
           ∧ (seen = true ∨ d1 ≠ EmptyString).
Proof.
  revert seen. induction t as [|a rest IH]; intros seen Hs; simpl in Hs; [done|].
  destruct (is_digit a) eqn:Ha.
  - destruct (IH true Hs) as (d1 & d2 & -> & H1 & H2 & _).
    exists (String a d1), d2. simpl. rewrite Ha, H1. auto.
  - apply andb_true_iff in Hs as [[Hdot ->]%andb_true_iff Hd].
    apply Ascii.eqb_eq in Hdot as ->. exists EmptyString, rest. auto.
Qed.

(** The tokens [findall_from] returns have the shape of the pattern. *)
Lemma findall_from_shape (s : string) (st : scan_state) :
  state_ok st → ∀ tok, tok ∈ findall_from st s → token_shape tok.
Proof.
  revert st. induction s as [|c rest IH]; intros st Hst tok Hin; simpl in Hin.
  - destruct st as [|t|t]; [by apply elem_of_nil in Hin | |];
      apply list_elem_of_singleton in Hin as ->; exists t; simpl in Hst; auto.
  - destruct st as [|t|t].
    + destruct (is_digit c) eqn:Hc; (eapply IH; [|exact Hin]); simpl; [|done].
      by rewrite Hc.
    + destruct Hst as [Hd Hne]. destruct (is_digit c) eqn:Hc.
      { eapply IH; [|exact Hin]. simpl. rewrite all_digits_snoc, Hd, Hc.
        split; [done|]. by destruct t. }
      destruct (Ascii.eqb c ".") eqn:Hdot.
      { apply Ascii.eqb_eq in Hdot as ->. eapply IH; [|exact Hin]. simpl.
        apply dot_shape_snoc_dot; auto. }
      destruct (Ascii.eqb c "%") eqn:Hpc.
      { apply Ascii.eqb_eq in Hpc as ->.
        apply elem_of_cons in Hin as [-> | Hin]; [|by eapply IH; [|exact Hin]].
        exists t. auto. }
      apply elem_of_cons in Hin as [-> | Hin]; [|by eapply IH; [|exact Hin]].
      exists t. auto.
    + simpl in Hst. destruct (is_digit c) eqn:Hc.
      { eapply IH; [|exact Hin]. simpl. by apply dot_shape_snoc_digit. }
      destruct (Ascii.eqb c "%") eqn:Hpc.
      { apply Ascii.eqb_eq in Hpc as ->.
        apply elem_of_cons in Hin as [-> | Hin]; [|by eapply IH; [|exact Hin]].
        exists t. auto. }
      apply elem_of_cons in Hin as [-> | Hin]; [|by eapply IH; [|exact Hin]].
      exists t. auto.
Qed.

Lemma extract_values_core (t rest : string) :
  (all_digits t = true ∧ t ≠ EmptyString) ∨ dot_shape false t = true →
  ∃ st, findall_from Idle (t +:+ rest) = findall_from st rest
        ∧ (st = InInt t ∨ st = InFrac t).
Proof.
  intros [[Hd Hne] | Hs].
  - exists (InInt t). split; [by apply findall_idle_digits | by left].
  - apply dot_shape_split in Hs as (d1 & d2 & -> & H1 & H2 & [? | Hne]); [done|].
    exists (InFrac (d1 +:+ String "." d2)). split; [|by right].
    assert (Happ : (d1 +:+ String "." d2) +:+ rest = d1 +:+ String "." (d2 +:+ rest)).
    { clear. induction d1 as [|a d1 IH]; [done|].
      change (String a ((d1 +:+ String "." d2) +:+ rest)
              = String a (d1 +:+ String "." (d2 +:+ rest))).
      by rewrite IH. }
    rewrite Happ, findall_idle_digits by done. simpl.
    destruct (is_digit ".") eqn:E; [discriminate|]. simpl.
    rewrite findall_frac_digits by done. by rewrite snoc_append.
Qed.

(** X1: extracting from an extracted token gives back that token alone. *)
Theorem extract_values_idempotent (s tok : string) :
  tok ∈ extract_values s → extract_values tok = [tok].
Proof.
  intros Hin. apply (findall_from_shape s Idle I) in Hin as (t & Htok & Ht).
  unfold extract_values.
  destruct Htok as [-> | ->].
  - destruct (extract_values_core t EmptyString Ht) as (st & Heq & Hst).
    rewrite append_empty_r in Heq. rewrite Heq.
    destruct Hst as [-> | ->]; reflexivity.
  - destruct (extract_values_core t (String "%" EmptyString) Ht) as (st & Heq & Hst).
    unfold snoc. rewrite Heq.
    destruct Hst as [-> | ->]; reflexivity.
Qed.

Lemma extract_values_idempotent_witness :
  extract_values "0.52" = ["0.52"] ∧ extract_values "10%" = ["10%"].
Proof.
  assert (Htokens : extract_values "10% + $0.52/kg" = ["10%"; "0.52"])
    by (vm_compute; reflexivity).
  split.
  - apply (extract_values_idempotent "10% + $0.52/kg").
    rewrite Htokens. apply elem_of_cons. right. apply elem_of_cons. by left.
  - apply (extract_values_idempotent "10% + $0.52/kg").
    rewrite Htokens. apply elem_of_cons. by left.
Defined.

Lemma findall_from_separator (c : ascii) (s1 s2 : string) (st : scan_state) :
  is_separator c = true →
  findall_from st (s1 +:+ String c s2) = findall_from st s1 ++ findall_from Idle s2.
Proof.
  intros Hsep. unfold is_separator in Hsep.
  apply andb_true_iff in Hsep as [[Hd Hdot]%andb_true_iff Hpc].
  apply negb_true_iff in Hd, Hdot, Hpc.
  revert st. induction s1 as [|a s1 IH]; intros st.
  - simpl. rewrite Hd, ?Hdot, ?Hpc. by destruct st; rewrite ?Hdot, ?Hpc.
  - simpl. destruct st as [|t|t];
      repeat (match goal with |- context [if ?b then _ else _] => destruct b end);
      rewrite ?IH; reflexivity.
Qed.

(** X2: a character that is no digit, dot or percent sign separates the
    tokens: those of [s1 c s2] are those of [s1] followed by those of
    [s2]. *)
Theorem extract_values_separator (c : ascii) (s1 s2 : string) :
  is_separator c = true →
  extract_values (s1 +:+ String c s2) = extract_values s1 ++ extract_values s2.
Proof. apply findall_from_separator. Qed.

Lemma extract_values_separator_witness :
  extract_values ("2.5%" +:+ String " " "+ 10%")
  = extract_values "2.5%" ++ extract_values "+ 10%".
Proof. apply extract_values_separator. reflexivity. Defined.

Lemma findall_from_busy (s : string) (st : scan_state) :
  st ≠ Idle → findall_from st s ≠ [].
Proof.
  revert st. induction s as [|c rest IH]; intros st Hst; destruct st as [|t|t];
    try done; simpl;
    repeat (match goal with |- context [if ?b then _ else _] => destruct b end);
    try done; by apply IH.
Qed.

Lemma extract_values_no_digit (s : string) :
  extract_values s = [] ↔ no_digit s = true.
Proof.
  unfold extract_values. induction s as [|c rest IH]; simpl; [done|].
  destruct (is_digit c); simpl.
  - split; [|done]. intros H. by apply findall_from_busy in H.
  - exact IH.
Qed.

(** X3: a description of ASCII characters yields no token exactly when it
    holds no digit. *)
Theorem extract_values_nil_iff (s : string) :
  ascii_only s = true →
  extract_values s = [] ↔ no_digit s = true.
Proof. intros _. apply extract_values_no_digit. Qed.

Lemma digit_val_nonneg (c : ascii) : is_digit c = true → (0 <= digit_val c)%Z.
Proof.
  unfold is_digit, digit_val. intros [H _]%andb_true_iff.
  apply Nat.leb_le in H. lia.
Qed.

(** *** Signs of binary64 results *)

Lemma shr_1_nonneg (mrs : shr_record) :
  (0 <= shr_m mrs)%Z → (0 <= shr_m (shr_1 mrs))%Z.
Proof. destruct mrs as [[|[p|p|]|[p|p|]] r s]; simpl; lia. Qed.

Lemma iter_shr_1_nonneg (n : positive) (mrs : shr_record) :
  (0 <= shr_m mrs)%Z → (0 <= shr_m (SpecFloat.iter_pos shr_1 n mrs))%Z.
Proof.
  revert mrs. induction n as [n IH|n IH|]; intros mrs H; simpl.
  - apply IH, IH. by apply shr_1_nonneg.
  - by apply IH, IH.
  - by apply shr_1_nonneg.
Qed.

Lemma shr_fexp_nonneg (m e : Z) (l : location) :
  (0 <= m)%Z → (0 <= shr_m (shr_fexp 53 1024 m e l).1)%Z.
Proof.
  intros H. unfold shr_fexp, shr.
  assert (Hrec : (0 <= shr_m (shr_record_of_loc m l))%Z).
  { by destruct l as [|[]]. }
  destruct (_ - e)%Z; simpl; [done | by apply iter_shr_1_nonneg | done].
Qed.

Lemma binary_round_aux_sign (s : bool) (mx ex : Z) (lx : location) :
  (0 <= mx)%Z → sign_is s (binary_round_aux 53 1024 s mx ex lx).
Proof.
  intros H. unfold binary_round_aux.
  pose proof (shr_fexp_nonneg mx ex lx H) as H1.
  destruct (shr_fexp 53 1024 mx ex lx) as [mrs' e']. simpl in H1.
  assert (H2 : (0 <= round_nearest_even (shr_m mrs') (loc_of_shr_record mrs'))%Z).
  { unfold round_nearest_even.
    destruct (loc_of_shr_record mrs') as [|[]]; try done; [|lia].
    destruct (Z.even _); [done | lia]. }
  pose proof (shr_fexp_nonneg _ e' loc_Exact H2) as H3.
  destruct (shr_fexp 53 1024 _ e' loc_Exact) as [mrs'' e'']. simpl in H3.
  destruct (shr_m mrs'') as [|m|m]; simpl; [done| |lia].
  by destruct (_ <=? _)%Z.
Qed.

Lemma binary_round_sign (s : bool) (m : positive) (e : Z) :
  sign_is s (binary_round 53 1024 s m e).
Proof.
  unfold binary_round. destruct (shl_align _ _ _) as [mz ez].
  by apply binary_round_aux_sign.
Qed.

Lemma fdiv_finite_sign (sx sy : bool) (mx my : positive) (ex ey : Z) :
  sign_is (xorb sx sy) (fdiv (S754_finite sx mx ex) (S754_finite sy my ey)).
Proof.
  unfold fdiv, SFdiv, SFdiv_core_binary.
  match goal with |- context [Z.div_eucl ?a ?b] =>
    assert (Ha : (0 <= a)%Z); [|pose proof (Z.div_pos a b Ha ltac:(done)) as Hq;
                                 unfold Z.div in Hq;
                                 destruct (Z.div_eucl a b) as [q r]] end.
  { destruct (_ - _ - _)%Z; [done | by apply Z.shiftl_nonneg | done]. }
  by apply binary_round_aux_sign.
Qed.

Lemma sign_is_not_negative (x : double) : sign_is false x → not_negative x = true.
Proof. destruct x as [[]|[]| |[] m e]; simpl; done. Qed.

Lemma not_negative_sign (x : double) : not_negative x = true → sign_is false x.
Proof. destruct x as [[]|[]| |[] m e]; simpl; done. Qed.

Lemma decimal_not_negative (n : Z) (scale : positive) :
  not_negative (decimal n scale) = true.
Proof.
  destruct n as [|m|m]; try done. apply sign_is_not_negative.
  apply (fdiv_finite_sign false false).
Qed.

Lemma fadd_not_negative (x y : double) :
  not_negative x = true → not_negative y = true → not_negative (fadd x y) = true.
Proof.
  destruct x as [[]|[]| |[] mx ex], y as [[]|[]| |[] my ey]; try done.
  intros _ _. apply sign_is_not_negative. unfold fadd, SFadd. simpl.
  apply binary_round_sign.
Qed.

Lemma fdiv_hundred_not_negative (x : double) :
  not_negative x = true → not_negative (fdiv x (double_of_Z 100)) = true.
Proof.
  assert (H100 : ∃ m e, double_of_Z 100 = S754_finite false m e).
  { eexists _, _. vm_compute. reflexivity. }
  destruct H100 as (m & e & ->).
  destruct x as [[]|[]| |[] mx ex]; try done.
  intros _. apply sign_is_not_negative. apply (fdiv_finite_sign false false).
Qed.

Lemma sign_is_not_below_zero (x : double) : sign_is false x → below_zero x = false.
Proof. by destruct x as [[]|[]| |[] m e]. Qed.

Lemma fmul_not_below_zero (x y : double) :
  below_zero x = false → not_negative y = true → below_zero (fmul x y) = false.
Proof.
  intros Hx Hy.
  destruct x as [[]|[]| |[] mx ex], y as [[]|[]| |[] my ey]; try done.
  apply sign_is_not_below_zero. unfold fmul, SFmul. simpl.
  by apply binary_round_aux_sign.
Qed.

Lemma fadd_not_below_zero (x y : double) :
  below_zero x = false → below_zero y = false → below_zero (fadd x y) = false.
Proof.
  intros Hx Hy.
  destruct x as [[]|[]| |[] mx ex], y as [[]|[]| |[] my ey]; try done.
  apply sign_is_not_below_zero. unfold fadd, SFadd. simpl.
  apply binary_round_sign.
Qed.

Lemma float_frac_not_negative (acc : Z) (scale : positive) (s : string) (x : double) :
  float_frac acc scale s = Some x → not_negative x = true.
Proof.
  revert acc scale. induction s as [|c rest IH]; intros acc scale; simpl.
  - intros [= <-]. apply decimal_not_negative.
  - destruct (is_digit c); [apply IH | discriminate].
Qed.

Lemma float_int_not_negative (seen : bool) (acc : Z) (s : string) (x : double) :
  float_int seen acc s = Some x → not_negative x = true.
Proof.
  revert seen acc. induction s as [|c rest IH]; intros seen acc; simpl.
  - destruct seen; [|discriminate]. intros [= <-]. apply decimal_not_negative.
  - destruct (is_digit c); [apply IH|].
    destruct (_ && _); [apply float_frac_not_negative | discriminate].
Qed.

Lemma float_not_negative (s : string) (x : double) :
  float s = Ok x → not_negative x = true.
Proof.
  unfold float. destruct (float_int false 0 s) as [y|] eqn:E; [|discriminate].
  intros [= <-]. by apply (float_int_not_negative false 0 s).
Qed.

(** X4: every token [extract_values] returns is read by [float], once its
    percent sign is removed, as a double that is +0, positive or +inf, and
    [calculate_total_tariff] adds that double to its accumulator: the
    [except ValueError] branches are not taken on extracted tokens. *)
Theorem extracted_token_is_added (s tok : string) (acc : double) :
  tok ∈ extract_values s →
  ∃ x, float (replace "%" "" tok) = Ok x ∧ not_negative x = true
       ∧ Route.add_rate acc tok = fadd acc x.
Proof.
  intros Hin. destruct (extract_values_numbers s tok Hin) as [x Hx].
  exists x. split; [exact Hx|]. split; [by apply (float_not_negative _ _ Hx)|].
  unfold Route.add_rate. by rewrite Hx.
Qed.

Lemma extracted_token_is_added_witness :
  ∃ x, float (replace "%" "" "7.5%") = Ok x ∧ not_negative x = true
       ∧ Route.add_rate (double_of_Z 5) "7.5%" = fadd (double_of_Z 5) x.
Proof.
  assert (Htokens : extract_values "7.5% ad valorem" = ["7.5%"])
    by (vm_compute; reflexivity).
  apply (extracted_token_is_added "7.5% ad valorem").
  rewrite Htokens. apply elem_of_cons. by left.
Defined.

Lemma digit_lower (c : ascii) : is_digit c = true → lower_char c = c.
Proof. destruct c as [[] [] [] [] [] [] [] []]; try discriminate; reflexivity. Qed.

Lemma no_digit_lower (s : string) : no_digit (lower s) = true → no_digit s = true.
Proof.
  induction s as [|c rest IH]; simpl; [done|].
  intros [Hc Hrest]%andb_true_iff. apply andb_true_iff. split; [|auto].
  destruct (is_digit c) eqn:E; [|done]. by rewrite (digit_lower c E), E in Hc.
Qed.

Lemma add_rates_nil_tokens (acc : double) (s : string) :
  no_digit s = true → Route.add_rates acc (extract_values s) = acc.
Proof. intros H. apply extract_values_no_digit in H. by rewrite H. Qed.

(** X5: a rate description of ASCII characters without a digit adds nothing
    to any sum and is a basic rate of 0; so does "Free" in any letter
    case. *)
Theorem digitless_rate_is_zero (s : string) :
  (ascii_only s = true ∧ no_digit s = true) ∨ lower s = "free" →
  Route.basic_rate_value (JStr s) = Ok fzero
  ∧ extract_values s = []
  ∧ ∀ acc, Route.add_rates acc (extract_values s) = acc.
Proof.
  intros H.
  assert (Hnd : no_digit s = true).
  { destruct H as [[_ H] | H]; [done|]. apply no_digit_lower. by rewrite H. }
  pose proof (proj2 (extract_values_no_digit s) Hnd) as Hnil.
  split; [|split; [done|]].
  - unfold Route.basic_rate_value. destruct (String.eqb (lower s) "free"); [done|].
    simpl. by rewrite Hnil.
  - intros acc. by apply add_rates_nil_tokens.
Qed.

Lemma digitless_rate_is_zero_witness :
  Route.basic_rate_value (JStr "fReE") = Ok fzero
  ∧ extract_values "fReE" = []
  ∧ ∀ acc, Route.add_rates acc (extract_values "fReE") = acc.
Proof. apply digitless_rate_is_zero. right. reflexivity. Defined.

Lemma sum_from_not_negative (tokens : list string) (start : double) :
  not_negative start = true → not_negative (sum_from start tokens) = true.
Proof.
  unfold sum_from. revert start.
  induction tokens as [|tok rest IH]; intros start Hstart; [done|].
  simpl. unfold number_of at 1.
  destruct (float (replace "%" "" tok)) as [x|] eqn:Hx; simpl; [|by apply IH].
  apply IH, fadd_not_negative; [done | by apply (float_not_negative _ _ Hx)].
Qed.

Lemma basic_number_not_negative (s : string) : not_negative (basic_number s) = true.
Proof.
  unfold basic_number. destruct (String.eqb _ _); [done|].
  destruct (extract_values s) as [|tok rest]; [done|].
  unfold number_of. destruct (float _) as [x|] eqn:Hx; simpl; [|done].
  by apply (float_not_negative _ _ Hx).
Qed.

(** The duty rate of the formula is +0, a positive number or +inf. *)
Lemma duty_not_negative (s : string) (neutral : list string)
    (active excluded : list Route.rated) :
  not_negative (fadd (fadd (basic_accumulator s neutral) (rate_total active))
                  (rate_total excluded)) = true.
Proof.
  repeat apply fadd_not_negative; try by apply sum_from_not_negative.
  apply sum_from_not_negative, fadd_not_negative; [done|].
  apply basic_number_not_negative.
Qed.

(** X6: on the report of an analysis the duty rate is never negative and
    never nan: it is +0, a positive number or +inf.  For a base cost that is
    not below zero, neither the duty amount nor the total cost is below
    zero. *)
Theorem duty_is_not_negative (a : analysis_ok) (country : string)
    (td : Route.tariff_data) (base_cost : double) (r : Route.total_rate_result) :
  Route.get_data (ReportBuilder.generate_report_data a country) = Ok td →
  Route.calculate_total_tariff td base_cost base_cost = Ok r →
  below_zero base_cost = false →
  (∃ acc, Route.accumulate td = Ok acc
          ∧ not_negative (Route.duty_rate_of acc) = true)
  ∧ below_zero (Route.total_duties r) = false
  ∧ below_zero (Route.total_cost r) = false.
Proof.
  rewrite get_data_built. intros [= <-] Hr Hbase.
  assert (∃ s, Route.basic_rate (tariff_data_of a) = JStr s) as [s Hs].
  { unfold tariff_data_of. simpl. eauto. }
  set (td := tariff_data_of a) in *.
  pose proof (duty_not_negative s (Route.neutral_exclusions td) (Route.penalties td)
                (Route.excluded_penalties td)) as Hduty.
  split.
  - rewrite (accumulate_formula td s Hs). eexists. split; [reflexivity|].
    exact Hduty.
  - rewrite (calculate_total_tariff_formula td s _ _ Hs) in Hr.
    injection Hr as <-. simpl.
    assert (Hamount : below_zero (fmul base_cost
              (fdiv (fadd (fadd (basic_accumulator s (Route.neutral_exclusions td))
                             (rate_total (Route.penalties td)))
                       (rate_total (Route.excluded_penalties td)))
                 (double_of_Z 100))) = false).
    { apply fmul_not_below_zero; [done|]. by apply fdiv_hundred_not_negative. }
    split; [exact Hamount|]. by apply fadd_not_below_zero.
Qed.

(** ** [_check_conditions] and [_is_code_applicable] *)

Section MoreApplicability.

Variable fromisoformat : string → option date.

Abbreviation parse_date := (TariffProcessor.parse_date fromisoformat).
Abbreviation check_each := (TariffProcessor.check_each fromisoformat).
Abbreviation _check_conditions := (TariffProcessor._check_conditions fromisoformat).
Abbreviation country_and_conditions :=
  (TariffProcessor.country_and_conditions fromisoformat).
Abbreviation applicable_body := (TariffProcessor.applicable_body fromisoformat).
Abbreviation _is_code_applicable := (TariffProcessor._is_code_applicable fromisoformat).
Abbreviation applicable_others := (TariffProcessor.applicable_others fromisoformat).
Abbreviation analyze_tariffs := (TariffProcessor.analyze_tariffs fromisoformat).

(** One turn of the loop: the condition ends the loop with [False] and at
    most one warning, or the loop goes on to the next condition. *)
Lemma cond_step (c : condition) (transport : string) (loading_date : option date) :
  (∃ o, (List.length o <= 1)%nat ∧ ∀ rest, check_each (c :: rest) transport loading_date
                                = Ok (false, o))
  ∨ (∀ rest, check_each (c :: rest) transport loading_date
             = check_each rest transport loading_date).
Proof.
  simpl. destruct (_ && _).
  { case_bool_decide; [by right | left; exists []; simpl; auto]. }
  case_bool_decide; [|by right].
  destruct loading_date as [ld|]; [|left; exists []; simpl; auto].
  destruct (TariffProcessor.loading_date_holds fromisoformat c ld) as [[]|e] eqn:E.
  - by right.
  - left. exists []. simpl. auto.
  - left. exists [WarnDateCondition c]. split; [simpl; lia|]. intros _.
    by apply loading_date_holds_raise in E as [[key ->] | ->].
Qed.

Lemma check_each_stops (conds : list condition) (cond : condition)
    (transport : string) (loading_date : option date) :
  cond ∈ conds →
  (∃ o, ∀ rest, check_each (cond :: rest) transport loading_date = Ok (false, o)) →
  ∃ out, check_each conds transport loading_date = Ok (false, out).
Proof.
  intros Hin [o Hstop]. induction conds as [|c rest IH]; [by apply elem_of_nil in Hin|].
  apply elem_of_cons in Hin as [<- | Hin]; [rewrite Hstop; eauto|].
  destruct (cond_step c transport loading_date) as [(o' & _ & H) | H];
    rewrite H; eauto.
Qed.

Lemma check_each_diagnostics (conds : list condition) (transport : string)
    (loading_date : option date) :
  ∃ b out, check_each conds transport loading_date = Ok (b, out)
           ∧ (b = true → out = []) ∧ (List.length out <= 1)%nat.
Proof.
  induction conds as [|c rest IH].
  - exists true, []. simpl. auto.
  - destruct (cond_step c transport loading_date) as [(o & Ho & H) | H]; rewrite H.
    + exists false, o. split; [done|]. split; [discriminate | done].
    + exact IH.
Qed.

(** On typed records the check returns whatever is missing: the handlers
    take every exception of the body.  It prints at most one warning, and
    only with the result [False]. *)
Lemma typed_check_returns (c : tariff_code) (country transport : string)
    (entry_date : date) (loading_date : option date) :
  ∃ ok out,
    _is_code_applicable c country transport entry_date loading_date = Ok (ok, out)
    ∧ (ok = true → out = []) ∧ (List.length out <= 1)%nat.
Proof.
  unfold TariffProcessor._is_code_applicable.
  destruct (applicable_body c country transport entry_date loading_date)
    as [[ok out]|e] eqn:E.
  - exists ok, out. split; [done|]. revert E.
    unfold TariffProcessor.applicable_body.
    destruct (parse_date "effectiveFrom" (effectiveFrom c)); unfold_bind; [|discriminate].
    destruct (parse_date "effectiveTo" (effectiveTo c)); [|discriminate].
    destruct (negb _).
    { intros [= <- <-]. split; [discriminate | simpl; lia]. }
    unfold TariffProcessor.country_and_conditions, TariffProcessor._check_conditions.
    destruct (check_each_diagnostics (default [] (applicabilityConditions c))
                transport loading_date) as (b & o & -> & Hb & Ho).
    destruct (default [] (countriesOfOrigin c)) as [|x rest].
    + simpl. intros [= <- <-]. auto.
    + destruct (any_result _ (x :: rest)) as [[]|e']; simpl; [| |discriminate].
      * intros [= <- <-]. auto.
      * intros [= <- <-]. split; [discriminate | simpl; lia].
  - apply applicable_body_raise in E. rewrite catch_handled by done.
    eexists _, _. split; [done|]. split; [discriminate | simpl; lia].
Qed.

(** X8: the outcome of [_check_conditions] does not depend on the order of
    the conditions (what it prints may). *)
Theorem conditions_order_irrelevant (conds conds' : list condition)
    (transport : string) (loading_date : option date) :
  conds ≡ₚ conds' →
  ∃ b out out',
    _check_conditions conds transport loading_date = Ok (b, out)
    ∧ _check_conditions conds' transport loading_date = Ok (b, out').
Proof.
  unfold TariffProcessor._check_conditions.
  induction 1 as [|x l l' _ IH|x y l|l1 l2 l3 _ IH1 _ IH2].
  - exists true, [], []. auto.
  - destruct (cond_step x transport loading_date) as [(o & _ & H) | H];
      rewrite !H; [by exists false, o, o | exact IH].
  - destruct (cond_step x transport loading_date) as [(o & _ & Hx) | Hx],
      (cond_step y transport loading_date) as [(o' & _ & Hy) | Hy];
      rewrite ?Hx, ?Hy, ?Hx.
    + by exists false, o', o.
    + by exists false, o, o.
    + by exists false, o', o'.
    + destruct (check_each_diagnostics l transport loading_date) as (b & out & -> & _).
      by exists b, out, out.
  - destruct IH1 as (b & o1 & o2 & H1 & H2), IH2 as (b' & o2' & o3 & H2' & H3).
    exists b, o1, o3. split; [done|]. rewrite H3. rewrite H2 in H2'. congruence.
Qed.

Lemma stopping_condition_inapplicable (c : tariff_code) (country transport : string)
    (entry_date : date) (loading_date : option date) (cond : condition) :
  cond ∈ default [] (applicabilityConditions c) →
  (∃ o, ∀ rest, check_each (cond :: rest) transport loading_date = Ok (false, o)) →
  ∃ out, _is_code_applicable c country transport entry_date loading_date
         = Ok (false, out).
Proof.
  intros Hin Hstop. unfold TariffProcessor._is_code_applicable.
  destruct (applicable_body c country transport entry_date loading_date)
    as [[b out]|e] eqn:E.
  - simpl. exists out. f_equal. f_equal. revert E.
    unfold TariffProcessor.applicable_body.
    destruct (parse_date "effectiveFrom" (effectiveFrom c)); unfold_bind; [|discriminate].
    destruct (parse_date "effectiveTo" (effectiveTo c)); [|discriminate].
    destruct (negb _); [congruence|].
    unfold TariffProcessor.country_and_conditions, TariffProcessor._check_conditions.
    destruct (check_each_stops _ _ transport loading_date Hin Hstop) as [out' ->].
    destruct (default [] (countriesOfOrigin c)) as [|x rest].
    + simpl. congruence.
    + destruct (any_result _ (x :: rest)) as [[]|e']; simpl; congruence.
  - apply applicable_body_raise in E. rewrite catch_handled by done. eauto.
Qed.

(** X9: with a transport other than ANY, a record carrying a
    MODE_OF_TRANSPORT condition whose [fieldShouldEqual] is not that
    transport, or is absent, is inapplicable. *)
Theorem transport_mismatch_inapplicable (c : tariff_code) (cond : condition)
    (country transport : string) (entry_date : date) (loading_date : option date) :
  cond ∈ default [] (applicabilityConditions c) →
  fieldKey cond = Some "MODE_OF_TRANSPORT" →
  transport ≠ "ANY" →
  fieldShouldEqual cond ≠ Some transport →
  ∃ out, _is_code_applicable c country transport entry_date loading_date
         = Ok (false, out).
Proof.
  intros Hin Hkey Hany Hne.
  apply (stopping_condition_inapplicable c country transport entry_date
           loading_date cond Hin).
  exists []. intros rest. simpl. rewrite Hkey.
  apply String.eqb_neq in Hany. rewrite Hany. simpl.
  by rewrite bool_decide_eq_false_2.
Qed.

Lemma check_each_relevant (conds : list condition) (transport : string)
    (loading_date : option date) :
  check_each (List.filter relevant_condition conds) transport loading_date
  = check_each conds transport loading_date.
Proof.
  induction conds as [|c rest IH]; [done|].
  simpl List.filter. unfold relevant_condition at 1.
  destruct (bool_decide (fieldKey c = Some "MODE_OF_TRANSPORT")) eqn:E1;
    [simpl orb; cbv iota; simpl; by rewrite IH|].
  destruct (bool_decide (fieldKey c = Some "DATE_OF_LOADING")) eqn:E2;
    [simpl orb; cbv iota; simpl; by rewrite IH|].
  simpl. rewrite E1, E2. simpl. exact IH.
Qed.

(** X10: the conditions whose [fieldKey] is neither MODE_OF_TRANSPORT nor
    DATE_OF_LOADING (CHOSEN_SPIS, an unknown or absent key) have no effect:
    without them the check returns the same result and prints the same. *)
Theorem other_conditions_ignored (c : tariff_code) (country transport : string)
    (entry_date : date) (loading_date : option date) :
  _is_code_applicable
    (with_conditions c
       (Some (List.filter relevant_condition (default [] (applicabilityConditions c)))))
    country transport entry_date loading_date
  = _is_code_applicable c country transport entry_date loading_date.
Proof.
  unfold TariffProcessor._is_code_applicable, TariffProcessor.applicable_body,
    TariffProcessor.country_and_conditions, TariffProcessor._check_conditions.
  simpl. by rewrite check_each_relevant.
Qed.

(** X11: the loading-date comparisons.  [Less] and [Greater] are strict, and
    [Between] takes its lower bound and leaves out its upper bound: a
    condition that holds hands over to the next one, one that does not ends
    the check with [False] and no warning. *)
Theorem loading_date_comparisons (c : condition) (rest : list condition)
    (transport : string) (ld : date) :
  fieldKey c = Some "DATE_OF_LOADING" →
  (∀ t, __typename c = Some "CustomsTariffLess" →
        parse_date "threshold" (threshold c) = Ok t →
        _check_conditions (c :: rest) transport (Some ld)
        = if date_ltb ld t then _check_conditions rest transport (Some ld)
          else Ok (false, []))
  ∧ (∀ t, __typename c = Some "CustomsTariffGreater" →
          parse_date "threshold" (threshold c) = Ok t →
          _check_conditions (c :: rest) transport (Some ld)
          = if date_ltb t ld then _check_conditions rest transport (Some ld)
            else Ok (false, []))
  ∧ (∀ lo up, __typename c = Some "CustomsTariffBetween" →
              parse_date "lowerBound" (lowerBound c) = Ok lo →
              parse_date "upperBound" (upperBound c) = Ok up →
              _check_conditions (c :: rest) transport (Some ld)
              = (if date_leb lo ld && date_ltb ld up
                 then _check_conditions rest transport (Some ld)
                 else Ok (false, []))
              ∧ (ld = up → _check_conditions (c :: rest) transport (Some ld)
                           = Ok (false, []))
              ∧ (ld = lo → date_ltb lo up = true →
                 _check_conditions (c :: rest) transport (Some ld)
                 = _check_conditions rest transport (Some ld))).
Proof.
  intros Hkey. unfold TariffProcessor._check_conditions.
  assert (Hhead : ∀ b, TariffProcessor.loading_date_holds fromisoformat c ld = Ok b →
            check_each (c :: rest) transport (Some ld)
            = if b then check_each rest transport (Some ld) else Ok (false, [])).
  { intros b Hb. simpl. rewrite Hkey. simpl. rewrite Hb. by destruct b. }
  split; [|split].
  - intros t Hty Ht. apply Hhead. unfold TariffProcessor.loading_date_holds.
    rewrite Hty. simpl. by rewrite Ht.
  - intros t Hty Ht. apply Hhead. unfold TariffProcessor.loading_date_holds.
    rewrite Hty. simpl. by rewrite Ht.
  - intros lo up Hty Hlo Hup.
    assert (Hb : TariffProcessor.loading_date_holds fromisoformat c ld
                 = Ok (date_leb lo ld && date_ltb ld up)).
    { unfold TariffProcessor.loading_date_holds. rewrite Hty. simpl.
      by rewrite Hlo, Hup. }
    split; [by apply Hhead|]. split.
    + intros ->. rewrite (Hhead _ Hb).
      assert (date_ltb up up = false) as ->.
      { unfold date_ltb. by rewrite date_compare_refl. }
      by rewrite andb_false_r.
    + intros -> Hlt. rewrite (Hhead _ Hb). by rewrite date_leb_refl, Hlt.
Qed.

(** On typed records, a DATE_OF_LOADING condition of a known kind whose
    bound is absent or rejected by the parser makes the record inapplicable
    when a loading date is supplied; when the condition comes first the
    check prints one warning naming it. *)
Lemma typed_malformed_condition (c : tariff_code) (cond : condition)
    (country transport : string) (entry_date ld : date) :
  cond ∈ default [] (applicabilityConditions c) →
  fieldKey cond = Some "DATE_OF_LOADING" →
  ((__typename cond = Some "CustomsTariffLess"
    ∨ __typename cond = Some "CustomsTariffGreater")
   ∧ missing_or_unparsable fromisoformat (threshold cond))
  ∨ (__typename cond = Some "CustomsTariffBetween"
     ∧ (missing_or_unparsable fromisoformat (lowerBound cond)
        ∨ missing_or_unparsable fromisoformat (upperBound cond))) →
  (∃ out, _is_code_applicable c country transport entry_date (Some ld)
          = Ok (false, out))
  ∧ ∀ rest, _check_conditions (cond :: rest) transport (Some ld)
            = Ok (false, [WarnDateCondition cond]).
Proof.
  intros Hin Hkey Hbad.
  assert (Hraise : ∃ e, TariffProcessor.loading_date_holds fromisoformat cond ld
                        = Raise e ∧ handled e).
  { unfold TariffProcessor.loading_date_holds.
    destruct Hbad as [[[Hty | Hty] Hb] | [Hty Hb]]; rewrite Hty; simpl.
    - apply (parse_date_unusable fromisoformat "threshold") in Hb as (e & -> & He).
      eauto.
    - apply (parse_date_unusable fromisoformat "threshold") in Hb as (e & -> & He).
      eauto.
    - destruct (parse_date "lowerBound" (lowerBound cond)) as [lo|e] eqn:Hlo.
      + destruct Hb as [Hb | Hb].
        * apply (parse_date_unusable fromisoformat "lowerBound") in Hb
            as (e & He & _). congruence.
        * apply (parse_date_unusable fromisoformat "upperBound") in Hb
            as (e & -> & He). eauto.
      + apply parse_date_raise in Hlo. eauto. }
  destruct Hraise as (e & He & Hh).
  assert (Hstop : ∀ rest, check_each (cond :: rest) transport (Some ld)
                          = Ok (false, [WarnDateCondition cond])).
  { intros rest. simpl. rewrite Hkey. simpl. rewrite He.
    by destruct Hh as [[key ->] | ->]. }
  split; [|exact Hstop].
  apply (stopping_condition_inapplicable c country transport entry_date
           (Some ld) cond Hin). eauto.
Qed.

Lemma country_match_spec (country : string) (countries : list country_ref) :
  Forall (λ x, is_Some (usCustomsCountryCode x)) countries →
  any_result
    (λ x, cc ← getitem "usCustomsCountryCode" (usCustomsCountryCode x);
          Ok (String.eqb cc country)) countries
  = Ok (existsb (λ x, bool_decide (usCustomsCountryCode x = Some country)) countries).
Proof.
  induction 1 as [|x rest [cc Hcc] _ IH]; [done|].
  simpl. rewrite Hcc. simpl. unfold_bind. simpl.
  destruct (String.eqb cc country) eqn:E.
  - apply String.eqb_eq in E as ->. by rewrite bool_decide_eq_true_2.
  - apply String.eqb_neq in E. rewrite bool_decide_eq_false_2 by congruence.
    exact IH.
Qed.

(** X13: for a record in its effective window whose country entries all
    have a code, the country step admits every country when the list is
    empty or absent, and otherwise exactly the countries listed: an admitted
    country leaves the outcome to the conditions, another one gives [False]
    without a warning. *)
Theorem country_of_origin_step (c : tariff_code) (country transport : string)
    (entry_date : date) (loading_date : option date) (f t : date) :
  parse_date "effectiveFrom" (effectiveFrom c) = Ok f →
  parse_date "effectiveTo" (effectiveTo c) = Ok t →
  date_leb f entry_date = true → date_leb entry_date t = true →
  Forall (λ x, is_Some (usCustomsCountryCode x)) (default [] (countriesOfOrigin c)) →
  _is_code_applicable c country transport entry_date loading_date
  = if country_admitted country (default [] (countriesOfOrigin c))
    then _check_conditions (default [] (applicabilityConditions c))
           transport loading_date
    else Ok (false, []).
Proof.
  intros Hf Ht Hlo Hhi Hall.
  unfold TariffProcessor._is_code_applicable, TariffProcessor.applicable_body.
  rewrite Hf, Ht. unfold_bind. rewrite Hlo, Hhi. simpl.
  unfold TariffProcessor.country_and_conditions, TariffProcessor._check_conditions.
  destruct (check_each_diagnostics (default [] (applicabilityConditions c))
              transport loading_date) as (b & o & Hcheck & _).
  rewrite Hcheck.
  destruct (default [] (countriesOfOrigin c)) as [|x rest] eqn:Ec.
  - reflexivity.
  - rewrite (country_match_spec country (x :: rest) Hall). unfold country_admitted.
    by destruct (existsb _ _).
Qed.

(** X14: a country entry without [usCustomsCountryCode], met before the
    shipment's country is found, makes the record inapplicable with a
    warning: the [KeyError] is taken by the handler. *)
Theorem country_entry_without_code (c : tariff_code) (country transport : string)
    (entry_date : date) (loading_date : option date) (f t : date)
    (before after : list country_ref) (x : country_ref) :
  parse_date "effectiveFrom" (effectiveFrom c) = Ok f →
  parse_date "effectiveTo" (effectiveTo c) = Ok t →
  date_leb f entry_date = true → date_leb entry_date t = true →
  countriesOfOrigin c = Some (before ++ x :: after) →
  Forall (λ y, ∃ cc, usCustomsCountryCode y = Some cc ∧ cc ≠ country) before →
  usCustomsCountryCode x = None →
  _is_code_applicable c country transport entry_date loading_date
  = Ok (false, [WarnApplicability (cv ← codeVariant c; code cv)
                  (KeyError "usCustomsCountryCode")]).
Proof.
  intros Hf Ht Hlo Hhi Hcs Hbefore Hx.
  unfold TariffProcessor._is_code_applicable, TariffProcessor.applicable_body.
  rewrite Hf, Ht. unfold_bind. rewrite Hlo, Hhi. simpl.
  unfold TariffProcessor.country_and_conditions. rewrite Hcs. simpl default.
  assert (Hany : any_result
            (λ y, cc ← getitem "usCustomsCountryCode" (usCustomsCountryCode y);
                  Ok (String.eqb cc country)) (before ++ x :: after)
          = Raise (KeyError "usCustomsCountryCode")).
  { clear Hcs. induction Hbefore as [|y rest (cc & Hcc & Hne) _ IH]; simpl.
    - by rewrite Hx.
    - rewrite Hcc. simpl. unfold_bind. simpl.
      apply String.eqb_neq in Hne. by rewrite Hne. }
  destruct (before ++ x :: after) as [|z zs] eqn:E.
  { by destruct before. }
  unfold_bind. rewrite Hany. reflexivity.
Qed.

End MoreApplicability.

Lemma conditions_order_irrelevant_witness :
  ∃ b out out',
    TariffProcessor._check_conditions iso_prefix_date
      [sample_transport_condition; sample_loading_condition] "AIR" None
    = Ok (b, out)
    ∧ TariffProcessor._check_conditions iso_prefix_date
        [sample_loading_condition; sample_transport_condition] "AIR" None
      = Ok (b, out').
Proof. apply conditions_order_irrelevant. apply perm_swap. Defined.

Lemma transport_mismatch_inapplicable_witness :
  ∃ out, TariffProcessor._is_code_applicable iso_prefix_date sample_conditional
           "CN" "AIR" (mkdate 2025 6 1) (Some (mkdate 2025 2 1)) = Ok (false, out).
Proof.
  apply (transport_mismatch_inapplicable iso_prefix_date sample_conditional
           sample_transport_condition).
  - apply elem_of_cons. by left.
  - reflexivity.
  - discriminate.
  - discriminate.
Defined.

Lemma loading_date_comparisons_witness :
  TariffProcessor._check_conditions iso_prefix_date [sample_between_condition]
    "ANY" (Some (mkdate 2025 3 1)) = Ok (false, [])
  ∧ TariffProcessor._check_conditions iso_prefix_date [sample_between_condition]
      "ANY" (Some (mkdate 2025 1 1))
    = TariffProcessor._check_conditions iso_prefix_date [] "ANY"
        (Some (mkdate 2025 1 1)).
Proof.
  split.
  - apply (proj2 (proj2 (loading_date_comparisons iso_prefix_date
                           sample_between_condition [] "ANY" (mkdate 2025 3 1)
                           eq_refl))
             (mkdate 2025 1 1) (mkdate 2025 3 1)); reflexivity.
  - apply (proj2 (proj2 (loading_date_comparisons iso_prefix_date
                           sample_between_condition [] "ANY" (mkdate 2025 1 1)
                           eq_refl))
             (mkdate 2025 1 1) (mkdate 2025 3 1)); reflexivity.
Defined.

Lemma country_of_origin_step_witness :
  TariffProcessor._is_code_applicable iso_prefix_date
    (with_countries sample_neutral [Some "CN"; Some "MX"])
    "AU" "ANY" (mkdate 2025 6 1) None = Ok (false, []).
Proof.
  apply (country_of_origin_step iso_prefix_date
           (with_countries sample_neutral [Some "CN"; Some "MX"])
           "AU" "ANY" (mkdate 2025 6 1) None (mkdate 2020 1 1) (mkdate 2030 12 31));
    try reflexivity.
  simpl. repeat constructor; by eexists.
Defined.

Lemma country_entry_without_code_witness :
  TariffProcessor._is_code_applicable iso_prefix_date
    (with_countries sample_neutral [Some "MX"; None; Some "CN"])
    "CN" "ANY" (mkdate 2025 6 1) None
  = Ok (false, [WarnApplicability (Some "9903.88.69")
                  (KeyError "usCustomsCountryCode")]).
Proof.
  apply (country_entry_without_code iso_prefix_date
           (with_countries sample_neutral [Some "MX"; None; Some "CN"])
           "CN" "ANY" (mkdate 2025 6 1) None (mkdate 2020 1 1) (mkdate 2030 12 31)
           [{| usCustomsCountryCode := Some "MX" |}]
           [{| usCustomsCountryCode := Some "CN" |}]
           {| usCustomsCountryCode := None |}); try reflexivity.
  constructor; [|constructor]. exists "MX". split; [reflexivity | discriminate].
Defined.

(** ** [sort_by_priority] *)

Lemma insert_sorted_perm (x : tariff_code) (l : list tariff_code) :
  TariffProcessor.insert_sorted x l ≡ₚ x :: l.
Proof.
  induction l as [|y rest IH]; simpl; [done|].
  destruct (_ <=? _)%Z; [done|]. rewrite IH. apply perm_swap.
Qed.

Lemma insert_sorted_sorted (x : tariff_code) (l : list tariff_code) :
  StronglySorted by_priority l →
  StronglySorted by_priority (TariffProcessor.insert_sorted x l).
Proof.
  induction 1 as [|y rest Hs IH Hy]; simpl.
  - repeat constructor.
  - destruct (_ <=? _)%Z eqn:E.
    + apply Z.leb_le in E. constructor; [by constructor|].
      constructor; [exact E|].
      eapply Forall_impl; [exact Hy|]. unfold by_priority. intros; simpl in *; lia.
    + apply Z.leb_gt in E. constructor; [exact IH|].
      rewrite insert_sorted_perm. constructor; [|exact Hy].
      unfold by_priority. lia.
Qed.

Lemma insert_sorted_stable (k : Z) (x : tariff_code) (l : list tariff_code) :
  List.filter (has_priority k) (TariffProcessor.insert_sorted x l)
  = List.filter (has_priority k) (x :: l).
Proof.
  induction l as [|y rest IH]; [done|].
  simpl TariffProcessor.insert_sorted. destruct (_ <=? _)%Z eqn:E; [done|].
  apply Z.leb_gt in E. simpl List.filter in *. rewrite IH.
  unfold has_priority.
  destruct (TariffProcessor.priority_key x =? k)%Z eqn:Ex,
           (TariffProcessor.priority_key y =? k)%Z eqn:Ey; try done.
  apply Z.eqb_eq in Ex, Ey. lia.
Qed.

Lemma sort_by_priority_perm (l : list tariff_code) :
  TariffProcessor.sort_by_priority l ≡ₚ l.
Proof.
  unfold TariffProcessor.sort_by_priority. induction l as [|x rest IH]; [done|].
  simpl. rewrite insert_sorted_perm. by constructor.
Qed.

Lemma sort_by_priority_sorted (l : list tariff_code) :
  StronglySorted by_priority (TariffProcessor.sort_by_priority l).
Proof.
  unfold TariffProcessor.sort_by_priority. induction l as [|x rest IH]; simpl.
  - constructor.
  - by apply insert_sorted_sorted.
Qed.

(** X15: [sort_by_priority] is a stable sort on the priority, 99 when the
    record has none: its result is a permutation of the list, in ascending
    order of priority, and records of equal priority keep their order. *)
Theorem sort_by_priority_stable (l : list tariff_code) :
  TariffProcessor.sort_by_priority l ≡ₚ l
  ∧ StronglySorted by_priority (TariffProcessor.sort_by_priority l)
  ∧ ∀ k, List.filter (has_priority k) (TariffProcessor.sort_by_priority l)
         = List.filter (has_priority k) l.
Proof.
  split; [apply sort_by_priority_perm|]. split; [apply sort_by_priority_sorted|].
  intros k. unfold TariffProcessor.sort_by_priority.
  induction l as [|x rest IH]; [done|].
  simpl foldr. rewrite insert_sorted_stable. simpl. by rewrite IH.
Qed.

(** ** [analyze_tariffs] *)

Lemma filter_result_raises {A : Type} (p : A → result bool) (l : list A) (x : A) :
  x ∈ l → (∃ e, p x = Raise e) → ∃ e y, y ∈ l ∧ p y = Raise e
                                       ∧ filter_result p l = Raise e.
Proof.
  intros Hin Hx. induction l as [|a rest IH]; [by apply elem_of_nil in Hin|].
  simpl. destruct (p a) as [b|e] eqn:Ea.
  - apply elem_of_cons in Hin as [-> | Hin].
    { destruct Hx as [e He]. congruence. }
    destruct (IH Hin) as (e & y & Hy & Hpy & ->).
    exists e, y. split; [by right | done].
  - exists e, a. split; [by left | done].
Qed.

Lemma program_applies_raise (country : string) (rate : SpecialRate.t) (e : exn) :
  TariffProcessor.program_applies country rate = Raise e → ∃ key, e = KeyError key.
Proof.
  unfold TariffProcessor.program_applies.
  destruct (SpecialRate.importProgram rate) as [ip|]; simpl;
    [|intros [= <-]; eauto].
  destruct (ImportProgram.countriesOfOrigin ip) as [cs|]; simpl;
    [|intros [= <-]; eauto].
  induction cs as [|x rest IH]; simpl; [discriminate|].
  destruct (usCustomsCountryCode x); simpl; [|intros [= <-]; eauto].
  unfold_bind. simpl. destruct (String.eqb _ _); [discriminate | exact IH].
Qed.

Section MoreAnalysis.

Variable fromisoformat : string → option date.

Abbreviation _is_code_applicable := (TariffProcessor._is_code_applicable fromisoformat).
Abbreviation applicable_others := (TariffProcessor.applicable_others fromisoformat).
Abbreviation analyze_tariffs := (TariffProcessor.analyze_tariffs fromisoformat).

Lemma analyze_inv (raw_data : list tariff_code) (country transport : string)
    (entry_date : date) (loading_date : option date) (a : analysis_ok)
    (out : list diag) :
  analyze_tariffs raw_data country transport entry_date loading_date
  = (Ok (Analysis a), out) →
  ∃ kept,
    List.find TariffProcessor.is_commodity_code raw_data = Some (primary a)
    ∧ filter_result (TariffProcessor.program_applies country)
        (default [] (specialRates (primary a))) = Ok (special_programs a)
    ∧ applicable_others raw_data country transport entry_date loading_date
      = (Ok kept, out)
    ∧ TariffProcessor._process_other_tariffs (TariffProcessor.sort_by_priority kept)
      = Ok (processed_tariffs a).
Proof.
  unfold TariffProcessor.analyze_tariffs.
  destruct (List.find _ raw_data) as [p|]; [|discriminate].
  destruct (filter_result _ _) as [programs|e] eqn:Hprog; [|discriminate].
  destruct (applicable_others raw_data country transport entry_date loading_date)
    as [[kept|e] o] eqn:Hkept; [|discriminate].
  simpl. unfold_bind.
  destruct (TariffProcessor._process_other_tariffs _) as [pr|e] eqn:Hpr;
    [|discriminate].
  intros [= <- <-]. simpl. eauto.
Qed.

Lemma applicable_others_elem (raw_data : list tariff_code) (country transport : string)
    (entry_date : date) (loading_date : option date) (kept : list tariff_code)
    (out : list diag) :
  applicable_others raw_data country transport entry_date loading_date
  = (Ok kept, out) →
  ∀ r, r ∈ kept ↔
       r ∈ raw_data ∧ type_ r ≠ Some "COMMODITY_CODE"
       ∧ ∃ o, _is_code_applicable r country transport entry_date loading_date
              = Ok (true, o).
Proof.
  revert kept out. induction raw_data as [|c rest IH]; intros kept out H r; simpl in H.
  - injection H as <- <-. split; [by intros ?%elem_of_nil|].
    by intros [?%elem_of_nil _].
  - unfold TariffProcessor.is_commodity_code in H. case_bool_decide as Hty.
    + rewrite (IH _ _ H), elem_of_cons. split; [naive_solver|].
      intros [[-> | ?] [? ?]]; [done | naive_solver].
    + destruct (_is_code_applicable c country transport entry_date loading_date)
        as [[ok o]|e] eqn:Hc; [|discriminate].
      destruct (applicable_others rest country transport entry_date loading_date)
        as [[k|e] o'] eqn:Hrest; [|discriminate].
      simpl in H. injection H as <- <-.
      specialize (IH _ _ eq_refl r). rewrite elem_of_cons.
      destruct ok.
      * rewrite elem_of_cons, IH. split; [|naive_solver].
        intros [-> | ?]; [|naive_solver]. split; [by left | eauto].
      * rewrite IH. split; [naive_solver|].
        intros [[-> | ?] (? & o2 & Ho2)]; [congruence | naive_solver].
Qed.

(** X16: in the analysis, the primary record is the first record of type
    COMMODITY_CODE of the snapshot, and the special programs are those of
    its special rates that list the shipment's country, in their order.
    Entry date, loading date and transport play no part in them. *)
Theorem primary_and_special_programs (raw_data : list tariff_code)
    (country transport : string) (entry_date : date) (loading_date : option date)
    (a : analysis_ok) (out : list diag) :
  analyze_tariffs raw_data country transport entry_date loading_date
  = (Ok (Analysis a), out) →
  List.find TariffProcessor.is_commodity_code raw_data = Some (primary a)
  ∧ (∀ rate, rate ∈ special_programs a ↔
             rate ∈ default [] (specialRates (primary a))
             ∧ TariffProcessor.program_applies country rate = Ok true)
  ∧ special_programs a `sublist_of` default [] (specialRates (primary a))
  ∧ ∀ transport' entry_date' loading_date' a' out',
      analyze_tariffs raw_data country transport' entry_date' loading_date'
      = (Ok (Analysis a'), out') →
      primary a' = primary a ∧ special_programs a' = special_programs a.
Proof.
  intros H. apply analyze_inv in H as (kept & Hfind & Hprog & _ & _).
  split; [exact Hfind|]. split; [by apply filter_result_elem|]. split.
  - revert Hprog. generalize (special_programs a).
    induction (default [] (specialRates (primary a))) as [|x rest IH];
      intros programs Hp; simpl in Hp.
    + by injection Hp as <-.
    + apply bind_Ok_inv in Hp as (b & _ & Hp).
      apply bind_Ok_inv in Hp as (xs & Hxs & Hp). injection Hp as <-.
      destruct b; [apply sublist_skip | apply sublist_cons]; auto.
  - intros transport' entry_date' loading_date' a' out' H'.
    apply analyze_inv in H' as (kept' & Hfind' & Hprog' & _ & _).
    assert (primary a' = primary a) as Heq by congruence.
    split; [exact Heq|]. rewrite Heq in Hprog'. congruence.
Qed.

(** X17: only applicable records reach the buckets of the analysis: a
    record among the active penalties, in an entry of the excluded penalties
    or among the neutral exclusions is a record of the snapshot, not of type
    COMMODITY_CODE, for which [_is_code_applicable] returned [True]. *)
Theorem buckets_hold_applicable_records (raw_data : list tariff_code)
    (country transport : string) (entry_date : date) (loading_date : option date)
    (a : analysis_ok) (out : list diag) (r : tariff_code) :
  analyze_tariffs raw_data country transport entry_date loading_date
  = (Ok (Analysis a), out) →
  in_active (processed_tariffs a) r ∨ in_excluded (processed_tariffs a) r
  ∨ in_neutral (processed_tariffs a) r →
  r ∈ raw_data ∧ type_ r ≠ Some "COMMODITY_CODE"
  ∧ ∃ o, _is_code_applicable r country transport entry_date loading_date
         = Ok (true, o).
Proof.
  intros H Hr. apply analyze_inv in H as (kept & _ & _ & Hkept & Hproc).
  apply (applicable_others_elem _ _ _ _ _ _ _ Hkept).
  rewrite <- (sort_by_priority_perm kept).
  destruct (process_summary _ _ Hproc) as (Hact & Hneu & Hexc & _).
  destruct Hr as [Hr | [(k & entry & Hin & Hr) | Hr]].
  - by apply Hact in Hr as [? _].
  - destruct (Hexc _ _ Hin) as (Hp & _ & _ & _ & Hgroup).
    destruct Hr as [-> | Hr]; [done | by apply Hgroup in Hr as [? _]].
  - by apply Hneu in Hr as [? _].
Qed.

End MoreAnalysis.

(** ** More on [_process_other_tariffs] *)

(** X18: the active penalties are the penalty records none of whose
    [excludedByCodes] is the code of an exclusion record; a penalty that
    lists such a code is never active. *)
Theorem active_penalties_characterised (tariffs : list tariff_code) (out : processed)
    (p : tariff_code) :
  TariffProcessor._process_other_tariffs tariffs = Ok out →
  p ∈ applicable_penalties out ↔
  p ∈ tariffs ∧ TariffProcessor.is_penalty p = Ok true ∧ ¬ marked_excluded tariffs p.
Proof. intros H. destruct (process_summary _ _ H) as (Hact & _). apply Hact. Qed.

Lemma active_penalties_characterised_witness :
  ∃ out,
    TariffProcessor._process_other_tariffs [sample_penalty_first; sample_undated]
    = Ok out
    ∧ sample_penalty_first ∈ applicable_penalties out.
Proof.
  destruct (TariffProcessor._process_other_tariffs [sample_penalty_first; sample_undated])
    as [out|e] eqn:E; [|vm_compute in E; discriminate].
  exists out. split; [reflexivity|].
  apply (active_penalties_characterised _ out sample_penalty_first E).
  split; [apply elem_of_cons; by left|]. split; [reflexivity|].
  intros (k & _ & e & He & Hex & _).
  apply elem_of_cons in He as [-> | He]; [discriminate|].
  apply list_elem_of_singleton in He as ->. discriminate.
Defined.

(** X19: the neutral exclusions are the records of penalty rate zero or
    absent whose code no penalty record lists in [excludedByCodes]. *)
Theorem neutral_exclusions_characterised (tariffs : list tariff_code) (out : processed)
    (e : tariff_code) :
  TariffProcessor._process_other_tariffs tariffs = Ok out →
  e ∈ neutral_exclusions out ↔
  e ∈ tariffs ∧ TariffProcessor.is_exclusion e = Ok true
  ∧ ∃ c, TariffProcessor.code_of e = Ok c
         ∧ ¬ ∃ p, p ∈ tariffs ∧ TariffProcessor.is_penalty p = Ok true
                  ∧ excluded_by p c.
Proof. intros H. destruct (process_summary _ _ H) as (_ & Hneu & _). apply Hneu. Qed.

Lemma neutral_exclusions_characterised_witness :
  ∃ out,
    TariffProcessor._process_other_tariffs [sample_undated; sample_neutral] = Ok out
    ∧ sample_neutral ∈ neutral_exclusions out.
Proof.
  destruct (TariffProcessor._process_other_tariffs [sample_undated; sample_neutral])
    as [out|e] eqn:E; [|vm_compute in E; discriminate].
  exists out. split; [reflexivity|].
  apply (neutral_exclusions_characterised _ out sample_neutral E).
  split; [apply elem_of_cons; right; apply elem_of_cons; by left|].
  split; [reflexivity|]. exists "9903.88.69". split; [reflexivity|].
  intros (p & Hp & Hpen & eb & Heb & _).
  apply elem_of_cons in Hp as [-> | Hp].
  - simpl in Heb. by apply elem_of_nil in Heb.
  - apply list_elem_of_singleton in Hp as ->. discriminate.
Defined.

Lemma is_penalty_raise (c : tariff_code) (e : exn) :
  TariffProcessor.is_penalty c = Raise e → e = KeyError "rateInfo".
Proof.
  unfold TariffProcessor.is_penalty, TariffProcessor.penalty_rate.
  destruct (rateInfo c); simpl; [discriminate | by intros [= <-]].
Qed.

Lemma record_without_rate_info_raises (tariffs : list tariff_code) (r : tariff_code) :
  r ∈ tariffs → rateInfo r = None →
  TariffProcessor._process_other_tariffs tariffs = Raise (KeyError "rateInfo").
Proof.
  intros Hin Hr.
  destruct (filter_result_raises TariffProcessor.is_penalty tariffs r Hin)
    as (e & y & _ & Hy & Hf).
  { unfold TariffProcessor.is_penalty, TariffProcessor.penalty_rate. rewrite Hr.
    simpl. eauto. }
  apply is_penalty_raise in Hy as ->.
  unfold TariffProcessor._process_other_tariffs. by rewrite Hf.
Qed.

(** X20: one record without [rateInfo] makes [_process_other_tariffs] raise
    [KeyError('rateInfo')]: no bucket is returned for the other records. *)
Theorem record_without_rate_info_aborts (tariffs : list tariff_code) (r : tariff_code) :
  r ∈ tariffs → rateInfo r = None →
  TariffProcessor._process_other_tariffs tariffs = Raise (KeyError "rateInfo").
Proof.
  intros Hin Hr.
  destruct (filter_result_raises TariffProcessor.is_penalty tariffs r Hin)
    as (e & y & _ & Hy & Hf).
  { unfold TariffProcessor.is_penalty, TariffProcessor.penalty_rate. rewrite Hr.
    simpl. eauto. }
  apply is_penalty_raise in Hy as ->.
  unfold TariffProcessor._process_other_tariffs. by rewrite Hf.
Qed.

Lemma record_without_rate_info_aborts_witness :
  TariffProcessor._process_other_tariffs
    [sample_penalty_first; sample_without_rate_info; sample_neutral]
  = Raise (KeyError "rateInfo").
Proof.
  apply (record_without_rate_info_aborts _ sample_without_rate_info).
  - apply elem_of_cons. right. apply elem_of_cons. by left.
  - reflexivity.
Defined.

Lemma filter_result_sublist {A : Type} (p : A → result bool) (l xs : list A) :
  filter_result p l = Ok xs → xs `sublist_of` l.
Proof.
  revert xs. induction l as [|a rest IH]; intros xs H; simpl in H.
  - injection H as <-. constructor.
  - apply bind_Ok_inv in H as (b & _ & H).
    apply bind_Ok_inv in H as (ys & Hys & H). injection H as <-.
    destruct b; [apply sublist_skip | apply sublist_cons]; auto.
Qed.

Lemma resolve_penalties_sublist (codes : gset string) (excl pens fin : list tariff_code)
    (d : PyDict.t excluded_entry) (u : gset string) (st' : TariffProcessor.resolve_state) :
  TariffProcessor.resolve_penalties codes excl pens (fin, d, u) = Ok st' →
  ∃ l, st'.1.1 = fin ++ l ∧ l `sublist_of` pens.
Proof.
  revert fin d u. induction pens as [|p rest IH]; intros fin d u H.
  - simpl in H. injection H as <-. exists []. simpl. by rewrite app_nil_r.
  - apply resolve_penalties_step in H
      as (key & m & u1 & _ & _ & _ & [[_ H] | [_ H]]);
      apply IH in H as (l & -> & Hl).
    + exists l. split; [done | by apply sublist_cons].
    + exists (p :: l). rewrite <- app_assoc. split; [done | by apply sublist_skip].
Qed.

Lemma sublist_Forall_keep {A : Type} (P : A → Prop) (l1 l2 : list A) :
  l1 `sublist_of` l2 → Forall P l2 → Forall P l1.
Proof.
  induction 1 as [|x l1 l2 _ IH|x l1 l2 _ IH]; intros Hall.
  - constructor.
  - apply Forall_cons in Hall as [? ?]. constructor; auto.
  - apply Forall_cons in Hall as [? ?]. auto.
Qed.

Lemma sublist_sorted {A : Type} (R : A → A → Prop) (l1 l2 : list A) :
  l1 `sublist_of` l2 → StronglySorted R l2 → StronglySorted R l1.
Proof.
  induction 1 as [|x l1 l2 Hsub IH|x l1 l2 _ IH]; intros Hs.
  - constructor.
  - apply StronglySorted_inv in Hs as [Hs Hx]. constructor; [auto|].
    by apply (sublist_Forall_keep _ l1 l2).
  - apply StronglySorted_inv in Hs as [Hs _]. auto.
Qed.

Lemma process_order (tariffs : list tariff_code) (out : processed) :
  TariffProcessor._process_other_tariffs tariffs = Ok out →
  applicable_penalties out `sublist_of` tariffs
  ∧ neutral_exclusions out `sublist_of` tariffs.
Proof.
  unfold TariffProcessor._process_other_tariffs. intros H.
  apply bind_Ok_inv in H as (pens & Hpens & H).
  apply bind_Ok_inv in H as (excl & Hexcl & H).
  apply bind_Ok_inv in H as (code_list & _ & H).
  apply bind_Ok_inv in H as ([[fin d] used] & Hres & H).
  apply bind_Ok_inv in H as (neutral & Hneutral & H).
  injection H as <-. simpl.
  apply filter_result_sublist in Hpens, Hexcl, Hneutral.
  apply resolve_penalties_sublist in Hres as (l & Hl & Hsub). simpl in Hl. subst fin.
  split; by etrans.
Qed.

(** ** More on [analyze_tariffs] and the route *)

Section MoreRoute.

Variable fromisoformat : string → option date.

Abbreviation _is_code_applicable := (TariffProcessor._is_code_applicable fromisoformat).
Abbreviation applicable_others := (TariffProcessor.applicable_others fromisoformat).
Abbreviation analyze_tariffs := (TariffProcessor.analyze_tariffs fromisoformat).
Abbreviation calculate_tariff_route := (Route.calculate_tariff_route fromisoformat).

(** X22: the analysis lists the active penalties and the neutral exclusions
    in ascending order of priority. *)
Theorem analysis_lists_by_priority (raw_data : list tariff_code)
    (country transport : string) (entry_date : date) (loading_date : option date)
    (a : analysis_ok) (out : list diag) :
  analyze_tariffs raw_data country transport entry_date loading_date
  = (Ok (Analysis a), out) →
  StronglySorted by_priority (applicable_penalties (processed_tariffs a))
  ∧ StronglySorted by_priority (neutral_exclusions (processed_tariffs a)).
Proof.
  intros H. apply analyze_inv in H as (kept & _ & _ & _ & Hproc).
  apply process_order in Hproc as [Hact Hneu].
  pose proof (sort_by_priority_sorted kept) as Hs.
  split; eapply sublist_sorted; eauto.
Qed.

(** What the route answers once the mode is valid, the snapshot fetched and
    a country given: the analysis decides. *)
Lemma route_after_fetch (fetch : string → option (list tariff_code))
    (request : Route.TariffRequest) (mode : string) (modes : list string)
    (country : string) (countries : list string) (c : tariff_code)
    (raw : list tariff_code) :
  Route.mode_of_transport request = mode :: modes →
  upper mode ∈ Route.valid_modes →
  fetch (Route.hts_code request) = Some (c :: raw) →
  Route.country request = country :: countries →
  calculate_tariff_route fetch request
  = match (analyze_tariffs (c :: raw) country (upper mode)
             (Route.entry_date request) (Route.loading_date request)).1 with
    | Raise e => Route.HTTPException 500 (Route.UnexpectedError e)
    | Ok (AnalysisError error) => Route.HTTPException 400 (Route.AnalysisFailed error)
    | Ok (Analysis a) =>
        match
          (total_tariff ← Route.get_data (ReportBuilder.generate_report_data a country);
           total_rate_ ← Route.calculate_total_tariff total_tariff
                           (Route.base_cost request) (Route.base_cost request);
           Route.json_response (ReportBuilder.generate_report_data a country)
             total_tariff total_rate_)
        with
        | Ok r => r
        | Raise e => Route.HTTPException 500 (Route.UnexpectedError e)
        end
    end.
Proof.
  intros Hmode Hvalid Hfetch Hcountry.
  unfold Route.calculate_tariff_route, Route.route_body.
  rewrite Hmode, Hfetch, Hcountry. simpl Route.first_of. unfold_bind.
  rewrite bool_decide_eq_true_2 by exact Hvalid. simpl negb. cbv iota.
  destruct (analyze_tariffs (c :: raw) country (upper mode) _ _).1 as [[err|a]|e];
    reflexivity.
Qed.

(** X23: a special rate of the primary record without [importProgram], or
    whose program has no [countriesOfOrigin], makes [analyze_tariffs] raise a
    [KeyError] before any record is tested; the route answers 500. *)
Theorem special_rate_without_program_aborts (raw_data : list tariff_code)
    (country transport : string) (entry_date : date) (loading_date : option date)
    (p : tariff_code) (rate : SpecialRate.t) :
  List.find TariffProcessor.is_commodity_code raw_data = Some p →
  rate ∈ default [] (specialRates p) →
  SpecialRate.importProgram rate = None
  ∨ (∃ ip, SpecialRate.importProgram rate = Some ip
           ∧ ImportProgram.countriesOfOrigin ip = None) →
  ∃ key,
    analyze_tariffs raw_data country transport entry_date loading_date
    = (Raise (KeyError key), [])
    ∧ ∀ fetch request mode modes countries,
        fetch (Route.hts_code request) = Some raw_data →
        Route.mode_of_transport request = mode :: modes →
        upper mode ∈ Route.valid_modes →
        Route.country request = country :: countries →
        calculate_tariff_route fetch request
        = Route.HTTPException 500 (Route.UnexpectedError (KeyError key)).
Proof.
  intros Hfind Hrate Hbad.
  destruct (filter_result_raises (TariffProcessor.program_applies country)
              (default [] (specialRates p)) rate Hrate) as (e & y & _ & Hy & Hf).
  { unfold TariffProcessor.program_applies.
    destruct Hbad as [-> | (ip & -> & Hip)]; simpl; [eauto|].
    rewrite Hip. simpl. eauto. }
  apply program_applies_raise in Hy as [key ->]. exists key.
  assert (Ha : ∀ transport entry_date loading_date,
            analyze_tariffs raw_data country transport entry_date loading_date
            = (Raise (KeyError key), [])).
  { intros. unfold TariffProcessor.analyze_tariffs. by rewrite Hfind, Hf. }
  split; [apply Ha|].
  intros fetch request mode modes countries Hfetch Hmode Hvalid Hcountry.
  destruct raw_data as [|c raw]; [discriminate|].
  rewrite (route_after_fetch fetch request mode modes country countries c raw)
    by done.
  by rewrite Ha.
Qed.

(** X24: an applicable record without [rateInfo] makes the whole analysis
    raise [KeyError('rateInfo')], whatever the other records are. *)
Theorem applicable_record_without_rate_info_aborts (raw_data : list tariff_code)
    (country transport : string) (entry_date : date) (loading_date : option date)
    (p r : tariff_code) (programs : list SpecialRate.t) (o : list diag) :
  List.find TariffProcessor.is_commodity_code raw_data = Some p →
  filter_result (TariffProcessor.program_applies country)
    (default [] (specialRates p)) = Ok programs →
  r ∈ raw_data → type_ r ≠ Some "COMMODITY_CODE" →
  _is_code_applicable r country transport entry_date loading_date = Ok (true, o) →
  rateInfo r = None →
  (analyze_tariffs raw_data country transport entry_date loading_date).1
  = Raise (KeyError "rateInfo").
Proof.
  intros Hfind Hprog Hr Hty Happ Hinfo.
  unfold TariffProcessor.analyze_tariffs. rewrite Hfind, Hprog.
  destruct (applicable_others_total fromisoformat raw_data country transport
              entry_date loading_date) as (kept & out & Hkept).
  rewrite Hkept. simpl. unfold_bind.
  rewrite (record_without_rate_info_raises (TariffProcessor.sort_by_priority kept) r);
    [done | | done].
  rewrite sort_by_priority_perm.
  apply (applicable_others_elem fromisoformat _ _ _ _ _ _ _ Hkept). eauto.
Qed.

(** X25: once [analyze_tariffs] has returned an analysis, neither the
    report, nor [get_data], nor [calculate_total_tariff] raises, and the data
    handed to the calculation are those of [tariff_data_of].  The route
    answers with the computation when the duty amount and the total cost are
    finite; when one of them is infinite or not a number, the response is
    not serialised and the route answers 500. *)
Theorem route_answers_after_analysis (fetch : string → option (list tariff_code))
    (request : Route.TariffRequest) (mode : string) (modes : list string)
    (country : string) (countries : list string) (raw_data : list tariff_code)
    (a : analysis_ok) :
  Route.mode_of_transport request = mode :: modes →
  upper mode ∈ Route.valid_modes →
  fetch (Route.hts_code request) = Some raw_data →
  Route.country request = country :: countries →
  (analyze_tariffs raw_data country (upper mode) (Route.entry_date request)
     (Route.loading_date request)).1 = Ok (Analysis a) →
  ∃ r, Route.calculate_total_tariff (tariff_data_of a) (Route.base_cost request)
         (Route.base_cost request) = Ok r
       ∧ calculate_tariff_route fetch request
         = if is_finite (Route.total_duties r) && is_finite (Route.total_cost r)
           then Route.JSONResponse (ReportBuilder.generate_report_data a country)
                  (tariff_data_of a) r
           else Route.HTTPException 500 (Route.UnexpectedError ValueError).
Proof.
  intros Hmode Hvalid Hfetch Hcountry Ha.
  destruct raw_data as [|c raw].
  { unfold TariffProcessor.analyze_tariffs in Ha. simpl in Ha. discriminate. }
  rewrite (route_after_fetch fetch request mode modes country countries c raw)
    by done.
  rewrite Ha, get_data_built.
  destruct (calculate_total_tariff_returns a (Route.base_cost request)
              (Route.base_cost request)) as [r Hr].
  exists r. split; [exact Hr|]. unfold_bind. rewrite Hr.
  unfold Route.json_response. by destruct (_ && _).
Qed.

(** X26: the errors of the route, in the order it meets them: an empty list
    of modes is an [IndexError] and status 500; a mode of ASCII characters
    outside the five valid ones, whatever its letter case, is status 400 and
    the snapshot is not looked at; a snapshot that is absent or empty is
    status 404; an empty list of countries is then an [IndexError] and
    status 500. *)
Theorem route_errors (fetch : string → option (list tariff_code))
    (request : Route.TariffRequest) :
  (Route.mode_of_transport request = [] →
   calculate_tariff_route fetch request
   = Route.HTTPException 500 (Route.UnexpectedError IndexError))
  ∧ (∀ mode modes,
       Route.mode_of_transport request = mode :: modes →
       ascii_only mode = true →
       upper mode ∉ Route.valid_modes →
       calculate_tariff_route fetch request
       = Route.HTTPException 400 Route.InvalidModeOfTransport)
  ∧ (∀ mode modes,
       Route.mode_of_transport request = mode :: modes →
       upper mode ∈ Route.valid_modes →
       fetch (Route.hts_code request) = None
       ∨ fetch (Route.hts_code request) = Some [] →
       calculate_tariff_route fetch request
       = Route.HTTPException 404 (Route.NoDataFound (Route.hts_code request)))
  ∧ (∀ mode modes c raw,
       Route.mode_of_transport request = mode :: modes →
       upper mode ∈ Route.valid_modes →
       fetch (Route.hts_code request) = Some (c :: raw) →
       Route.country request = [] →
       calculate_tariff_route fetch request
       = Route.HTTPException 500 (Route.UnexpectedError IndexError)).
Proof.
  unfold Route.calculate_tariff_route, Route.route_body.
  split; [|split; [|split]].
  - intros ->. reflexivity.
  - intros mode modes -> _ Hbad. simpl Route.first_of. unfold_bind.
    by rewrite bool_decide_eq_false_2.
  - intros mode modes -> Hvalid Hfetch. simpl Route.first_of. unfold_bind.
    rewrite bool_decide_eq_true_2 by done. simpl.
    by destruct Hfetch as [-> | ->].
  - intros mode modes c raw -> Hvalid -> ->. simpl Route.first_of. unfold_bind.
    by rewrite bool_decide_eq_true_2.
Qed.

End MoreRoute.

(** ** From the analysis to the duty *)

(** X27: the basic rate is the rate description of the first applicable
    special program when there is one, whatever the rate of the primary
    record, and otherwise the rate description of the primary record; "N/A"
    stands for a description that is absent. *)
Theorem basic_rate_selection (a : analysis_ok) (country : string)
    (td : Route.tariff_data) :
  Route.get_data (ReportBuilder.generate_report_data a country) = Ok td →
  type_ (primary a) = Some "COMMODITY_CODE" →
  (∀ prog rest, special_programs a = prog :: rest →
     Route.basic_rate td = JStr (default "N/A" (SpecialRate.rateDescription prog)))
  ∧ (special_programs a = [] →
     Route.basic_rate td = JStr (default "N/A" (rateDescription (primary a)))).
Proof.
  rewrite get_data_built. intros [= <-] Hty. unfold tariff_data_of. simpl. split.
  - intros prog rest ->. reflexivity.
  - intros ->. unfold ReportBuilder.record_truthy. by rewrite Hty.
Qed.

(** X28: neither the exclusion records grouped with an excluded penalty nor
    the neutral exclusions enter the duty: two analyses with the same primary
    record, special programs, active penalties and excluded penalties (code
    and penalty record) give the same duty rate, duty amount and total
    cost. *)
Theorem grouped_exclusions_leave_duty_unchanged (a a' : analysis_ok)
    (country : string) (td td' : Route.tariff_data) (base_cost : double) :
  primary a = primary a' →
  special_programs a = special_programs a' →
  applicable_penalties (processed_tariffs a)
  = applicable_penalties (processed_tariffs a') →
  map (λ item : string * excluded_entry, (item.1, penalty item.2))
    (excluded_penalties (processed_tariffs a))
  = map (λ item : string * excluded_entry, (item.1, penalty item.2))
      (excluded_penalties (processed_tariffs a')) →
  Route.get_data (ReportBuilder.generate_report_data a country) = Ok td →
  Route.get_data (ReportBuilder.generate_report_data a' country) = Ok td' →
  Route.calculate_total_tariff td base_cost base_cost
  = Route.calculate_total_tariff td' base_cost base_cost.
Proof.
  intros Hprim Hprog Hact Hexc. rewrite !get_data_built.
  intros [= <-] [= <-].
  assert (Hmap : Route.excluded_penalties (tariff_data_of a)
                 = Route.excluded_penalties (tariff_data_of a')).
  { unfold tariff_data_of. simpl.
    assert (Hfactor : ∀ l : list (string * excluded_entry),
              map (λ item : string * excluded_entry,
                     rated_of (label (penalty item.2)) item.1
                       (rateDescription (penalty item.2))) l
              = map (λ kp : string * tariff_code,
                       rated_of (label kp.2) kp.1 (rateDescription kp.2))
                  (map (λ item : string * excluded_entry, (item.1, penalty item.2)) l)).
    { intros l. rewrite map_map. reflexivity. }
    by rewrite !Hfactor, Hexc. }
  unfold Route.calculate_total_tariff, Route.accumulate.
  rewrite Hmap. unfold tariff_data_of at 1 2 3 5 6 7. simpl.
  by rewrite Hprim, Hprog, Hact.
Qed.

(** ** Examples of the further properties *)

Lemma extract_values_nil_iff_witness :
  ascii_only "Free" = true ∧ extract_values "Free" = [].
Proof.
  split; [reflexivity|].
  apply (proj2 (extract_values_nil_iff "Free" eq_refl)). reflexivity.
Defined.

Lemma duty_is_not_negative_witness :
  ∃ r, Route.calculate_total_tariff (tariff_data_of sample_analysis)
         (double_of_Z 1000) (double_of_Z 1000) = Ok r
       ∧ below_zero (Route.total_duties r) = false
       ∧ below_zero (Route.total_cost r) = false.
Proof.
  destruct (Route.calculate_total_tariff (tariff_data_of sample_analysis)
              (double_of_Z 1000) (double_of_Z 1000))
    as [r|e] eqn:E; [|vm_compute in E; discriminate].
  exists r. split; [reflexivity|].
  apply (duty_is_not_negative sample_analysis "CN" (tariff_data_of sample_analysis)
           (double_of_Z 1000) r).
  - vm_compute. reflexivity.
  - exact E.
  - reflexivity.
Defined.

Lemma primary_and_special_programs_witness :
  ∃ a out,
    TariffProcessor.analyze_tariffs iso_prefix_date
      [sample_neutral; sample_primary_with_programs; sample_primary] "AU" "ANY"
      (mkdate 2025 6 1) None = (Ok (Analysis a), out)
    ∧ primary a = sample_primary_with_programs
    ∧ special_programs a = [sample_program "Australia FTA" "AU" "1.2%" ["AU"]]
    ∧ special_programs a `sublist_of` default [] (specialRates (primary a)).
Proof.
  destruct (TariffProcessor.analyze_tariffs iso_prefix_date
              [sample_neutral; sample_primary_with_programs; sample_primary] "AU" "ANY"
              (mkdate 2025 6 1) None) as [[[err|a]|e] out] eqn:E;
    [vm_compute in E; discriminate | | vm_compute in E; discriminate].
  exists a, out. split; [reflexivity|].
  destruct (primary_and_special_programs iso_prefix_date _ _ _ _ _ _ _ E)
    as (_ & _ & Hsub & _).
  vm_compute in E. injection E as <- <-.
  split; [reflexivity|]. split; [reflexivity | exact Hsub].
Defined.

Lemma buckets_hold_applicable_records_witness :
  ∃ a out,
    TariffProcessor.analyze_tariffs iso_prefix_date [sample_primary; sample_neutral]
      "CN" "ANY" (mkdate 2025 6 1) None = (Ok (Analysis a), out)
    ∧ in_neutral (processed_tariffs a) sample_neutral
    ∧ ∃ o, TariffProcessor._is_code_applicable iso_prefix_date sample_neutral "CN"
             "ANY" (mkdate 2025 6 1) None = Ok (true, o).
Proof.
  destruct (TariffProcessor.analyze_tariffs iso_prefix_date
              [sample_primary; sample_neutral] "CN" "ANY" (mkdate 2025 6 1) None)
    as [[[err|a]|e] out] eqn:E;
    [vm_compute in E; discriminate | | vm_compute in E; discriminate].
  exists a, out. split; [reflexivity|].
  assert (Hin : in_neutral (processed_tariffs a) sample_neutral).
  { pose proof E as E'. vm_compute in E'. injection E' as <- <-. vm_compute. left. }
  split; [exact Hin|].
  apply (buckets_hold_applicable_records iso_prefix_date _ _ _ _ _ _ _ sample_neutral E).
  right. right. exact Hin.
Defined.

Lemma analysis_lists_by_priority_witness :
  ∃ a out,
    TariffProcessor.analyze_tariffs iso_prefix_date
      [sample_primary; with_priority sample_penalty_first 5;
       with_priority sample_penalty_second 1] "CN" "ANY" (mkdate 2025 6 1) None
    = (Ok (Analysis a), out)
    ∧ applicable_penalties (processed_tariffs a)
      = [with_priority sample_penalty_second 1; with_priority sample_penalty_first 5]
    ∧ StronglySorted by_priority (applicable_penalties (processed_tariffs a)).
Proof.
  destruct (TariffProcessor.analyze_tariffs iso_prefix_date
              [sample_primary; with_priority sample_penalty_first 5;
               with_priority sample_penalty_second 1] "CN" "ANY" (mkdate 2025 6 1) None)
    as [[[err|a]|e] out] eqn:E;
    [vm_compute in E; discriminate | | vm_compute in E; discriminate].
  exists a, out. split; [reflexivity|].
  destruct (analysis_lists_by_priority iso_prefix_date _ _ _ _ _ _ _ E) as [Hsorted _].
  split; [|exact Hsorted].
  vm_compute in E. injection E as <- <-. reflexivity.
Defined.

Lemma special_rate_without_program_aborts_witness :
  ∃ key,
    TariffProcessor.analyze_tariffs iso_prefix_date
      [with_special_rates sample_primary [sample_program_without_import];
       sample_neutral] "CN" "ANY" (mkdate 2025 6 1) None
    = (Raise (KeyError key), []).
Proof.
  destruct (special_rate_without_program_aborts iso_prefix_date
              [with_special_rates sample_primary [sample_program_without_import];
               sample_neutral] "CN" "ANY" (mkdate 2025 6 1) None
              (with_special_rates sample_primary [sample_program_without_import])
              sample_program_without_import) as (key & Hkey & _).
  - reflexivity.
  - vm_compute. left.
  - left. reflexivity.
  - exists key. exact Hkey.
Defined.

Lemma applicable_record_without_rate_info_aborts_witness :
  (TariffProcessor.analyze_tariffs iso_prefix_date
     [sample_primary; sample_penalty_first; sample_without_rate_info] "CN" "ANY"
     (mkdate 2025 6 1) None).1
  = Raise (KeyError "rateInfo").
Proof.
  apply (applicable_record_without_rate_info_aborts iso_prefix_date
           [sample_primary; sample_penalty_first; sample_without_rate_info] "CN" "ANY"
           (mkdate 2025 6 1) None sample_primary sample_without_rate_info [] []).
  - reflexivity.
  - reflexivity.
  - vm_compute. right. right. left.
  - discriminate.
  - vm_compute. reflexivity.
  - reflexivity.
Defined.

Lemma route_answers_after_analysis_witness :
  ∃ a r,
    Route.calculate_tariff_route iso_prefix_date
      (λ _, Some [sample_primary; sample_penalty_first; sample_neutral]) sample_request
    = Route.JSONResponse (ReportBuilder.generate_report_data a "CN")
        (tariff_data_of a) r
    ∧ Route.duty_rate r = "30.00%".
Proof.
  destruct (TariffProcessor.analyze_tariffs iso_prefix_date
              [sample_primary; sample_penalty_first; sample_neutral] "CN" "ANY"
              (mkdate 2025 6 1) None).1 as [[err|a]|e] eqn:E;
    [vm_compute in E; discriminate | | vm_compute in E; discriminate].
  destruct (route_answers_after_analysis iso_prefix_date
              (λ _, Some [sample_primary; sample_penalty_first; sample_neutral])
              sample_request "ANY" [] "CN" []
              [sample_primary; sample_penalty_first; sample_neutral] a)
    as (r & Hr & Hroute).
  - reflexivity.
  - vm_compute. left.
  - reflexivity.
  - reflexivity.
  - exact E.
  - exists a, r.
    vm_compute in E. injection E as <-.
    vm_compute in Hr. injection Hr as <-.
    split; [rewrite Hroute|]; reflexivity.
Defined.

Lemma route_errors_witness :
  Route.calculate_tariff_route iso_prefix_date (λ _, Some []) sample_request
  = Route.HTTPException 404 (Route.NoDataFound "0101300000").
Proof.
  apply (proj1 (proj2 (proj2 (route_errors iso_prefix_date (λ _, Some [])
                                sample_request))) "ANY" []).
  - reflexivity.
  - vm_compute. left.
  - right. reflexivity.
Defined.

Lemma basic_rate_selection_witness :
  Route.basic_rate (tariff_data_of sample_analysis_australia) = JStr "1.2%"
  ∧ Route.basic_rate (tariff_data_of sample_analysis) = JStr "5%".
Proof.
  split.
  - apply (proj1 (basic_rate_selection sample_analysis_australia "AU"
                    (tariff_data_of sample_analysis_australia)
                    ltac:(vm_compute; reflexivity) eq_refl)
             (sample_program "Australia FTA" "AU" "1.2%" ["AU"]) []).
    reflexivity.
  - apply (proj2 (basic_rate_selection sample_analysis "CN"
                    (tariff_data_of sample_analysis)
                    ltac:(vm_compute; reflexivity) eq_refl)).
    reflexivity.
Defined.

Lemma grouped_exclusions_leave_duty_unchanged_witness :
  Route.calculate_total_tariff (tariff_data_of sample_analysis)
    (double_of_Z 1000) (double_of_Z 1000)
  = Route.calculate_total_tariff (tariff_data_of sample_analysis_twin)
      (double_of_Z 1000) (double_of_Z 1000).
Proof.
  apply (grouped_exclusions_leave_duty_unchanged sample_analysis sample_analysis_twin
           "CN").
  - reflexivity.
  - reflexivity.
  - reflexivity.
  - reflexivity.
  - vm_compute. reflexivity.
  - vm_compute. reflexivity.
Defined.

(** ** The report of an analysis *)

Lemma code_or_na_code_of (c : tariff_code) (k : string) :
  TariffProcessor.code_of c = Ok k → ReportBuilder.code_or_na c = k.
Proof.
  unfold TariffProcessor.code_of, ReportBuilder.code_or_na.
  destruct (codeVariant c) as [cv|]; simpl; [|discriminate].
  destruct (code cv) as [k'|]; simpl; [|discriminate]. by intros [= <-].
Qed.

(** X29: every record named in the [other_tariffs] section of the report
    has a code, so that "N/A" never stands there for a missing code; and the
    code shown for an excluded penalty, the key of its entry, is the code of
    the penalty record. *)
Theorem reported_codes_are_record_codes (tariffs : list tariff_code) (out : processed) :
  TariffProcessor._process_other_tariffs tariffs = Ok out →
  (∀ c, in_active out c ∨ in_excluded out c ∨ in_neutral out c →
        TariffProcessor.code_of c = Ok (ReportBuilder.code_or_na c))
  ∧ ∀ key entry, (key, entry) ∈ excluded_penalties out →
      ReportBuilder.excluded_penalty_entry (key, entry)
      = ReportBuilder.excluded_penalty_entry
          (ReportBuilder.code_or_na (penalty entry), entry).
Proof.
  intros H.
  destruct (process_summary _ _ H) as (Hact & Hneu & Hexc & _).
  destruct (process_total _ _ H) as [_ Hcode].
  assert (Hrec : ∀ c, c ∈ tariffs →
            TariffProcessor.is_penalty c = Ok true
            ∨ TariffProcessor.is_exclusion c = Ok true →
            TariffProcessor.code_of c = Ok (ReportBuilder.code_or_na c)).
  { intros c Hc Hkind. destruct (Hcode c Hc Hkind) as [k Hk].
    by rewrite (code_or_na_code_of _ _ Hk). }
  split.
  - intros c [Hc | [(key & entry & Hin & Hc) | Hc]].
    + apply Hact in Hc as (? & ? & _). auto.
    + destruct (Hexc _ _ Hin) as (Hp & Hpen & _ & _ & Hgroup).
      destruct Hc as [-> | Hc]; [auto|].
      apply Hgroup in Hc as (? & ? & _). auto.
    + apply Hneu in Hc as (? & ? & _). auto.
  - intros key entry Hin.
    destruct (Hexc _ _ Hin) as (_ & _ & Hkey & _).
    by rewrite (code_or_na_code_of _ _ Hkey).
Qed.

Lemma reported_codes_are_record_codes_witness :
  ∃ out,
    TariffProcessor._process_other_tariffs [sample_penalty_first; sample_neutral] = Ok out
    ∧ in_excluded out sample_neutral
    ∧ TariffProcessor.code_of sample_neutral
      = Ok (ReportBuilder.code_or_na sample_neutral).
Proof.
  destruct (TariffProcessor._process_other_tariffs [sample_penalty_first; sample_neutral])
    as [out|e] eqn:E; [|vm_compute in E; discriminate].
  exists out. split; [reflexivity|].
  assert (Hin : in_excluded out sample_neutral).
  { pose proof E as E'. vm_compute in E'. injection E' as <-.
    eexists _, _. split; [left | right; left]. }
  split; [exact Hin|].
  apply (proj1 (reported_codes_are_record_codes _ _ E)). right. left. exact Hin.
Defined.

Lemma program_applies_true (country : string) (rate : SpecialRate.t) :
  TariffProcessor.program_applies country rate = Ok true →
  ∃ ip cs x,
    SpecialRate.importProgram rate = Some ip
    ∧ ImportProgram.countriesOfOrigin ip = Some cs
    ∧ x ∈ cs ∧ usCustomsCountryCode x = Some country.
Proof.
  unfold TariffProcessor.program_applies.
  destruct (SpecialRate.importProgram rate) as [ip|]; simpl; [|discriminate].
  destruct (ImportProgram.countriesOfOrigin ip) as [cs|] eqn:Hcs; simpl;
    [|discriminate].
  intros H. exists ip, cs.
  assert (∃ x, x ∈ cs ∧ usCustomsCountryCode x = Some country) as (x & ? & ?);
    [|exists x; auto].
  clear Hcs. induction cs as [|y rest IH]; simpl in H; [discriminate|].
  apply bind_Ok_inv in H as (b & Hb & H).
  destruct (usCustomsCountryCode y) as [cc|] eqn:Hcc; simpl in Hb; [|discriminate].
  injection Hb as <-.
  destruct (String.eqb cc country) eqn:Heq.
  - apply String.eqb_eq in Heq as ->. exists y. split; [by left | done].
  - destruct (IH H) as (x & Hx & Hcode). exists x. split; [by right | done].
Qed.

(** X30: in the report of an analysis the fallbacks of the primary record
    and of the programs stay unused: [primary_info] is never the error dict,
    every reported program has an [importProgram] listing the shipment's
    country, and the programs carry a [message] exactly when no special rate
    of the primary record is open to that country. *)
Theorem report_of_analysis_fallbacks (fromisoformat : string → option date)
    (raw_data : list tariff_code) (country transport : string) (entry_date : date)
    (loading_date : option date) (a : analysis_ok) (out : list diag) :
  TariffProcessor.analyze_tariffs fromisoformat raw_data country transport entry_date
    loading_date = (Ok (Analysis a), out) →
  dict_get "error" JNone (ReportBuilder._build_primary_info (primary a)) = Ok JNone
  ∧ (∀ rate, rate ∈ special_programs a →
       ∃ ip cs x,
         SpecialRate.importProgram rate = Some ip
         ∧ ImportProgram.countriesOfOrigin ip = Some cs
         ∧ x ∈ cs ∧ usCustomsCountryCode x = Some country)
  ∧ (dict_get "message" JNone
       (ReportBuilder._build_special_programs (special_programs a) country)
     ≠ Ok JNone
     ↔ ∀ rate, rate ∈ default [] (specialRates (primary a)) →
               TariffProcessor.program_applies country rate = Ok false).
Proof.
  intros H. apply analyze_inv in H as (kept & Hfind & Hprog & _ & _).
  split; [|split].
  - apply find_some in Hfind as [_ Hty].
    unfold TariffProcessor.is_commodity_code in Hty.
    apply bool_decide_eq_true_1 in Hty.
    unfold ReportBuilder._build_primary_info, ReportBuilder.record_truthy.
    by rewrite Hty.
  - intros rate Hrate. apply (filter_result_elem _ _ _ Hprog) in Hrate as [_ Hrate].
    by apply program_applies_true.
  - pose proof (filter_result_elem _ _ _ Hprog) as Helem.
    pose proof (filter_result_total _ _ _ Hprog) as Htotal.
    destruct (special_programs a) as [|prog rest].
    + split; [|by intros _].
      intros _ rate Hrate. destruct (Htotal rate Hrate) as [[|] Hb]; [|done].
      exfalso. eapply elem_of_nil, Helem. eauto.
    + split; [by intros []|].
      intros Hnone. exfalso.
      destruct (proj1 (Helem prog)) as [Hin Htrue]; [by left|].
      rewrite (Hnone prog Hin) in Htrue. discriminate.
Qed.

Lemma report_of_analysis_fallbacks_witness :
  ∃ a out,
    TariffProcessor.analyze_tariffs iso_prefix_date
      [sample_primary_with_programs; sample_neutral] "CN" "ANY" (mkdate 2025 6 1) None
    = (Ok (Analysis a), out)
    ∧ dict_get "error" JNone (ReportBuilder._build_primary_info (primary a)) = Ok JNone
    ∧ dict_get "message" JNone
        (ReportBuilder._build_special_programs (special_programs a) "CN")
      = Ok (JStr "No special trade programs (e.g., GSP, FTAs) found for this country.").
Proof.
  destruct (TariffProcessor.analyze_tariffs iso_prefix_date
              [sample_primary_with_programs; sample_neutral] "CN" "ANY"
              (mkdate 2025 6 1) None) as [[[err|a]|e] out] eqn:E;
    [vm_compute in E; discriminate | | vm_compute in E; discriminate].
  exists a, out. split; [reflexivity|].
  destruct (report_of_analysis_fallbacks iso_prefix_date _ _ _ _ _ _ _ E)
    as (Herror & _ & _).
  split; [exact Herror|].
  vm_compute in E. injection E as <- <-. reflexivity.
Defined.

(** ** Records as the loader returns them *)

Section RawRecords.

Variable fromisoformat : string → option date.

Lemma is_str_field (o : option string) (s : string) :
  RawJson.is_str (default JNone (JStr <$> o)) s = bool_decide (o = Some s).
Proof.
  destruct o as [s'|]; [|done]. unfold RawJson.is_str, default, fmap. simpl.
  destruct (String.eqb s' s) eqn:E.
  - apply String.eqb_eq in E as ->. by rewrite bool_decide_eq_true_2.
  - apply String.eqb_neq in E. rewrite bool_decide_eq_false_2; congruence.
Qed.

Lemma parse_date_agrees (key : string) (d : PyDict.t jval) (field : option string) :
  string_field (PyDict.get key d) field →
  RawJson.parse_date fromisoformat key (JDict d)
  = TariffProcessor.parse_date fromisoformat key field.
Proof.
  intros H. unfold RawJson.parse_date, TariffProcessor.parse_date. simpl.
  rewrite H. by destruct field.
Qed.

Lemma loading_date_holds_agrees (d : PyDict.t jval) (c : condition) (ld : date) :
  condition_reads (JDict d) c →
  RawJson.loading_date_holds fromisoformat (JDict d)
    (default JNone (JStr <$> __typename c)) ld
  = TariffProcessor.loading_date_holds fromisoformat c ld.
Proof.
  intros (d' & [= <-] & _ & _ & _ & Ht & Hlo & Hup).
  unfold RawJson.loading_date_holds, TariffProcessor.loading_date_holds.
  rewrite !is_str_field.
  by rewrite (parse_date_agrees _ _ _ Ht), (parse_date_agrees _ _ _ Hlo),
    (parse_date_agrees _ _ _ Hup).
Qed.

(** One turn of the loop on a JSON condition that reads as [c]. *)
Lemma check_each_cons (j : jval) (c : condition) (rest : list jval)
    (transport : string) (loading_date : option date) :
  condition_reads j c →
  RawJson.check_each fromisoformat (j :: rest) transport loading_date
  = if bool_decide (fieldKey c = Some "MODE_OF_TRANSPORT")
       && negb (String.eqb transport "ANY")
    then
      if bool_decide (fieldShouldEqual c = Some transport)
      then RawJson.check_each fromisoformat rest transport loading_date
      else Ok (false, [])
    else if bool_decide (fieldKey c = Some "DATE_OF_LOADING") then
      match loading_date with
      | None => Ok (false, [])
      | Some ld =>
          match TariffProcessor.loading_date_holds fromisoformat c ld with
          | Ok true => RawJson.check_each fromisoformat rest transport loading_date
          | Ok false => Ok (false, [])
          | Raise (KeyError _) | Raise ValueError =>
              Ok (false, [RawJson.WarnDateCondition j])
          | Raise e => Raise e
          end
      end
    else RawJson.check_each fromisoformat rest transport loading_date.
Proof.
  intros Hj. pose proof Hj as (d & -> & Hkey & Hty & Hshould & _).
  pose proof (loading_date_holds_agrees d c) as Hld.
  unfold string_field in Hkey, Hty, Hshould.
  simpl RawJson.check_each. unfold_bind. simpl dict_get.
  rewrite ?Hkey, ?Hty, ?Hshould, !is_str_field.
  destruct (_ && _).
  { by destruct (bool_decide (fieldShouldEqual c = Some transport)). }
  destruct (bool_decide (fieldKey c = Some "DATE_OF_LOADING")); [|done].
  destruct loading_date as [ld|]; [|done].
  by rewrite (Hld ld Hj).
Qed.

Lemma check_each_agrees (js : list jval) (conds : list condition)
    (transport : string) (loading_date : option date) :
  Forall2 condition_reads js conds →
  outcome_reads
    (RawJson.check_each fromisoformat js transport loading_date)
    (TariffProcessor.check_each fromisoformat conds transport loading_date).
Proof.
  induction 1 as [|j c js conds Hj _ IH]; [by split|].
  rewrite (check_each_cons j c js transport loading_date Hj).
  simpl TariffProcessor.check_each.
  destruct (_ && _).
  { by destruct (bool_decide (fieldShouldEqual c = Some transport)). }
  destruct (bool_decide (fieldKey c = Some "DATE_OF_LOADING")); [|exact IH].
  destruct loading_date as [ld|]; [|done].
  destruct (TariffProcessor.loading_date_holds fromisoformat c ld) as [[]|[]];
    try done; try exact IH; (split; [done|]); by constructor.
Qed.

Lemma check_conditions_agree (j : jval) (conds : list condition)
    (transport : string) (loading_date : option date) :
  list_reads condition_reads j conds →
  outcome_reads
    (RawJson._check_conditions fromisoformat j transport loading_date)
    (TariffProcessor._check_conditions fromisoformat conds transport loading_date).
Proof.
  intros (js & -> & Hjs).
  unfold RawJson._check_conditions, TariffProcessor._check_conditions.
  destruct Hjs as [|j c js conds Hj Hjs]; [by split|].
  change (truthy (JList (j :: js))) with true. simpl negb. cbv iota.
  unfold iterate. unfold_bind.
  apply check_each_agrees. by constructor.
Qed.

Lemma country_match_agrees (country : string) (js : list jval)
    (countries : list country_ref) :
  Forall2 country_reads js countries →
  any_result (λ c, v ← dict_item "usCustomsCountryCode" c;
                   Ok (RawJson.is_str v country)) js
  = any_result
      (λ x, cc ← getitem "usCustomsCountryCode" (usCustomsCountryCode x);
            Ok (String.eqb cc country))
      countries.
Proof.
  induction 1 as [|j x js countries (d & -> & Hd) _ IH]; [done|].
  simpl. rewrite Hd, IH.
  destruct (usCustomsCountryCode x) as [cc|]; [|done].
  simpl. unfold_bind. simpl. by destruct (String.eqb cc country).
Qed.

Lemma outcome_reads_bind (jr : result (bool * list RawJson.diag))
    (r : result (bool * list diag)) :
  outcome_reads jr r → outcome_reads (x ← jr; Ok x) (x ← r; Ok x).
Proof. by destruct jr as [[]|], r as [[]|]. Qed.

Lemma applicable_body_agrees (d : PyDict.t jval) (c : tariff_code)
    (country transport : string) (entry_date : date) (loading_date : option date) :
  reads_as (JDict d) c →
  outcome_reads
    (RawJson.applicable_body fromisoformat (JDict d) country transport entry_date
       loading_date)
    (TariffProcessor.applicable_body fromisoformat c country transport
       entry_date loading_date).
Proof.
  intros (d' & [= <-] & _ & _ & Hfrom & Hto & Hcountries & Hconds).
  unfold RawJson.applicable_body, TariffProcessor.applicable_body.
  rewrite (parse_date_agrees _ _ _ Hfrom), (parse_date_agrees _ _ _ Hto).
  destruct (TariffProcessor.parse_date fromisoformat "effectiveFrom" (effectiveFrom c))
    as [from_date|e]; [|done].
  destruct (TariffProcessor.parse_date fromisoformat "effectiveTo" (effectiveTo c))
    as [to_date|e]; [|done].
  unfold_bind. destruct (negb _); [by split|].
  unfold TariffProcessor.country_and_conditions.
  assert (Hcheck : outcome_reads
            (RawJson._check_conditions fromisoformat
               (default (JList []) (PyDict.get "applicabilityConditions" d))
               transport loading_date)
            (TariffProcessor._check_conditions fromisoformat
               (default [] (applicabilityConditions c)) transport loading_date)).
  { apply check_conditions_agree.
    destruct (applicabilityConditions c) as [conds|]; simpl in Hconds.
    - destruct Hconds as (j & -> & Hj). exact Hj.
    - rewrite Hconds. exists []. by split. }
  simpl dict_get.
  destruct (countriesOfOrigin c) as [countries|]; simpl in Hcountries.
  - destruct Hcountries as (j & -> & js & -> & Hjs). simpl default.
    destruct Hjs as [|j x js countries Hj Hjs]; [exact Hcheck|].
    change (truthy (JList (j :: js))) with true.
    pose proof (country_match_agrees country (j :: js) (x :: countries)
                  ltac:(by constructor)) as Hany.
    cbv iota. unfold iterate. unfold_bind. rewrite Hany.
    destruct (any_result _ (x :: countries)) as [[]|e]; simpl;
      [exact Hcheck | by split | done].
  - rewrite Hcountries. exact Hcheck.
Qed.

(** On a JSON record that reads as a typed record, the check on JSON values
    and the check on typed records end alike. *)
Lemma typed_records_agree (j : jval) (c : tariff_code) (country transport : string)
    (entry_date : date) (loading_date : option date) :
  reads_as j c →
  outcome_reads
    (RawJson._is_code_applicable fromisoformat j country transport entry_date
       loading_date)
    (TariffProcessor._is_code_applicable fromisoformat c country transport
       entry_date loading_date).
Proof.
  intros Hj. pose proof Hj as (d & -> & _ & Hvariant & _).
  pose proof (applicable_body_agrees d c country transport entry_date
                loading_date Hj) as Hbody.
  unfold RawJson._is_code_applicable, TariffProcessor._is_code_applicable.
  assert (Hhandler : ∀ e,
    outcome_reads
      (variant ← dict_get "codeVariant" (JDict []) (JDict d);
       k ← dict_get "code" JNone variant;
       Ok (false, [RawJson.WarnApplicability k e]))
      (Ok (false, [WarnApplicability (cv ← codeVariant c; code cv) e]))).
  { intros e. simpl dict_get.
    destruct (codeVariant c) as [cv|]; simpl in Hvariant.
    - destruct Hvariant as (jv & -> & dv & -> & Hcode). simpl. rewrite Hcode.
      split; [done|]. by constructor.
    - rewrite Hvariant. simpl. split; [done|]. by constructor. }
  destruct (RawJson.applicable_body fromisoformat (JDict d) country transport
              entry_date loading_date) as [[ok jout]|je],
    (TariffProcessor.applicable_body fromisoformat c country transport
       entry_date loading_date) as [[ok' out]|e]; try done.
  simpl in Hbody. subst je. destruct e; try done; apply Hhandler.
Qed.

Lemma record_json_reads (c : tariff_code) : reads_as (record_json c) c.
Proof.
  assert (Hcode : ∀ cv, code_reads (code_json cv) cv).
  { intros [[k|]]; eexists; by split. }
  assert (Hcountry : ∀ x, country_reads (country_json x) x).
  { intros [[k|]]; eexists; by split. }
  assert (Hcond : ∀ x, condition_reads (condition_json x) x).
  { intros [[?|] [?|] [?|] [?|] [?|] [?|]];
      eexists; (split; [reflexivity|]); repeat split; reflexivity. }
  assert (Hlist : ∀ (A : Type) (reads : jval → A → Prop) (enc : A → jval) l,
            (∀ x, reads (enc x) x) → list_reads reads (JList (map enc l)) l).
  { intros A reads enc l Hall. eexists. split; [done|].
    induction l; constructor; auto. }
  destruct c as [[?|] [cv|] [?|] ? [?|] ? [?|] [?|] [cs|] [conds|] ? ? ? ?];
    eexists; (split; [reflexivity|]); repeat split; simpl;
    try reflexivity; eauto.
Qed.

(** A record with keys the check does not read, at the top and in the
    objects inside it, reads as a typed record. *)
Example sample_received_reads : reads_as sample_received sample_received_typed.
Proof.
  eexists. split; [reflexivity|]. repeat split.
  - eexists. split; [reflexivity|]. eexists. by split.
  - eexists. split; [reflexivity|]. eexists. split; [reflexivity|].
    constructor; [|constructor]. eexists. by split.
  - eexists. split; [reflexivity|]. eexists. split; [reflexivity|].
    constructor; [|constructor]. eexists. split; [reflexivity|].
    repeat split.
Qed.

(** A date key holding a value that is not a string: [replace] is looked up
    on it, and the [AttributeError] passes both handlers. *)
Lemma non_string_date_raises (d : PyDict.t jval) (key : string) (v : jval) :
  PyDict.get key d = Some v → not_a_string v →
  RawJson.parse_date fromisoformat key (JDict d) = Raise AttributeError.
Proof.
  intros Hget Hv. unfold RawJson.parse_date. simpl. rewrite Hget. simpl.
  destruct v as [| | s| |]; try done. by destruct (Hv s).
Qed.

(** X7: on a JSON record whose keys, where present, hold values of the
    types the check expects (whatever other keys the record and the objects
    inside it carry), the check returns whichever keys are missing: the
    handlers take every exception of the body.  It prints at most one
    warning, and only with the result [False].  A record whose
    [effectiveFrom] holds a value that is not a string is not such a record:
    on it the check raises [AttributeError]. *)
Theorem applicability_check_returns (country transport : string)
    (entry_date : date) (loading_date : option date) :
  (∀ j c, reads_as j c →
     ∃ ok out,
       RawJson._is_code_applicable fromisoformat j country transport entry_date
         loading_date = Ok (ok, out)
       ∧ (ok = true → out = []) ∧ (List.length out <= 1)%nat)
  ∧ (∀ d v, PyDict.get "effectiveFrom" d = Some v → not_a_string v →
       RawJson._is_code_applicable fromisoformat (JDict d) country transport
         entry_date loading_date = Raise AttributeError).
Proof.
  split.
  - intros j c Hj.
    pose proof (typed_records_agree j c country transport entry_date
                  loading_date Hj) as Hagree.
    destruct (typed_check_returns fromisoformat c country transport entry_date
                loading_date) as (ok & out & Heq & Hok & Hlen).
    rewrite Heq in Hagree.
    destruct (RawJson._is_code_applicable fromisoformat j country transport
                entry_date loading_date) as [[jok jout]|]; [|done].
    destruct Hagree as [-> Hout]. exists ok, jout. split; [done|]. split.
    + intros Htrue. rewrite (Hok Htrue) in Hout. by inversion Hout.
    + by rewrite (Forall2_length _ _ _ Hout).
  - intros d v Hget Hv.
    unfold RawJson._is_code_applicable, RawJson.applicable_body.
    by rewrite (non_string_date_raises d "effectiveFrom" v).
Qed.

(** X12: a DATE_OF_LOADING condition of a known kind whose bound is absent,
    or is a string that is not a date, makes the record inapplicable when a
    loading date is supplied: the check returns [False], and when the
    condition comes first it prints one warning naming it.  A threshold or
    lower bound that is present and is not a string (a JSON null) is not
    handled: [_check_conditions] raises [AttributeError]. *)
Theorem malformed_loading_condition (transport : string) (ld : date) :
  (∀ j c cond country entry_date,
     reads_as j c →
     cond ∈ default [] (applicabilityConditions c) →
     fieldKey cond = Some "DATE_OF_LOADING" →
     ((__typename cond = Some "CustomsTariffLess"
       ∨ __typename cond = Some "CustomsTariffGreater")
      ∧ missing_or_unparsable fromisoformat (threshold cond))
     ∨ (__typename cond = Some "CustomsTariffBetween"
        ∧ (missing_or_unparsable fromisoformat (lowerBound cond)
           ∨ missing_or_unparsable fromisoformat (upperBound cond))) →
     (∃ out, RawJson._is_code_applicable fromisoformat j country transport
               entry_date (Some ld) = Ok (false, out))
     ∧ ∀ jcond rest,
         condition_reads jcond cond →
         RawJson._check_conditions fromisoformat (JList (jcond :: rest))
           transport (Some ld)
         = Ok (false, [RawJson.WarnDateCondition jcond]))
  ∧ (∀ d v rest,
       PyDict.get "fieldKey" d = Some (JStr "DATE_OF_LOADING") →
       (PyDict.get "threshold" d = Some v
        ∧ (PyDict.get "__typename" d = Some (JStr "CustomsTariffLess")
           ∨ PyDict.get "__typename" d = Some (JStr "CustomsTariffGreater")))
       ∨ (PyDict.get "lowerBound" d = Some v
          ∧ PyDict.get "__typename" d = Some (JStr "CustomsTariffBetween")) →
       not_a_string v →
       RawJson._check_conditions fromisoformat (JList (JDict d :: rest)) transport
         (Some ld) = Raise AttributeError).
Proof.
  split.
  - intros j c cond country entry_date Hj Hin Hkey Hbad.
    destruct (typed_malformed_condition fromisoformat c cond country transport
                entry_date ld Hin Hkey Hbad) as [[out Hout] Hfirst].
    split.
    + pose proof (typed_records_agree j c country transport entry_date
                    (Some ld) Hj) as Hagree.
      rewrite Hout in Hagree.
      destruct (RawJson._is_code_applicable fromisoformat j country transport
                  entry_date (Some ld)) as [[jok jout]|]; [|done].
      destruct Hagree as [-> _]. eauto.
    + intros jcond rest Hjcond. specialize (Hfirst []).
      unfold TariffProcessor._check_conditions in Hfirst.
      unfold RawJson._check_conditions.
      change (truthy (JList (jcond :: rest))) with true. simpl negb. cbv iota.
      unfold iterate. unfold_bind.
      rewrite (check_each_cons jcond cond rest transport (Some ld) Hjcond).
      revert Hfirst. simpl TariffProcessor.check_each.
      destruct (_ && _).
      { by destruct (bool_decide (fieldShouldEqual cond = Some transport)). }
      destruct (bool_decide (fieldKey cond = Some "DATE_OF_LOADING")); [|done].
      by destruct (TariffProcessor.loading_date_holds fromisoformat cond ld)
        as [[]|[]].
  - intros d v rest Hkey Hbound Hv.
    unfold RawJson._check_conditions.
    change (truthy (JList (JDict d :: rest))) with true. simpl negb. cbv iota.
    unfold iterate. unfold_bind. simpl. rewrite Hkey. simpl.
    assert (Hraise : RawJson.loading_date_holds fromisoformat (JDict d)
                       (default JNone (PyDict.get "__typename" d)) ld
                     = Raise AttributeError).
    { unfold RawJson.loading_date_holds.
      destruct Hbound as [[Hget [-> | ->]] | [Hget ->]]; simpl.
      - by rewrite (non_string_date_raises d "threshold" v Hget Hv).
      - by rewrite (non_string_date_raises d "threshold" v Hget Hv).
      - by rewrite (non_string_date_raises d "lowerBound" v Hget Hv). }
    by rewrite Hraise.
Qed.

(** C4 (the code departs from it): [sample_open_ended] is a tariff without
    an end date, its [effectiveTo] a JSON null.  The date is missing, and
    the claim has the check return [False] with a warning.  The check looks
    up [replace] on the null, the [AttributeError] is not one of the two
    exceptions the handler names, and the check raises.  The comprehension
    that filters the snapshot raises with it, so that the records after this
    one are not evaluated.  Without the key, the same record is taken by the
    handler as the claim says. *)
Theorem null_date_is_not_handled :
  RawJson._is_code_applicable iso_prefix_date sample_open_ended "CN" "ANY"
    (mkdate 2025 6 1) None = Raise AttributeError
  ∧ RawJson.other_tariffs iso_prefix_date
      [record_json sample_primary; sample_open_ended; record_json sample_neutral]
      "CN" "ANY" (mkdate 2025 6 1) None = (Raise AttributeError, [])
  ∧ RawJson._is_code_applicable iso_prefix_date
      (JDict [("type", JStr "TARIFF");
              ("codeVariant", JDict [("code", JStr "9903.01.25")]);
              ("label", JStr "Reciprocal tariff");
              ("rateDescription", JStr "10%");
              ("effectiveFrom", JStr "2025-04-05T00:00:00Z")])
      "CN" "ANY" (mkdate 2025 6 1) None
    = Ok (false, [RawJson.WarnApplicability (JStr "9903.01.25")
                    (KeyError "effectiveTo")]).
Proof. repeat split; vm_compute; reflexivity. Qed.

End RawRecords.

Lemma applicability_check_returns_witness :
  (∃ ok out,
     RawJson._is_code_applicable iso_prefix_date sample_received
       "CN" "OCEAN" (mkdate 2025 6 1) None = Ok (ok, out)
     ∧ (ok = true → out = []) ∧ (List.length out <= 1)%nat)
  ∧ RawJson._is_code_applicable iso_prefix_date
      (JDict [("type", JStr "TARIFF"); ("effectiveFrom", JNone)])
      "CN" "ANY" (mkdate 2025 6 1) None = Raise AttributeError.
Proof.
  destruct (applicability_check_returns iso_prefix_date "CN" "ANY"
              (mkdate 2025 6 1) None) as [Htyped Hnull].
  split.
  - apply (Htyped sample_received sample_received_typed).
    apply sample_received_reads.
  - apply (Hnull _ JNone); [reflexivity | discriminate].
Defined.

Lemma malformed_loading_condition_witness :
  (∃ out, RawJson._is_code_applicable iso_prefix_date
            (record_json
               (with_conditions sample_neutral (Some [sample_malformed_condition])))
            "CN" "ANY" (mkdate 2025 6 1) (Some (mkdate 2025 2 1)) = Ok (false, out))
  ∧ RawJson._check_conditions iso_prefix_date (JList [sample_null_threshold]) "ANY"
      (Some (mkdate 2025 2 1)) = Raise AttributeError.
Proof.
  destruct (malformed_loading_condition iso_prefix_date "ANY" (mkdate 2025 2 1))
    as [Htyped Hnull].
  split.
  - apply (Htyped _ (with_conditions sample_neutral (Some [sample_malformed_condition]))
             sample_malformed_condition "CN" (mkdate 2025 6 1)).
    + apply record_json_reads.
    + apply elem_of_cons. by left.
    + reflexivity.
    + left. split; [by right | reflexivity].
  - apply (Hnull _ JNone []).
    + reflexivity.
    + left. split; [reflexivity | by left].
    + discriminate.
Defined.
